(** * Verification of the lecture-summarisation pipeline

    A shallow embedding of the Python backend (package [app]) and the
    properties its specification states about it.

    Conventions of the embedding.
    - A Python [str] is a list of characters ([str := list ascii]); a
      character is a code point below 256, classified as Python classifies
      it ([str.isspace], [str.lower], the [re] classes \s, \d, \w).
    - A Python [int] is a [Z]; a slice [s[:n]] or [s[n:]] follows Python
      for negative bounds as well.
    - A Python [float] is a binary64 primitive float.
    - A function that can raise returns an [outcome]; a [while] loop whose
      termination is not structural runs on fuel and returns [None] when
      the fuel is exhausted.
    - A regular expression is a term of [re.regex] that mirrors the
      pattern text, run by a backtracking matcher with Python's leftmost,
      greedy semantics. *)

From Stdlib Require Import String Ascii.
From Stdlib Require Import ZArith NArith List Bool Lia.
From Stdlib Require Import DecimalString Floats Uint63.
From Stdlib Require Import Sorted Permutation.
From stdpp Require gmap strings.
Import ListNotations.
Local Open Scope Z_scope.

Set Implicit Arguments.
Set Warnings "-inexact-float,-register-all".

(* ===================================================================== *)
(** * Python strings *)
(* ===================================================================== *)

Module py.

Definition str := list ascii.

(** A string literal. *)
Definition lit (s : string) : str := list_ascii_of_string s.

Definition code (c : ascii) : N := N_of_ascii c.

Definition chr (n : N) : ascii := ascii_of_N n.

Definition LF : ascii := chr 10.
Definition SP : ascii := chr 32.
Definition DQUOTE : ascii := chr 34.

Definition in_range (lo hi : N) (c : ascii) : bool :=
  (N.leb lo (code c) && N.leb (code c) hi)%bool.

Definition is_char (x : ascii) (c : ascii) : bool := Ascii.eqb x c.

(** [str.isspace] on one character, which is also the class \s of [re]:
    TAB..CR, FS..US, space, NEL and the no-break space. *)
Definition is_space (c : ascii) : bool :=
  (in_range 9 13 c || in_range 28 32 c || N.eqb (code c) 133
   || N.eqb (code c) 160)%bool.

(** The class \d: the decimal digits. *)
Definition is_digit (c : ascii) : bool := in_range 48 57 c.

Definition is_upper_az (c : ascii) : bool := in_range 65 90 c.
Definition is_lower_az (c : ascii) : bool := in_range 97 122 c.
Definition is_alpha_az (c : ascii) : bool := (is_upper_az c || is_lower_az c)%bool.

(** The class \w: alphanumeric characters and the underscore. *)
Definition is_word (c : ascii) : bool :=
  (is_alpha_az c || is_digit c || N.eqb (code c) 95
   || N.eqb (code c) 170 || N.eqb (code c) 178 || N.eqb (code c) 179
   || N.eqb (code c) 181 || N.eqb (code c) 185 || N.eqb (code c) 186
   || in_range 188 190 c || in_range 192 214 c || in_range 216 246 c
   || in_range 248 255 c)%bool.

(** [str.lower] on one character. *)
Definition lower_char (c : ascii) : ascii :=
  if (is_upper_az c || (in_range 192 222 c && negb (N.eqb (code c) 215)))%bool
  then chr (code c + 32) else c.

Definition lower (s : str) : str := map lower_char s.

Fixpoint eqb (a b : str) : bool :=
  match a, b with
  | [], [] => true
  | x :: a', y :: b' => (Ascii.eqb x y && eqb a' b')%bool
  | _, _ => false
  end.

Fixpoint mem (x : str) (l : list str) : bool :=
  match l with
  | [] => false
  | y :: l' => (eqb x y || mem x l')%bool
  end.

Definition len {A} (l : list A) : Z := Z.of_nat (length l).

(** [s[:n]] *)
Definition slice_to {A} (n : Z) (l : list A) : list A :=
  if 0 <=? n then firstn (Z.to_nat n) l
  else firstn (Z.to_nat (len l + n)) l.

(** [s[n:]] *)
Definition slice_from {A} (n : Z) (l : list A) : list A :=
  if 0 <=? n then skipn (Z.to_nat n) l
  else skipn (Z.to_nat (len l + n)) l.

(** The text read backwards, in one pass. *)
Definition reverse (s : str) : str := rev_append s [].

Fixpoint drop_while (p : ascii -> bool) (s : str) : str :=
  match s with
  | [] => []
  | c :: t => if p c then drop_while p t else s
  end.

Fixpoint take_while (p : ascii -> bool) (s : str) : str :=
  match s with
  | [] => []
  | c :: t => if p c then c :: take_while p t else []
  end.

Definition lstrip (s : str) : str := drop_while is_space s.
Definition rstrip (s : str) : str := reverse (drop_while is_space (reverse s)).
(** [s.strip()] *)
Definition strip (s : str) : str := rstrip (lstrip s).

(** [s.strip(chars)], [s.rstrip(chars)] *)
Definition in_chars (chars : str) (c : ascii) : bool := existsb (Ascii.eqb c) chars.
Definition rstrip_chars (chars s : str) : str :=
  reverse (drop_while (in_chars chars) (reverse s)).
Definition strip_chars (chars s : str) : str :=
  rstrip_chars chars (drop_while (in_chars chars) s).

(** [re.sub(r"\s+", " ", s)]: each maximal run of whitespace becomes one
    space.  The flag says whether the previous character was whitespace. *)
Fixpoint sub_ws (in_run : bool) (s : str) : str :=
  match s with
  | [] => []
  | c :: t =>
      if is_space c
      then (if in_run then sub_ws true t else SP :: sub_ws true t)
      else c :: sub_ws false t
  end.

Definition collapse_ws (s : str) : str := sub_ws false s.

(** [re.sub(r"\s+", " ", s).strip()] *)
Definition normalize_ws (s : str) : str := strip (collapse_ws s).

(** [s.replace(" ", "")] *)
Definition remove_spaces (s : str) : str :=
  List.filter (fun c => negb (is_char SP c)) s.

(** [s.rsplit(" ", 1)[0]]: the text before the last space, or all of [s]
    when it has no space. *)
Fixpoint after_first_space (r : str) : option str :=
  match r with
  | [] => None
  | c :: t => if is_char SP c then Some t else after_first_space t
  end.

Definition rsplit1_head (s : str) : str :=
  match after_first_space (reverse s) with
  | Some t => reverse t
  | None => s
  end.

Fixpoint startswith (prefix s : str) : bool :=
  match prefix, s with
  | [], _ => true
  | p :: prefix', c :: s' => (Ascii.eqb p c && startswith prefix' s')%bool
  | _ :: _, [] => false
  end.

Definition endswith (suffix s : str) : bool := startswith (reverse suffix) (reverse s).

(** [sep.join(items)] *)
Fixpoint join (sep : str) (items : list str) : str :=
  match items with
  | [] => []
  | [x] => x
  | x :: rest => x ++ sep ++ join sep rest
  end.

(** [str(n)] for an integer. *)
Definition str_of_Z (z : Z) : str := lit (NilZero.string_of_int (Z.to_int z)).

(** [s.split(sep)] for a separator of one character. *)
Fixpoint split_char (sep : ascii) (cur : str) (s : str) : list str :=
  match s with
  | [] => [reverse cur]
  | c :: t => if is_char sep c then reverse cur :: split_char sep [] t
              else split_char sep (c :: cur) t
  end.

(** [needle in s] *)
Fixpoint contains (needle s : str) : bool :=
  match s with
  | [] => match needle with [] => true | _ => false end
  | _ :: t => (startswith needle s || contains needle t)%bool
  end.

End py.

(* ===================================================================== *)
(** * Regular expressions: the part of Python's [re] the program uses *)
(* ===================================================================== *)

Module re.
Import py.

(** The syntax mirrors the pattern text: [Chr p] is a character class,
    [Rep lo hi a] the greedy [a{lo,hi}] ([hi = None]: unbounded, so [a*] is
    [Rep 0 None a], [a+] is [Rep 1 None a], [a?] is [Rep 0 (Some 1) a]),
    [Lazy a] the reluctant [a*?], [Grp i a] the capturing group number [i], [Bol] is ^, [BolM] is ^
    under (?m), [Eol] is $, [WordB] is \b and [Behind p] is the
    one-character lookbehind (?<=[...]). *)
Inductive regex : Type :=
| Eps
| Chr (p : ascii -> bool)
| Seq (a b : regex)
| Alt (a b : regex)
| Rep (lo : nat) (hi : option nat) (a : regex)
| Lazy (a : regex)
| Grp (i : nat) (a : regex)
| Bol
| BolM
| Eol
| WordB
| Behind (p : ascii -> bool).

(** A position in the subject: the character before it, the text from it
    on, its index, the fuel for unbounded repetitions (more than the
    length of the subject) and the groups captured so far. *)
Record state : Type := St {
  prev : option ascii;
  rest : str;
  pos : N;
  gas : nat;
  caps : list (nat * str)
}.

Definition start (s : str) : state := St None s 0 (S (length s)) [].

Definition step (s : state) (c : ascii) (t : str) : state :=
  St (Some c) t (N.succ (pos s)) (gas s) (caps s).

Definition set_cap (s : state) (i : nat) (text : str) : state :=
  St (prev s) (rest s) (pos s) (gas s) ((i, text) :: caps s).

Definition clear_caps (s : state) : state :=
  St (prev s) (rest s) (pos s) (gas s) [].

Fixpoint group (i : nat) (l : list (nat * str)) : option str :=
  match l with
  | [] => None
  | (j, text) :: l' => if Nat.eqb i j then Some text else group i l'
  end.

Definition between (s s1 : state) : str :=
  firstn (N.to_nat (pos s1 - pos s)) (rest s).

Definition below (hi : option nat) (n : nat) : bool :=
  match hi with
  | Some h => Nat.ltb n h
  | None => true
  end.

Definition opt_is (p : ascii -> bool) (c : option ascii) : bool :=
  match c with
  | Some x => p x
  | None => false
  end.

(** The backtracking matcher, in continuation-passing style: [run r s k]
    tries the ways [r] can match at [s], in Python's order of preference
    (left alternative first, longest repetition first), and answers with
    the first one the continuation [k] accepts.  An iteration of a
    repetition must consume a character. *)
Fixpoint run {R : Type} (r : regex) (s : state) (k : state -> option R)
  {struct r} : option R :=
  match r with
  | Eps => k s
  | Chr p =>
      match rest s with
      | c :: t => if p c then k (step s c t) else None
      | [] => None
      end
  | Seq a b => run a s (fun s1 => run b s1 k)
  | Alt a b =>
      match run a s k with
      | Some x => Some x
      | None => run b s k
      end
  | Rep lo hi a =>
      (fix loop (fuel n : nat) (s0 : state) {struct fuel} : option R :=
         let stop := fun _ : unit => if Nat.leb lo n then k s0 else None in
         match fuel with
         | O => stop tt
         | S fuel' =>
             if below hi n then
               match run a s0 (fun s1 => if N.ltb (pos s0) (pos s1)
                                         then loop fuel' (S n) s1 else None) with
               | Some x => Some x
               | None => stop tt
               end
             else stop tt
         end) (match hi with Some h => h | None => gas s end) 0%nat s
  | Lazy a =>
      (fix loop (fuel : nat) (s0 : state) {struct fuel} : option R :=
         match k s0 with
         | Some x => Some x
         | None =>
             match fuel with
             | O => None
             | S fuel' =>
                 run a s0 (fun s1 => if N.ltb (pos s0) (pos s1)
                                     then loop fuel' s1 else None)
             end
         end) (gas s) s
  | Grp i a => run a s (fun s1 => k (set_cap s1 i (between s s1)))
  | Bol => match prev s with None => k s | Some _ => None end
  | BolM =>
      match prev s with
      | None => k s
      | Some c => if is_char LF c then k s else None
      end
  | Eol =>
      match rest s with
      | [] => k s
      | [c] => if is_char LF c then k s else None
      | _ => None
      end
  | WordB =>
      if xorb (opt_is is_word (prev s)) (opt_is is_word (hd_error (rest s)))
      then k s else None
  | Behind p => if opt_is p (prev s) then k s else None
  end.

Fixpoint seq (l : list regex) : regex :=
  match l with
  | [] => Eps
  | [a] => a
  | a :: l' => Seq a (seq l')
  end.

Definition star (a : regex) : regex := Rep 0 None a.
Definition plus (a : regex) : regex := Rep 1 None a.
Definition opt (a : regex) : regex := Rep 0 (Some 1%nat) a.

(** Character classes. *)
Definition one (c : string) : ascii -> bool := in_chars (lit c).
Definition none_of (c : string) : ascii -> bool := fun x => negb (in_chars (lit c) x).

(** A match of [r] that starts at [s] and is not empty.  No pattern of
    the program matches the empty string. *)
Definition found (r : regex) (s : state) : option state :=
  match run r s (fun s1 => Some s1) with
  | Some s1 => if N.ltb (pos s) (pos s1) then Some (clear_caps s1) else None
  | None => None
  end.

(** [re.sub(r, repl, text)] *)
Fixpoint sub_loop (fuel : nat) (r : regex) (repl : str) (s : state) : str :=
  match fuel with
  | O => rest s
  | S fuel' =>
      match rest s with
      | [] => []
      | c :: t =>
          match found r s with
          | Some s1 => repl ++ sub_loop fuel' r repl s1
          | None => c :: sub_loop fuel' r repl (step s c t)
          end
      end
  end.

Definition sub (r : regex) (repl text : str) : str :=
  sub_loop (S (length text)) r repl (start text).

(** [re.split(r, text)]; [cur] is the piece being read, reversed. *)
Fixpoint split_loop (fuel : nat) (r : regex) (s : state) (cur : str) : list str :=
  match fuel with
  | O => [reverse cur ++ rest s]
  | S fuel' =>
      match rest s with
      | [] => [reverse cur]
      | c :: t =>
          match found r s with
          | Some s1 => reverse cur :: split_loop fuel' r s1 []
          | None => split_loop fuel' r (step s c t) (c :: cur)
          end
      end
  end.

Definition split (r : regex) (text : str) : list str :=
  split_loop (S (length text)) r (start text) [].

(** [re.findall(r, text)] for a pattern without groups. *)
Fixpoint findall_loop (fuel : nat) (r : regex) (s : state) : list str :=
  match fuel with
  | O => []
  | S fuel' =>
      match rest s with
      | [] => []
      | c :: t =>
          match found r s with
          | Some s1 => between s s1 :: findall_loop fuel' r s1
          | None => findall_loop fuel' r (step s c t)
          end
      end
  end.

Definition findall (r : regex) (text : str) : list str :=
  findall_loop (S (length text)) r (start text).

(** [re.fullmatch(r, text)] as a truth value. *)
Definition fullmatch (r : regex) (text : str) : bool :=
  match run r (start text)
          (fun s1 => match rest s1 with [] => Some s1 | _ :: _ => None end) with
  | Some _ => true
  | None => false
  end.

(** [re.search(r, text)]: the groups of the leftmost match. *)
Fixpoint search_loop (fuel : nat) (r : regex) (s : state) : option (list (nat * str)) :=
  match run r s (fun s1 => Some s1) with
  | Some s1 => Some (caps s1)
  | None =>
      match fuel, rest s with
      | S fuel', c :: t => search_loop fuel' r (step s c t)
      | _, _ => None
      end
  end.

Definition search (r : regex) (text : str) : option (list (nat * str)) :=
  search_loop (S (length text)) r (start text).

(** A literal text as a pattern. *)
Definition text (s : string) : regex := seq (map (fun c => Chr (is_char c)) (lit s)).

(** The dot under re.DOTALL. *)
Definition any : regex := Chr (fun _ => true).

(** [re.match(r, text)]: the groups of a match at the start of [text]. *)
Definition match_groups (r : regex) (text : str) : option (list (nat * str)) :=
  match run r (start text) (fun s1 => Some s1) with
  | Some s1 => Some (caps s1)
  | None => None
  end.

End re.

(* ===================================================================== *)
(** * Python numbers used by the pipeline *)
(* ===================================================================== *)

Module num.
Import py.

(** What a Python operation does: it returns, it raises (the exception's
    class is kept), or it lies outside what this embedding describes. *)
Inductive outcome (A : Type) : Type :=
| Ret (a : A)
| Raise (e : string)
| OutOfModel.
Arguments Ret {A} a.
Arguments Raise {A} e.
Arguments OutOfModel {A}.

Definition bind {A B} (m : outcome A) (f : A -> outcome B) : outcome B :=
  match m with
  | Ret a => f a
  | Raise e => Raise e
  | OutOfModel => OutOfModel
  end.

Definition is_finite (x : float) : bool :=
  match Prim2SF x with
  | S754_zero _ | S754_finite _ _ _ => true
  | S754_infinity _ | S754_nan => false
  end.

(** The binary64 value nearest to the integer [z], ties to even
    (infinite when [z] is out of range). *)
Definition float_of_Z (z : Z) : float := SF2Prim (binary_normalize 53 1024 z 0 false).

(** The binary64 value nearest to [n / d], ties to even, for [0 < d]:
    the quotient is taken with more than 64 bits and a sticky last bit,
    then rounded once. *)
Definition float_of_ratio (n d : Z) : float :=
  if n =? 0 then 0%float
  else
    let a := Z.abs n in
    let t := Z.max 0 (66 + Z.log2 d - Z.log2 a) in
    let q := (a * 2 ^ t) / d in
    let sticky := if (a * 2 ^ t) mod d =? 0 then 0 else 1 in
    let m := 2 * q + sticky in
    SF2Prim (binary_normalize 53 1024 (if n <? 0 then - m else m) (- t - 1) false).

(** A finite float as sign, numerator and denominator. *)
Definition ratio_of_float (x : float) : option (bool * Z * Z) :=
  match Prim2SF x with
  | S754_zero s => Some (s, 0, 1)
  | S754_finite s m e =>
      if 0 <=? e then Some (s, Z.pos m * 2 ^ e, 1) else Some (s, Z.pos m, 2 ^ (- e))
  | S754_infinity _ | S754_nan => None
  end.

(** [n / d] rounded to an integer, ties to even, for [0 <= n], [0 < d]. *)
Definition round_half_even (n d : Z) : Z :=
  let q := n / d in
  let r := n mod d in
  if 2 * r <? d then q
  else if d <? 2 * r then q + 1
  else if Z.even q then q else q + 1.

(** [round(x)]: a float to the nearest integer, ties to even. *)
Definition py_round (x : float) : outcome Z :=
  match Prim2SF x with
  | S754_infinity _ => Raise "OverflowError"
  | S754_nan => Raise "ValueError"
  | _ =>
      match ratio_of_float x with
      | Some (s, n, d) => let r := round_half_even n d in Ret (if s then - r else r)
      | None => OutOfModel
      end
  end.

Fixpoint digits_value (acc : Z) (digits : str) : Z :=
  match digits with
  | [] => acc
  | c :: digits' => digits_value (10 * acc + (Z.of_N (code c) - 48)) digits'
  end.

Definition pad_left (width : nat) (s : str) : str :=
  repeat (chr 48) (width - length s) ++ s.

Definition strip_trailing_zeros (s : str) : str := rstrip_chars (lit "0") s.

(** [f"{x:.6f}"] *)
Definition format_6f (x : float) : str :=
  match Prim2SF x with
  | S754_nan => lit "nan"
  | S754_infinity s => if s then lit "-inf" else lit "inf"
  | _ =>
      match ratio_of_float x with
      | Some (s, n, d) =>
          let scaled := round_half_even (n * 1000000) d in
          (if s then lit "-" else [])
            ++ str_of_Z (scaled / 1000000) ++ lit "."
            ++ pad_left 6 (str_of_Z (scaled mod 1000000))
      | None => []
      end
  end.

(** The largest [k] with [10^k <= n / d], for [0 < n], [0 < d]: an
    estimate from the bit lengths, then corrected. *)
Definition pow10_le (k n d : Z) : bool :=
  if 0 <=? k then 10 ^ k * d <=? n else d <=? n * 10 ^ (- k).

Fixpoint adjust_up (fuel : nat) (k n d : Z) : Z :=
  match fuel with
  | O => k
  | S fuel' => if pow10_le (k + 1) n d then adjust_up fuel' (k + 1) n d else k
  end.

Fixpoint adjust_down (fuel : nat) (k n d : Z) : Z :=
  match fuel with
  | O => k
  | S fuel' => if pow10_le k n d then k else adjust_down fuel' (k - 1) n d
  end.

Definition floor_log10 (n d : Z) : Z :=
  let guess := ((Z.log2 n - Z.log2 d) * 30103) / 100000 in
  adjust_up 4 (adjust_down 4 (guess + 1) n d) n d.

(** The shortest decimal digits that read back as [x]: for each number
    of digits [p] the two [p]-digit decimals around [n / d] are tried,
    the nearer one first.  The answer is the digits as an integer and the
    power of ten of its last digit. *)
Definition reads_back (x : float) (digits k : Z) : bool :=
  let y := if 0 <=? k then float_of_ratio (digits * 10 ^ k) 1
           else float_of_ratio digits (10 ^ (- k)) in
  PrimFloat.eqb y x.

Fixpoint shortest_digits (fuel : nat) (p : Z) (x : float) (n d e10 : Z) : Z * Z :=
  let k := e10 - p + 1 in
  let lo := if 0 <=? k then n / (d * 10 ^ k) else (n * 10 ^ (- k)) / d in
  let rem2 := if 0 <=? k then 2 * (n - lo * d * 10 ^ k) else 2 * (n * 10 ^ (- k) - lo * d) in
  let unit := if 0 <=? k then d * 10 ^ k else d in
  let lo_first := (rem2 <? unit) || ((rem2 =? unit) && Z.even lo) in
  let first := if lo_first then lo else lo + 1 in
  let second := if lo_first then lo + 1 else lo in
  match fuel with
  | O => (first, k)
  | S fuel' =>
      if reads_back x first k then (first, k)
      else if reads_back x second k then (second, k)
      else shortest_digits fuel' (p + 1) x n d e10
  end.

Fixpoint drop_zero_digits (fuel : nat) (digits k : Z) : Z * Z :=
  match fuel with
  | O => (digits, k)
  | S fuel' =>
      if (digits mod 10 =? 0) && negb (digits =? 0)
      then drop_zero_digits fuel' (digits / 10) (k + 1)
      else (digits, k)
  end.

(** [repr(x)], which is also [str(x)] and what an f-string prints. *)
Definition repr (x : float) : str :=
  match Prim2SF x with
  | S754_nan => lit "nan"
  | S754_infinity s => if s then lit "-inf" else lit "inf"
  | S754_zero s => if s then lit "-0.0" else lit "0.0"
  | S754_finite s _ _ =>
      match ratio_of_float x with
      | Some (_, n, d) =>
          let ax := PrimFloat.abs x in
          let '(digits, k) := shortest_digits 17 1 ax n d (floor_log10 n d) in
          let '(digits, k) := drop_zero_digits 20 digits k in
          let ds := str_of_Z digits in
          let decpt := len ds + k in
          let body :=
            if (decpt <=? -4) || (16 <? decpt) then
              let e := decpt - 1 in
              firstn 1 ds
                ++ (if 1 <? len ds then lit "." ++ skipn 1 ds else [])
                ++ lit "e" ++ (if e <? 0 then lit "-" else lit "+")
                ++ pad_left 2 (str_of_Z (Z.abs e))
            else if decpt <=? 0 then
              lit "0." ++ repeat (chr 48) (Z.to_nat (- decpt)) ++ ds
            else if len ds <=? decpt then
              ds ++ repeat (chr 48) (Z.to_nat (decpt - len ds)) ++ lit ".0"
            else
              firstn (Z.to_nat decpt) ds ++ lit "." ++ skipn (Z.to_nat decpt) ds in
          (if s then lit "-" else []) ++ body
      | None => []
      end
  end.

(** [float(text)] for a text made of a sign, digits and a point, with
    blanks around it allowed: [None] is [ValueError]. *)
Definition float_of_str (text : str) : option float :=
  let t := strip text in
  let '(negative, body) :=
    match t with
    | c :: t' => if is_char (chr 45) c then (true, t')
                 else if is_char (chr 43) c then (false, t') else (false, t)
    | [] => (false, t)
    end in
  let whole := take_while is_digit body in
  let after := drop_while is_digit body in
  let frac :=
    match after with
    | c :: after' => if is_char (chr 46) c then Some after' else None
    | [] => Some []
    end in
  match frac with
  | None => None
  | Some frac =>
      if forallb is_digit frac && negb ((length whole + length frac =? 0)%nat)
      then
        let x := float_of_ratio (digits_value 0 (whole ++ frac)) (10 ^ Z.of_nat (length frac)) in
        Some (if negative then PrimFloat.opp x else x)
      else None
  end.

End num.

(* ===================================================================== *)
(** * app/models/schemas.py *)
(* ===================================================================== *)

Module schemas.
Import py.

Record StructuredSummary : Type := mkSummary {
  overview_paragraphs : list str;
  key_definitions : list str;
  core_concepts : list str;
  important_examples : list str;
  exam_revision_points : list str
}.

Record MCQItem : Type := mkMCQ {
  question : str;
  options : list str;
  correct_index : Z;
  explanation : str
}.

End schemas.

(* ===================================================================== *)
(** * app/services/pipeline_utils.py *)
(* ===================================================================== *)

Module pipeline_utils.
Import py re schemas.

Definition STOPWORDS : list str :=
  map lit
    ["a"; "an"; "and"; "are"; "as"; "at"; "be"; "been"; "being"; "by"; "for";
     "from"; "has"; "have"; "in"; "into"; "is"; "it"; "its"; "of"; "on"; "or";
     "that"; "the"; "their"; "there"; "this"; "to"; "was"; "were"; "with";
     "you"; "your"; "we"; "they"; "them"; "our"; "can"; "could"; "would";
     "should"; "may"; "might"; "not"; "than"; "then"; "also"; "about"; "such";
     "using"; "used"; "use"; "what"; "when"; "where"; "which"; "who"; "why";
     "how"; "if"; "while"; "during"; "before"; "after"; "over"; "under"]%string.

Definition nonempty {A} (l : list A) : bool :=
  match l with [] => false | _ :: _ => true end.

(** The pattern "\b\d{1,2}:\d{2}(?::\d{2})?\b". *)
Definition timestamp_re : regex :=
  seq [WordB; Rep 1 (Some 2%nat) (Chr is_digit); Chr (one ":");
       Rep 2 (Some 2%nat) (Chr is_digit);
       opt (Seq (Chr (one ":")) (Rep 2 (Some 2%nat) (Chr is_digit)));
       WordB].

(** The pattern "\[[^\]]{1,40}\]". *)
Definition bracket_re : regex :=
  seq [Chr (one "["); Rep 1 (Some 40%nat) (Chr (none_of "]")); Chr (one "]")].

(** The pattern "\([^\)]{1,40}\)". *)
Definition paren_re : regex :=
  seq [Chr (one "("); Rep 1 (Some 40%nat) (Chr (none_of ")")); Chr (one ")")].

(** The pattern "(?m)^[A-Z][A-Z\s]{2,20}:\s*". *)
Definition speaker_re : regex :=
  seq [BolM; Chr is_upper_az;
       Rep 2 (Some 20%nat) (Chr (fun c => is_upper_az c || is_space c)%bool);
       Chr (one ":"); star (Chr is_space)].

Definition TRUNCATED : str := lit " [Transcript truncated]".

Definition clean_transcript_text (text : str) (max_chars : Z) : str :=
  let value := strip text in
  if negb (nonempty value) then []
  else
    let value := sub timestamp_re (lit " ") value in
    let value := sub bracket_re (lit " ") value in
    let value := sub paren_re (lit " ") value in
    let value := sub speaker_re [] value in
    let value := normalize_ws value in
    if len value >? max_chars
    then slice_to max_chars value ++ TRUNCATED
    else value.

(** The pattern "(?<=[.!?])\s+|\n+". *)
Definition sentence_split_re : regex :=
  Alt (Seq (Behind (one ".!?")) (plus (Chr is_space))) (plus (Chr (is_char LF))).

Definition split_sentences (text : str) : list str :=
  List.filter (fun item => negb (len item <? 18))
    (map normalize_ws (split sentence_split_re text)).

(** The pattern "\n{2,}". *)
Definition paragraph_split_re : regex := Rep 2 None (Chr (is_char LF)).

(** The [for part in paragraphs] loop of [split_into_chunks], with its
    two variables [chunks] and [current]; a [break] returns them as they
    stand. *)
Fixpoint chunk_loop (max_chars overlap_chars max_chunks : Z)
  (paragraphs : list str) (chunks : list str) (current : str)
  : list str * str :=
  match paragraphs with
  | [] => (chunks, current)
  | part :: paragraphs' =>
      let candidate :=
        if nonempty current then strip (current ++ [LF] ++ part) else part in
      if len candidate <=? max_chars
      then chunk_loop max_chars overlap_chars max_chunks paragraphs' chunks candidate
      else if nonempty current then
        let chunks := chunks ++ [strip current] in
        if len chunks >=? max_chunks then (chunks, current)
        else
          let overlap :=
            if overlap_chars >? 0 then slice_from (- overlap_chars) current else [] in
          chunk_loop max_chars overlap_chars max_chunks paragraphs' chunks
            (strip (overlap ++ [LF] ++ part))
      else
        let hard_slice := slice_to max_chars part in
        let chunks := chunks ++ [strip hard_slice] in
        if len chunks >=? max_chunks then (chunks, current)
        else
          chunk_loop max_chars overlap_chars max_chunks paragraphs' chunks
            (strip (slice_from (max_chars - overlap_chars) part))
  end.

Definition split_into_chunks (text : str) (max_chars overlap_chars max_chunks : Z)
  : list str :=
  let cleaned := clean_transcript_text text 120000 in
  if negb (nonempty cleaned) then []
  else
    let paragraphs :=
      List.filter nonempty (map strip (split paragraph_split_re cleaned)) in
    let paragraphs :=
      if nonempty paragraphs then paragraphs else split_sentences cleaned in
    let '(chunks, current) :=
      chunk_loop max_chars overlap_chars max_chunks paragraphs [] [] in
    let chunks :=
      if (nonempty current && (len chunks <? max_chunks))%bool
      then chunks ++ [strip current] else chunks in
    List.filter nonempty chunks.

(** The pattern "[A-Za-z][A-Za-z0-9'-]{2,}". *)
Definition token_re : regex :=
  Seq (Chr is_alpha_az)
      (Rep 2 None (Chr (fun c => is_alpha_az c || is_digit c || one "'-" c)%bool)).

Definition tokenize_words (text : str) : list str := findall token_re (lower text).

(** The tokens of [text] that are not stopwords. *)
Definition content_tokens (text : str) : list str :=
  List.filter (fun token => negb (mem token STOPWORDS)) (tokenize_words text).

(** The loop of [dedupe_strings]; [seen] is the set of lowered keys. *)
Fixpoint dedupe_loop (seen : list str) (items : list str) : list str :=
  match items with
  | [] => []
  | item :: items' =>
      let value := normalize_ws item in
      if negb (nonempty value) then dedupe_loop seen items'
      else
        let key := lower value in
        if mem key seen then dedupe_loop seen items'
        else value :: dedupe_loop (key :: seen) items'
  end.

Definition dedupe_strings (items : list str) : list str := dedupe_loop [] items.

(** [Counter(tokens)[token]] *)
Fixpoint count (token : str) (tokens : list str) : Z :=
  match tokens with
  | [] => 0
  | t :: tokens' => (if eqb token t then 1 else 0) + count token tokens'
  end.

(** The keys of a [Counter] or the elements of a [set] built from a list:
    each string once. *)
Fixpoint distinct (seen : list str) (l : list str) : list str :=
  match l with
  | [] => []
  | x :: l' => if mem x seen then distinct seen l' else x :: distinct (x :: seen) l'
  end.

Definition sum_Z (l : list Z) : Z := fold_right Z.add 0 l.

(** [list.sort(key=..., reverse=True)] and [sorted(..., reverse=True)]:
    descending and stable; [geb a b] says that key [a] is not below key
    [b]. *)
Section StableSort.
Variables (A K : Type) (key : A -> K) (geb : K -> K -> bool).

Fixpoint insert_desc (x : A) (l : list A) : list A :=
  match l with
  | [] => [x]
  | y :: l' => if geb (key y) (key x) then y :: insert_desc x l' else x :: l
  end.

Definition sort_desc (l : list A) : list A :=
  fold_left (fun acc x => insert_desc x acc) l [].
End StableSort.

(** The factor of the length penalty; a decimal float literal denotes
    the nearest binary64 value, as in Python. *)
Definition PENALTY_PER_CHAR : float := 0.00015%float.

Definition chunk_score (query_tokens : list str) (chunk : str) : option float :=
  let chunk_tokens := content_tokens chunk in
  if negb (nonempty chunk_tokens) then None
  else
    let overlap :=
      List.filter (fun token => mem token chunk_tokens) (distinct [] query_tokens) in
    let lexical_score :=
      sum_Z (map (fun token => Z.min (count token query_tokens) (count token chunk_tokens))
                 overlap) in
    let length_penalty :=
      (PENALTY_PER_CHAR * num.float_of_Z (Z.max 0 (len chunk - 1100)))%float in
    Some (num.float_of_Z lexical_score - length_penalty)%float.

Definition rank_chunks (query_tokens : list str) (chunks : list str)
  : list (float * str) :=
  flat_map
    (fun chunk =>
       match chunk_score query_tokens chunk with
       | Some score => if PrimFloat.ltb 0 score then [(score, chunk)] else []
       | None => []
       end)
    chunks.

Definition select_top_chunks_for_query (query : str) (chunks : list str) (top_k : Z)
  : list str :=
  if negb (nonempty chunks) then []
  else
    let query_tokens := content_tokens query in
    if negb (nonempty query_tokens) then slice_to top_k chunks
    else
      let ranked := rank_chunks query_tokens chunks in
      if negb (nonempty ranked) then slice_to top_k chunks
      else
        map snd (slice_to top_k (sort_desc fst (fun a b => PrimFloat.leb b a) ranked)).

Definition _shorten (text : str) (max_chars : Z) : str :=
  let value := normalize_ws text in
  if len value <=? max_chars then value
  else rsplit1_head (slice_to max_chars value) ++ lit "...".

Definition filler (label : str) (index : Z) : str :=
  label ++ lit " " ++ str_of_Z index
        ++ lit ": Revise this idea and connect it to the lecture theme.".

(** The [while len(normalized) < min_items] loop; each round adds one
    item, so [min_items] rounds are enough. *)
Fixpoint pad_items (fuel : nat) (label : str) (min_items : Z) (normalized : list str)
  : list str :=
  match fuel with
  | O => normalized
  | S fuel' =>
      if len normalized <? min_items
      then pad_items fuel' label min_items
             (normalized ++ [filler label (len normalized + 1)])
      else normalized
  end.

Definition _ensure_item_range (items : list str) (label : str) (min_items max_items : Z)
  : list str :=
  let normalized := dedupe_strings items in
  let normalized :=
    map (fun item => _shorten item 180)
        (List.filter (fun item => len (strip item) >? 8) normalized) in
  let normalized := slice_to max_items normalized in
  pad_items (Z.to_nat min_items) label min_items normalized.

Definition slice {A} (a b : nat) (l : list A) : list A := firstn (b - a) (skipn a l).

(** [seed[i] if len(seed) > i else seed[0]] *)
Definition item_or_first (i : nat) (seed : list str) : str :=
  if Nat.ltb i (length seed) then nth i seed [] else nth 0 seed [].

(** The local function [pick_unique]; the set [used] is shared between
    the calls, so it is passed in and returned. *)
Fixpoint pick_unique (pool : list str) (used : list str) (target : Z) (picked : list str)
  : list str * list str :=
  match pool with
  | [] => (picked, used)
  | sentence :: pool' =>
      let key := lower sentence in
      if mem key used then pick_unique pool' used target picked
      else
        let picked := picked ++ [sentence] in
        let used := key :: used in
        if len picked >=? target then (picked, used)
        else pick_unique pool' used target picked
  end.

Definition closing (text : str) (tail : string) : str :=
  if nonempty text then text ++ lit tail else text.

Definition fallback_paragraph (fallback_index : Z) (concept : str) : str :=
  _shorten
    (lit "The lecture can be revised effectively by linking theory to example-driven explanation. "
       ++ lit "Paragraph " ++ str_of_Z fallback_index ++ lit " focus: " ++ concept ++ lit ".")
    620.

(** The [while len(paragraphs) < 3] loop; each round adds one paragraph. *)
Fixpoint pad_paragraphs (fuel : nat) (concepts_clean : list str) (paragraphs : list str)
  : list str :=
  match fuel with
  | O => paragraphs
  | S fuel' =>
      if len paragraphs <? 3 then
        let fallback_index := len paragraphs + 1 in
        let concept :=
          if len concepts_clean >=? fallback_index
          then nth (Z.to_nat (fallback_index - 1)) concepts_clean []
          else lit "core lecture ideas" in
        pad_paragraphs fuel' concepts_clean
          (paragraphs ++ [fallback_paragraph fallback_index concept])
      else paragraphs
  end.

Definition sentence_score (token_counts : list str) (sentence : str) : Z :=
  sum_Z (map (fun token => count token token_counts)
             (distinct [] (content_tokens sentence))).

Definition build_three_paragraph_overview (source_text : str) (concepts : list str)
  : list str :=
  let sentences := dedupe_strings (split_sentences source_text) in
  let concepts_clean := dedupe_strings concepts in
  if negb (nonempty sentences) then
    let seed :=
      if nonempty (firstn 4 concepts_clean) then firstn 4 concepts_clean
      else [lit "this lecture presents core academic ideas and applications"] in
    [ lit "This lecture introduces the topic framework and sets foundational context for understanding the "
        ++ lit "subject scope, with early emphasis on " ++ nth 0 seed [] ++ lit ".";
      lit "The middle portion expands the theory through method-level reasoning and conceptual links, "
        ++ lit "especially around " ++ item_or_first 1 seed ++ lit " and related principles.";
      lit "For exam preparation, connect definitions, reasoning steps, and applications into a coherent "
        ++ lit "answer structure, focusing on " ++ item_or_first 2 seed ++ lit "." ]
  else
    let token_counts := content_tokens source_text in
    let ranked_sentences := sort_desc (sentence_score token_counts) Z.geb sentences in
    let top_sentences := dedupe_strings (firstn 15 ranked_sentences) in
    let intro_pool := firstn 6 top_sentences in
    let deep_dive_pool := slice 3 12 top_sentences in
    let evidence_pool :=
      if len top_sentences >? 8 then slice 8 15 top_sentences else skipn 4 top_sentences in
    let '(para1_sentences, used) := pick_unique intro_pool [] 3 [] in
    let '(para2_sentences, used) := pick_unique deep_dive_pool used 3 [] in
    let '(para3_sentences, used) := pick_unique evidence_pool used 2 [] in
    let '(para2_sentences, used) :=
      if len para2_sentences <? 2
      then let '(more, used) := pick_unique top_sentences used (2 - len para2_sentences) [] in
           (para2_sentences ++ more, used)
      else (para2_sentences, used) in
    let '(para3_sentences, used) :=
      if len para3_sentences <? 2
      then let '(more, used) := pick_unique top_sentences used (2 - len para3_sentences) [] in
           (para3_sentences ++ more, used)
      else (para3_sentences, used) in
    let para1 :=
      closing (strip (join (lit " ") para1_sentences))
        " Together, these points establish the lecture's foundational ideas and clarify the conceptual baseline for further study." in
    let para2 :=
      closing (strip (join (lit " ") para2_sentences))
        " This section also clarifies how methods, assumptions, and interpretation steps interact in practice, which is critical for accurate exam responses." in
    let para3 :=
      closing (strip (join (lit " ") para3_sentences))
        " For revision, prioritize definition clarity, method explanation, and application-focused reasoning so answers remain factual, structured, and exam-ready." in
    let paragraphs :=
      map (fun paragraph => _shorten paragraph 620)
          (List.filter (fun paragraph => nonempty (strip paragraph)) [para1; para2; para3]) in
    let paragraphs := dedupe_strings paragraphs in
    firstn 3 (pad_paragraphs 3 concepts_clean paragraphs).

(** One pass of [for paragraph in generated] inside the last loop of
    [validate_structured_summary]: a paragraph is appended while fewer
    than three are present and none of them equals it in lower case. *)
Fixpoint append_missing (generated : list str) (overview : list str) : list str :=
  match generated with
  | [] => overview
  | paragraph :: generated' =>
      if len overview >=? 3 then overview
      else if mem (lower paragraph) (map lower overview)
           then append_missing generated' overview
           else append_missing generated' (overview ++ [paragraph])
  end.

(** The [while len(validated.overview_paragraphs) < 3] loop.  Nothing in
    the code bounds its rounds: [None] is the fuel running out. *)
Fixpoint fill_overview (fuel : nat) (source_text : str) (concepts : list str)
  (overview : list str) : option (list str) :=
  if len overview <? 3 then
    match fuel with
    | O => None
    | S fuel' =>
        let generated := build_three_paragraph_overview source_text concepts in
        fill_overview fuel' source_text concepts (append_missing generated overview)
    end
  else Some overview.

Definition validate_structured_summary (fuel : nat) (summary : StructuredSummary)
  (source_text : str) : option StructuredSummary :=
  let overview := firstn 3 (dedupe_strings (overview_paragraphs summary)) in
  let definitions := _ensure_item_range (key_definitions summary) (lit "Definition") 4 8 in
  let concepts := _ensure_item_range (core_concepts summary) (lit "Concept") 4 8 in
  let examples := _ensure_item_range (important_examples summary) (lit "Example") 4 8 in
  let revision :=
    _ensure_item_range (exam_revision_points summary) (lit "Revision Point") 4 8 in
  let overview :=
    if len overview <? 3
    then build_three_paragraph_overview source_text concepts
    else overview in
  let overview := dedupe_strings overview in
  match fill_overview fuel source_text concepts overview with
  | Some overview => Some (mkSummary overview definitions concepts examples revision)
  | None => None
  end.

End pipeline_utils.

(* ===================================================================== *)
(** * app/services/local_ai_service.py *)
(* ===================================================================== *)

Module local_ai_service.
Import py re num schemas.

Definition _shorten (text : str) (max_chars : Z) : str :=
  let value := normalize_ws text in
  if len value <=? max_chars then value
  else rsplit1_head (slice_to max_chars value) ++ lit "...".

(** ** generate_mcqs *)

(** The constructor of [MCQItem] with the checks its fields declare
    (four options, an index from 0 to 3): [None] is a validation error. *)
Definition MCQItem_new (question : str) (options : list str) (correct_index : Z)
  (explanation : str) : option MCQItem :=
  if (len options =? 4) && (0 <=? correct_index) && (correct_index <=? 3)
  then Some (mkMCQ question options correct_index explanation)
  else None.

(** [options.index(fact)]: [None] is [ValueError]. *)
Fixpoint index_of (x : str) (l : list str) : option Z :=
  match l with
  | [] => None
  | y :: l' =>
      if eqb y x then Some 0
      else match index_of x l' with Some i => Some (i + 1) | None => None end
  end.

(** The [for candidate in pool] loop that collects the distractors. *)
Fixpoint pick_distractors (fact : str) (pool : list str) (distractors : list str)
  : list str :=
  match pool with
  | [] => distractors
  | candidate :: pool' =>
      let option := _shorten candidate 110 in
      if eqb (lower option) (lower fact) then pick_distractors fact pool' distractors
      else
        let distractors := distractors ++ [option] in
        if len distractors >=? 3 then distractors
        else pick_distractors fact pool' distractors
  end.

Definition NOT_SUPPORTED : str :=
  lit "This statement is not directly supported by the lecture notes.".

(** The [while len(distractors) < 3] loop. *)
Fixpoint pad_distractors (fuel : nat) (distractors : list str) : list str :=
  match fuel with
  | O => distractors
  | S fuel' =>
      if len distractors <? 3
      then pad_distractors fuel' (distractors ++ [NOT_SUPPORTED])
      else distractors
  end.

Definition EXPLANATION : str :=
  lit "Correct option matches the grounded lecture statement, while distractors either shift context "
    ++ lit "or weaken technical accuracy.".

(** The fact question [index] is about. *)
Definition fact_of (pool : list str) (index : Z) : str :=
  _shorten (nth (Z.to_nat (index mod len pool)) pool []) 120.

(** The body of the [for index in range(5)] loop. *)
Definition mcq_for (pool : list str) (index : Z) : option MCQItem :=
  let fact := fact_of pool index in
  let question :=
    lit "Which option is most consistent with this lecture statement: "
      ++ [DQUOTE] ++ fact ++ [DQUOTE] ++ lit "?" in
  let distractors := pad_distractors 3 (pick_distractors fact pool []) in
  let options :=
    [fact; nth 0 distractors []; nth 1 distractors []; nth 2 distractors []] in
  let rotation := index mod 4 in
  let options := slice_from rotation options ++ slice_to rotation options in
  match index_of fact options with
  | Some correct_index => MCQItem_new question options correct_index EXPLANATION
  | None => None
  end.

Fixpoint all_some {A} (l : list (option A)) : option (list A) :=
  match l with
  | [] => Some []
  | Some x :: l' => match all_some l' with Some r => Some (x :: r) | None => None end
  | None :: _ => None
  end.

Definition mcq_pool (summary : StructuredSummary) (context_chunks : option (list str))
  : list str :=
  let context_facts :=
    flat_map (fun chunk => firstn 2 (pipeline_utils.split_sentences chunk))
             (match context_chunks with Some l => l | None => [] end) in
  let pool :=
    pipeline_utils.dedupe_strings
      (core_concepts summary ++ key_definitions summary ++ important_examples summary
         ++ exam_revision_points summary ++ context_facts) in
  if pipeline_utils.nonempty pool then pool
  else [lit "The lecture covers foundational concepts and their practical usage."].

(** [None] is an exception raised on the way ([ValueError] of
    [list.index] or a validation error of [MCQItem]). *)
Definition generate_mcqs (summary : StructuredSummary) (context_chunks : option (list str))
  : option (list MCQItem) :=
  let pool := mcq_pool summary context_chunks in
  all_some (map (mcq_for pool) [0; 1; 2; 3; 4]).

(** ** The arithmetic evaluator: [ast.parse] and [eval] on the text that
    [_solve_arithmetic] lets through

    The admitted characters are digits, the point, [+ - * / % ( )] and
    blanks.  Of Python's expressions these can spell numbers, unary and
    binary arithmetic, parentheses, calls and the empty tuple; the last two
    are refused by the node whitelist of [_safe_eval], so they are read
    here as errors like any text that does not parse.

    The limits of CPython 3.11 on such a text are part of the model: an
    indented first line, an integer literal of more than 4300 digits and
    parentheses nested more than 200 deep are errors.  Two things are
    left out and answered with [OutOfModel]: a text with a line break,
    and a text of more than 200 tokens, where the parser and the compiler
    may run into their recursion guards, which depend on the call stack
    of the moment. *)

Inductive pyval : Type :=
| VInt (z : Z)
| VFloat (x : float).

Inductive binop : Type := Add | Sub | Mult | Div | Mod | FloorDiv | Pow.
Inductive unop : Type := UAdd | USub.

Inductive expr : Type :=
| Constant (v : pyval)
| BinOp (l : expr) (op : binop) (r : expr)
| UnaryOp (op : unop) (operand : expr).

Inductive token : Type :=
| TNum (v : pyval)
| TOp (op : binop)
| TLParen
| TRParen.

(** [sys.int_max_str_digits], which the program leaves at its default. *)
Definition INT_MAX_STR_DIGITS : Z := 4300.

(** The deepest nesting of parentheses the tokenizer accepts. *)
Definition MAXLEVEL : Z := 200.

(** The longest text, in tokens, that the model describes. *)
Definition MAX_TOKENS : Z := 200.

(** An integer literal is a run of zeros, or it does not start with a
    zero and has no more digits than [int] converts. *)
Definition valid_int_literal (digits : str) : bool :=
  match digits with
  | [] => false
  | c :: _ =>
      forallb (is_char (chr 48)) digits
      || (negb (is_char (chr 48) c) && (len digits <=? INT_MAX_STR_DIGITS))
  end.

Definition is_line_break (c : ascii) : bool :=
  N.eqb (code c) 10 || N.eqb (code c) 13.

(** The column the tokenizer computes for the first token of the line: a
    space advances it by one, a tab to the next multiple of eight, and a
    form feed sets it back to zero. *)
Fixpoint indentation (col : Z) (s : str) : Z :=
  match s with
  | [] => col
  | c :: t =>
      if one " " c then indentation (col + 1) t
      else if N.eqb (code c) 9 then indentation ((col / 8 + 1) * 8) t
      else if N.eqb (code c) 12 then indentation 0 t
      else col
  end.

(** The tokens of the text, [level] being the number of parentheses that
    are open and [count] the number of tokens read so far.  Space, tab
    and form feed separate tokens; any other blank of [\s] is an invalid
    character, as is a parenthesis opened at level [MAXLEVEL] or closed at
    level zero.  A line break is not described, nor is what follows
    [MAX_TOKENS] tokens. *)
Fixpoint tokenize (fuel : nat) (level count : Z) (s : str) : outcome (list token) :=
  match fuel with
  | O => match s with [] => Ret [] | _ :: _ => OutOfModel end
  | S fuel' =>
      match s with
      | [] => Ret []
      | c :: t =>
          let read level tok rest :=
            if MAX_TOKENS <=? count then OutOfModel
            else bind (tokenize fuel' level (count + 1) rest)
                      (fun l => Ret (tok :: l)) in
          let push := read level in
          if one " " c || N.eqb (code c) 9 || N.eqb (code c) 12
          then tokenize fuel' level count t
          else if is_line_break c then OutOfModel
          else if is_space c then Raise "SyntaxError"
          else if is_digit c || one "." c then
            let whole := take_while is_digit s in
            let after := drop_while is_digit s in
            match after with
            | d :: after' =>
                if one "." d then
                  let frac := take_while is_digit after' in
                  if (length whole + length frac =? 0)%nat then Raise "SyntaxError"
                  else
                    push (TNum (VFloat (float_of_ratio (digits_value 0 (whole ++ frac))
                                                       (10 ^ Z.of_nat (length frac)))))
                         (drop_while is_digit after')
                else if valid_int_literal whole
                     then push (TNum (VInt (digits_value 0 whole))) after
                     else Raise "SyntaxError"
            | [] =>
                if valid_int_literal whole
                then push (TNum (VInt (digits_value 0 whole))) after
                else Raise "SyntaxError"
            end
          else if one "+" c then push (TOp Add) t
          else if one "-" c then push (TOp Sub) t
          else if one "%" c then push (TOp Mod) t
          else if one "(" c then
            if MAXLEVEL <=? level then Raise "SyntaxError"
            else read (level + 1) TLParen t
          else if one ")" c then
            if level =? 0 then Raise "SyntaxError"
            else read (level - 1) TRParen t
          else if one "*" c then
            match t with
            | c2 :: t2 => if one "*" c2 then push (TOp Pow) t2 else push (TOp Mult) t
            | [] => push (TOp Mult) t
            end
          else if one "/" c then
            match t with
            | c2 :: t2 => if one "/" c2 then push (TOp FloorDiv) t2 else push (TOp Div) t
            | [] => push (TOp Div) t
            end
          else Raise "SyntaxError"
      end
  end.

(** Python's grammar for these tokens:
    expr: term (('+'|'-') term)*;  term: factor (('*'|'/'|'//'|'%') factor)*;
    factor: ('+'|'-') factor | power;  power: atom ['**' factor];
    atom: NUMBER | '(' expr ')'.
    The two tails carry the operand read so far. *)
Inductive nonterminal : Type :=
| NExpr
| NExprTail (lhs : expr)
| NTerm
| NTermTail (lhs : expr)
| NFactor
| NPower
| NAtom.

Fixpoint parse (fuel : nat) (n : nonterminal) (ts : list token)
  : option (expr * list token) :=
  match fuel with
  | O => None
  | S fuel' =>
      match n with
      | NExpr =>
          match parse fuel' NTerm ts with
          | Some (e, ts1) => parse fuel' (NExprTail e) ts1
          | None => None
          end
      | NExprTail lhs =>
          match ts with
          | TOp Add :: ts1 =>
              match parse fuel' NTerm ts1 with
              | Some (e, ts2) => parse fuel' (NExprTail (BinOp lhs Add e)) ts2
              | None => None
              end
          | TOp Sub :: ts1 =>
              match parse fuel' NTerm ts1 with
              | Some (e, ts2) => parse fuel' (NExprTail (BinOp lhs Sub e)) ts2
              | None => None
              end
          | _ => Some (lhs, ts)
          end
      | NTerm =>
          match parse fuel' NFactor ts with
          | Some (e, ts1) => parse fuel' (NTermTail e) ts1
          | None => None
          end
      | NTermTail lhs =>
          match ts with
          | TOp Mult :: ts1 | TOp Div :: ts1 | TOp FloorDiv :: ts1 | TOp Mod :: ts1 =>
              let op := match ts with TOp o :: _ => o | _ => Mult end in
              match parse fuel' NFactor ts1 with
              | Some (e, ts2) => parse fuel' (NTermTail (BinOp lhs op e)) ts2
              | None => None
              end
          | _ => Some (lhs, ts)
          end
      | NFactor =>
          match ts with
          | TOp Add :: ts1 =>
              match parse fuel' NFactor ts1 with
              | Some (e, ts2) => Some (UnaryOp UAdd e, ts2)
              | None => None
              end
          | TOp Sub :: ts1 =>
              match parse fuel' NFactor ts1 with
              | Some (e, ts2) => Some (UnaryOp USub e, ts2)
              | None => None
              end
          | _ => parse fuel' NPower ts
          end
      | NPower =>
          match parse fuel' NAtom ts with
          | Some (base, TOp Pow :: ts1) =>
              match parse fuel' NFactor ts1 with
              | Some (e, ts2) => Some (BinOp base Pow e, ts2)
              | None => None
              end
          | other => other
          end
      | NAtom =>
          match ts with
          | TNum v :: ts1 => Some (Constant v, ts1)
          | TLParen :: ts1 =>
              match parse fuel' NExpr ts1 with
              | Some (e, TRParen :: ts2) => Some (e, ts2)
              | _ => None
              end
          | _ => None
          end
      end
  end.

(** [ast.parse(text, mode="eval")] followed by the whitelist.  A first
    token that does not start in column zero is an unexpected indent. *)
Definition ast_parse (text : str) : outcome expr :=
  if existsb is_line_break text then OutOfModel
  else if 0 <? indentation 0 text then Raise "IndentationError"
  else
    bind (tokenize (S (length text)) 0 0 text)
         (fun ts =>
            match parse (16 * length ts + 16) NExpr ts with
            | Some (e, []) => Ret e
            | _ => Raise "SyntaxError"
            end).

Definition to_float (v : pyval) : outcome float :=
  match v with
  | VFloat x => Ret x
  | VInt z =>
      let x := float_of_Z z in
      if is_finite x then Ret x else Raise "OverflowError"
  end.

Definition float_is_zero (x : float) : bool := PrimFloat.eqb x 0.

(** A binary operation of Python on two numbers.  Powers with a float or
    a negative exponent, and [%] and [//] on floats, are not described. *)
Definition eval_binop (op : binop) (a b : pyval) : outcome pyval :=
  match a, b with
  | VInt x, VInt y =>
      match op with
      | Add => Ret (VInt (x + y))
      | Sub => Ret (VInt (x - y))
      | Mult => Ret (VInt (x * y))
      | Div =>
          if y =? 0 then Raise "ZeroDivisionError"
          else
            let q :=
              if 0 <? y then float_of_ratio x y
              else if x =? 0 then (-0)%float
              else float_of_ratio (- x) (- y) in
            if is_finite q then Ret (VFloat q) else Raise "OverflowError"
      | FloorDiv => if y =? 0 then Raise "ZeroDivisionError" else Ret (VInt (x / y))
      | Mod => if y =? 0 then Raise "ZeroDivisionError" else Ret (VInt (x mod y))
      | Pow =>
          if 0 <=? y then Ret (VInt (x ^ y))
          else if x =? 0 then Raise "ZeroDivisionError"
          else OutOfModel
      end
  | _, _ =>
      bind (to_float a) (fun x =>
      bind (to_float b) (fun y =>
        match op with
        | Add => Ret (VFloat (x + y)%float)
        | Sub => Ret (VFloat (x - y)%float)
        | Mult => Ret (VFloat (x * y)%float)
        | Div => if float_is_zero y then Raise "ZeroDivisionError"
                 else Ret (VFloat (x / y)%float)
        | FloorDiv | Mod => if float_is_zero y then Raise "ZeroDivisionError"
                            else OutOfModel
        | Pow => OutOfModel
        end))
  end.

Definition eval_unop (op : unop) (a : pyval) : pyval :=
  match op, a with
  | UAdd, _ => a
  | USub, VInt x => VInt (- x)
  | USub, VFloat x => VFloat (- x)%float
  end.

Fixpoint eval (e : expr) : outcome pyval :=
  match e with
  | Constant v => Ret v
  | BinOp l op r =>
      bind (eval l) (fun a => bind (eval r) (fun b => eval_binop op a b))
  | UnaryOp op operand => bind (eval operand) (fun a => Ret (eval_unop op a))
  end.

Definition _safe_eval (text : str) : outcome float :=
  bind (ast_parse text) (fun node => bind (eval node) to_float).

(** The pattern "[0-9\.\+\-\*\/\(\)\s%*]+". *)
Definition arithmetic_re : regex :=
  plus (Chr (fun c => is_digit c || one ".+-*/()%" c || is_space c)).

Definition PREFIXES : list str := map lit ["calculate"; "compute"; "evaluate"; "solve"]%string.

(** The [for prefix in ...] loop: the text after the first matching
    prefix, stripped of blanks and colons. *)
Fixpoint strip_prefix (prefixes : list str) (candidate : str) : str :=
  match prefixes with
  | [] => candidate
  | prefix :: prefixes' =>
      if startswith prefix (lower candidate)
      then strip_chars (lit " :") (slice_from (len prefix) candidate)
      else strip_prefix prefixes' candidate
  end.

(** [s.replace("^", "**")] *)
Definition caret_to_power (s : str) : str :=
  flat_map (fun c => if one "^" c then lit "**" else [c]) s.

(** [try: value = self._safe_eval(candidate) except Exception: return None]:
    every exception of the evaluator is caught. *)
Definition _solve_arithmetic (question : str) : outcome (option str) :=
  if negb (pipeline_utils.nonempty question) then Ret None
  else
    let candidate := caret_to_power (strip question) in
    let candidate :=
      if negb (fullmatch arithmetic_re candidate)
      then strip_prefix PREFIXES candidate else candidate in
    if negb (fullmatch arithmetic_re candidate) then Ret None
    else
      match _safe_eval candidate with
      | Raise _ => Ret None
      | OutOfModel => OutOfModel
      | Ret value =>
          bind (py_round value) (fun rounded =>
            let near :=
              PrimFloat.ltb (PrimFloat.abs (value - float_of_Z rounded)) 1e-9 in
            let value_text :=
              if near then str_of_Z rounded
              else rstrip_chars (lit ".") (rstrip_chars (lit "0") (format_6f value)) in
            Ret (Some (lit "Step-by-step:" ++ [LF]
                         ++ lit "1. Expression recognized: " ++ candidate ++ [LF]
                         ++ lit "2. Evaluate by operator precedence." ++ [LF]
                         ++ lit "3. Final value = " ++ value_text)))
      end.

(** ** The linear-equation solver *)

Definition _parse_coeff (value : str) : option float :=
  let cleaned := remove_spaces value in
  if eqb cleaned [] || eqb cleaned (lit "+") then Some 1%float
  else if eqb cleaned (lit "-") then Some (-1)%float
  else float_of_str cleaned.

(** The pattern "^\s*(A)\s*x\s*(B)?\s*=\s*(C)\s*$" under re.IGNORECASE,
    where A is "[+-]?\s*\d*\.?\d*", B is "[+-]\s*\d*\.?\d+" and C is
    "[+-]?\s*\d*\.?\d+". *)
Definition linear_re : regex :=
  let ws := star (Chr is_space) in
  let sign := Chr (one "+-") in
  let digit := Chr is_digit in
  let point := opt (Chr (one ".")) in
  seq [Bol; ws;
       Grp 1 (seq [opt sign; ws; star digit; point; star digit]);
       ws; Chr (one "xX"); ws;
       opt (Grp 2 (seq [sign; ws; star digit; point; plus digit]));
       ws; Chr (one "="); ws;
       Grp 3 (seq [opt sign; ws; star digit; point; plus digit]);
       ws; Eol].

Definition NO_SINGLE_SOLUTION : str :=
  lit "This equation has no single linear solution because coefficient of x is zero.".

Definition _solve_linear_equation (question : str) : option str :=
  if negb (pipeline_utils.nonempty question) then None
  else
    match match_groups linear_re question with
    | None => None
    | Some groups =>
        let a_raw := match group 1 groups with Some t => t | None => [] end in
        let b_raw := match group 2 groups with Some t => t | None => [] end in
        let c_raw := match group 3 groups with Some t => t | None => [] end in
        match _parse_coeff a_raw,
              float_of_str (remove_spaces (if pipeline_utils.nonempty b_raw
                                           then b_raw else lit "0")),
              float_of_str (remove_spaces c_raw) with
        | Some a, Some b, Some c =>
            if PrimFloat.ltb (PrimFloat.abs a) 1e-12 then Some NO_SINGLE_SOLUTION
            else
              let x := ((c - b) / a)%float in
              let x_text :=
                rstrip_chars (lit ".") (rstrip_chars (lit "0") (format_6f x)) in
              Some (lit "Linear equation solution:" ++ [LF]
                      ++ lit "1. Standard form: " ++ repr a ++ lit "x + (" ++ repr b
                      ++ lit ") = " ++ repr c ++ [LF]
                      ++ lit "2. Rearranged: " ++ repr a ++ lit "x = "
                      ++ repr (c - b)%float ++ [LF]
                      ++ lit "3. x = " ++ x_text)
        | _, _, _ => None
        end
    end.

(** ** solver_chat *)

Definition FRAMEWORK : str :=
  lit "Offline solver framework:" ++ [LF]
    ++ lit "1. Identify known values and unknowns." ++ [LF]
    ++ lit "2. Select formula/algorithm." ++ [LF]
    ++ lit "3. Substitute and simplify carefully." ++ [LF]
    ++ lit "4. Verify result with units and logic." ++ [LF; LF]
    ++ lit "Send the exact equation, code snippet, or full problem text for a precise solution.".

(** [history], [image_bytes] and [image_mime_type] are deleted on entry;
    [image_data_url] is only tested for being given and not empty. *)
Definition solver_chat (message : str) (image_data_url : option str) : outcome str :=
  let has_image :=
    match image_data_url with Some url => pipeline_utils.nonempty url | None => false end in
  let question := normalize_ws message in
  if negb (pipeline_utils.nonempty question) && has_image then
    Ret (lit "Offline mode cannot read image content directly. "
           ++ lit "Please type the exact problem statement, and I will solve it step-by-step.")
  else
    let prefix :=
      if has_image
      then lit "I cannot parse the uploaded image offline, so I will solve from your typed text."
             ++ [LF; LF]
      else [] in
    bind (_solve_arithmetic question) (fun arithmetic =>
      match arithmetic with
      | Some text => Ret (prefix ++ text)
      | None =>
          match _solve_linear_equation question with
          | Some text => Ret (prefix ++ text)
          | None => Ret (prefix ++ FRAMEWORK)
          end
      end).

(** ** chat *)

Definition PLEASE_ASK : str :=
  lit "Please ask a specific question about the current lecture summary.".

Definition NO_MATCH : str :=
  lit "Offline mode is active. I could not find a strong match in current notes. "
    ++ lit "Ask with terms from key definitions or core concepts.".

Definition GROUNDED : str := lit "Answer grounded in current lecture notes:".
Definition SUPPORTING : str := lit "Supporting lecture context:".
Definition IF_NEEDED : str := lit "If needed, ask for a short 5-mark exam answer format.".

Definition knowledge_pool (summary : StructuredSummary) : list str :=
  core_concepts summary ++ key_definitions summary ++ important_examples summary
    ++ exam_revision_points summary.

(** [len(question_tokens & point_tokens)]; [question_tokens] is a set,
    held as a list without repetition. *)
Definition point_score (question_tokens : list str) (point : str) : Z :=
  let point_tokens := pipeline_utils.content_tokens point in
  len (List.filter (fun token => mem token point_tokens) question_tokens).

(** The [for point in knowledge_pool] loop. *)
Definition ranked_points (question_tokens : list str) (pool : list str)
  : list (Z * str) :=
  flat_map
    (fun point =>
       let score := point_score question_tokens point in
       if score >? 0 then [(score, point)] else [])
    pool.

Definition best_points (question : str) (pool : list str) : list str :=
  let question_tokens :=
    pipeline_utils.distinct [] (pipeline_utils.content_tokens question) in
  map snd
      (firstn 3 (pipeline_utils.sort_desc fst Z.geb (ranked_points question_tokens pool))).

Definition selected_contexts (question : str) (context_chunks : option (list str))
  : list str :=
  let contexts := match context_chunks with Some l => l | None => [] end in
  if pipeline_utils.nonempty contexts
  then pipeline_utils.select_top_chunks_for_query question contexts 3
  else [].

(** [history] is deleted on entry. *)
Definition chat (message : str) (summary : StructuredSummary)
  (context_chunks : option (list str)) : str :=
  let question := strip message in
  if negb (pipeline_utils.nonempty question) then PLEASE_ASK
  else
    let selected := selected_contexts question context_chunks in
    let best := best_points question (knowledge_pool summary) in
    if negb (pipeline_utils.nonempty best) && negb (pipeline_utils.nonempty selected)
    then NO_MATCH
    else
      let lines :=
        [GROUNDED]
          ++ map (fun point => lit "- " ++ _shorten point 170) best
          ++ (if pipeline_utils.nonempty selected
              then SUPPORTING
                     :: map (fun chunk => lit "- " ++ _shorten chunk 190)
                            (firstn 2 selected)
              else [])
          ++ [IF_NEEDED] in
      join [LF] lines.

End local_ai_service.

(* ===================================================================== *)
(** * app/api/routes.py: the fallback chain *)
(* ===================================================================== *)

Module routes.
Import py.

(** What a callable can raise: [fastapi.HTTPException] with its status
    code and detail, or another instance of [Exception]. *)
Inductive exn : Type :=
| HTTPException (status_code : Z) (detail : str)
| OtherException (message : str).

Inductive result (A : Type) : Type :=
| Returned (a : A)
| Raised (e : exn).
Arguments Returned {A} a.
Arguments Raised {A} e.

(** The three callables handed to the chain, in the order of the
    parameters [gemini_call], [ollama_call], [local_call]. *)
Inductive tier : Type := Gemini | Ollama | Local.

Definition tier_eqb (a b : tier) : bool :=
  match a, b with
  | Gemini, Gemini | Ollama, Ollama | Local, Local => true
  | _, _ => false
  end.

Definition _is_recoverable_http_error (status_code : Z) : bool :=
  existsb (Z.eqb status_code) [401; 403; 429; 500; 502; 503; 504].

Section Chain.
(** A callable acts on the state of the world [W] it closes over and
    returns or raises.  The chain answers with the result, the world
    after it and the calls it made, oldest first. *)
Variables (W A : Type).
Definition callable : Type := W -> result A * W.

Definition _run_with_fallback_chain (gemini_call ollama_call local_call : callable)
  (w : W) : result A * W * list tier :=
  let after_gemini (w1 : W) : result A * W * list tier :=
    match ollama_call w1 with
    | (Returned a, w2) => (Returned a, w2, [Gemini; Ollama])
    | (Raised _, w2) =>
        let '(r, w3) := local_call w2 in (r, w3, [Gemini; Ollama; Local])
    end in
  match gemini_call w with
  | (Returned a, w1) => (Returned a, w1, [Gemini])
  | (Raised (HTTPException status_code detail), w1) =>
      if _is_recoverable_http_error status_code then after_gemini w1
      else (Raised (HTTPException status_code detail), w1, [Gemini])
  | (Raised (OtherException _), w1) => after_gemini w1
  end.

Definition calls_of (t : tier) (calls : list tier) : nat :=
  length (List.filter (tier_eqb t) calls).
End Chain.

(** [_map_service_error], on the message [str(exc)] of the exception. *)
Definition _map_service_error (message : str) : exn :=
  let lowered := lower message in
  if contains (lit "quota") lowered || contains (lit "429") message
  then HTTPException 429 message
  else if contains (lit "invalid image") lowered
          || contains (lit "unable to process input image") lowered
  then HTTPException 400 message
  else if contains (lit "unauthorized") lowered || contains (lit "forbidden") lowered
          || contains (lit "401") message || contains (lit "403") message
  then HTTPException 401 message
  else HTTPException 502 message.

Section Handler.
Variables (W A : Type).

(** What the handlers summarize, chat, solver_chat and generate_mcq put
    around the chain: an HTTP error is raised again as it is, any other
    exception is raised as the HTTP error [_map_service_error] makes of
    it. *)
Definition guarded_chain (gemini_call ollama_call local_call : callable W A) (w : W)
  : result A * W * list tier :=
  match _run_with_fallback_chain gemini_call ollama_call local_call w with
  | (Raised (OtherException message), w1, calls) =>
      (Raised (_map_service_error message), w1, calls)
  | other => other
  end.
End Handler.

(** [s.split(" ", 1)]: the text before the first space and the text
    after it; [None] when [s] has no space, so that the list has one
    element. *)
Fixpoint split_once (s : str) : option (str * str) :=
  match s with
  | [] => None
  | c :: t =>
      if is_char SP c then Some ([], t)
      else match split_once t with
           | Some (head, tail) => Some (c :: head, tail)
           | None => None
           end
  end.

Definition MISSING_HEADER : exn :=
  HTTPException 401 (lit "Missing authorization header.").
Definition INVALID_HEADER : exn :=
  HTTPException 401 (lit "Invalid authorization header format.").

Definition _extract_bearer_token (authorization : option str) : result str :=
  match authorization with
  | None | Some [] => Raised MISSING_HEADER
  | Some header =>
      match split_once header with
      | Some (scheme, credentials) =>
          if negb (eqb (lower scheme) (lit "bearer"))
             || negb (pipeline_utils.nonempty (strip credentials))
          then Raised INVALID_HEADER
          else Returned (strip credentials)
      | None => Raised INVALID_HEADER
      end
  end.

End routes.

(* ===================================================================== *)
(** * app/core/session.py *)
(* ===================================================================== *)

Module session.
Import stdpp.base stdpp.gmap stdpp.strings.
Import py schemas.

(** A point in time and a duration are counted in microseconds, the
    resolution of [datetime] and [timedelta]. *)
Record session_data : Type := mkSession {
  created_at : Z;
  updated_at : Z;
  transcript : str;
  summary : option StructuredSummary;
  retrieval_chunks : list str;
  mcqs : list MCQItem;
  chat_history : list (str * str)
}.

Record SessionStore : Type := mkStore {
  _ttl : Z;
  _sessions : gmap (list ascii) session_data
}.

Definition new_store (ttl_minutes : Z) : SessionStore :=
  mkStore (ttl_minutes * 60 * 1000000) ∅.

Definition touch (data : session_data) (now : Z) : session_data :=
  mkSession (created_at data) now (transcript data) (summary data)
            (retrieval_chunks data) (mcqs data) (chat_history data).

(** [now] is the clock read at the top of the method. *)
Definition _cleanup_expired_locked (self : SessionStore) (now : Z) : SessionStore :=
  mkStore (_ttl self)
    (filter (fun entry : list ascii * session_data =>
               ¬ (now - updated_at entry.2 > _ttl self)%Z)
            (_sessions self)).

(** [ensure] with a session identifier given.  The clock is read by the
    clean-up ([now]); a new record reads it twice more, first for
    ["created_at"] ([created]) and then for ["updated_at"] ([now']); a
    record that exists reads it once, for ["updated_at"] ([now']). *)
Definition ensure (self : SessionStore) (sid : str) (now created now' : Z)
  : str * SessionStore :=
  let self := _cleanup_expired_locked self now in
  match _sessions self !! sid with
  | None =>
      (sid, mkStore (_ttl self)
                    (<[sid := mkSession created now' [] None [] [] []]> (_sessions self)))
  | Some data =>
      (sid, mkStore (_ttl self) (<[sid := touch data now']> (_sessions self)))
  end.

(** [get]: the clock is read by the clean-up ([now]) and again when the
    record found is stamped ([now']). *)
Definition get (self : SessionStore) (session_id : str) (now now' : Z)
  : option session_data * SessionStore :=
  let self := _cleanup_expired_locked self now in
  match _sessions self !! session_id with
  | None => (None, self)
  | Some data =>
      let data := touch data now' in
      (Some data, mkStore (_ttl self) (<[session_id := data]> (_sessions self)))
  end.

(** [session_id or str(uuid4())]: an identifier that is missing or empty
    gives way to [fresh], the one [uuid4] draws. *)
Definition sid_or_new (session_id : option str) (fresh : str) : str :=
  match session_id with
  | Some (c :: s) => c :: s
  | _ => fresh
  end.

(** [ensure] for any argument, as the routes and the setters call it. *)
Definition ensure_or_new (self : SessionStore) (session_id : option str) (fresh : str)
  (now created now' : Z) : str * SessionStore :=
  ensure self (sid_or_new session_id fresh) now created now'.

(** The body the setters share: [sid = self.ensure(session_id)], then a
    field of [self._sessions[sid]] is assigned and the record stamped
    with one more reading of the clock ([now'']), after those of
    [ensure].  [None] is the [KeyError] of a record that is missing. *)
Definition assign (self : SessionStore) (session_id fresh : str)
  (now created now' now'' : Z)
  (f : session_data -> session_data) : option SessionStore :=
  let '(sid, self) := ensure_or_new self (Some session_id) fresh now created now' in
  match _sessions self !! sid with
  | Some data =>
      Some (mkStore (_ttl self) (<[sid := touch (f data) now'']> (_sessions self)))
  | None => None
  end.

Definition set_transcript (self : SessionStore) (session_id fresh : str)
  (now created now' now'' : Z) (value : str) : option SessionStore :=
  assign self session_id fresh now created now' now''
    (fun data => mkSession (created_at data) (updated_at data) value (summary data)
                           (retrieval_chunks data) (mcqs data) (chat_history data)).

Definition set_summary (self : SessionStore) (session_id fresh : str)
  (now created now' now'' : Z) (value : StructuredSummary) : option SessionStore :=
  assign self session_id fresh now created now' now''
    (fun data => mkSession (created_at data) (updated_at data) (transcript data)
                           (Some value) (retrieval_chunks data) (mcqs data)
                           (chat_history data)).

Definition set_retrieval_chunks (self : SessionStore) (session_id fresh : str)
  (now created now' now'' : Z) (chunks : list str) : option SessionStore :=
  assign self session_id fresh now created now' now''
    (fun data => mkSession (created_at data) (updated_at data) (transcript data)
                           (summary data) chunks (mcqs data) (chat_history data)).

Definition set_mcqs (self : SessionStore) (session_id fresh : str)
  (now created now' now'' : Z) (value : list MCQItem) : option SessionStore :=
  assign self session_id fresh now created now' now''
    (fun data => mkSession (created_at data) (updated_at data) (transcript data)
                           (summary data) (retrieval_chunks data) value
                           (chat_history data)).

Definition append_chat (self : SessionStore) (session_id fresh : str)
  (now created now' now'' : Z) (role content : str) : option SessionStore :=
  assign self session_id fresh now created now' now''
    (fun data => mkSession (created_at data) (updated_at data) (transcript data)
                           (summary data) (retrieval_chunks data) (mcqs data)
                           (chat_history data ++ [(role, content)])).

Definition get_summary (self : SessionStore) (session_id : str) (now now' : Z)
  : option StructuredSummary * SessionStore :=
  let '(session, self) := get self session_id now now' in
  (match session with Some data => summary data | None => None end, self).

Definition get_retrieval_chunks (self : SessionStore) (session_id : str) (now now' : Z)
  : list str * SessionStore :=
  let '(session, self) := get self session_id now now' in
  (match session with Some data => retrieval_chunks data | None => [] end, self).

Definition get_mcqs (self : SessionStore) (session_id : str) (now now' : Z)
  : list MCQItem * SessionStore :=
  let '(session, self) := get self session_id now now' in
  (match session with Some data => mcqs data | None => [] end, self).

End session.

(* ===================================================================== *)
(** * app/services/llm_utils.py, gemini_service.py, ollama_service.py *)
(* ===================================================================== *)

Module adapters.
Import py re schemas.

(** A value decoded by [json.loads]. *)
Inductive json : Type :=
| JNull
| JBool (b : bool)
| JInt (z : Z)
| JFloat (x : float)
| JStr (s : str)
| JList (l : list json)
| JDict (d : list (str * json)).

(** [isinstance(v, dict)] *)
Definition is_dict (v : json) : bool :=
  match v with JDict _ => true | _ => false end.

(** The truth value Python gives a decoded value. *)
Definition truthy (v : json) : bool :=
  match v with
  | JNull => false
  | JBool b => b
  | JInt z => negb (z =? 0)
  | JFloat x => negb (PrimFloat.eqb x 0)
  | JStr s => pipeline_utils.nonempty s
  | JList l => pipeline_utils.nonempty l
  | JDict d => pipeline_utils.nonempty d
  end.

(** [data.get(key)] on a decoded object. *)
Fixpoint dict_get (d : list (str * json)) (key : str) : option json :=
  match d with
  | [] => None
  | (k, v) :: d' => if eqb k key then Some v else dict_get d' key
  end.

(** What happens when an adapter method runs: it returns, it raises, or
    (through the validator's unbounded loop) it does not come back. *)
Inductive res (A : Type) : Type :=
| Ok (a : A)
| Exc (e : string)
| Diverges.
Arguments Ok {A} a.
Arguments Exc {A} e.
Arguments Diverges {A}.

Section Backend.
(** The parts that lie outside the repository: the model behind the
    adapter, which answers a prompt at a temperature with a text or fails
    and may change its state [W] doing so; [json.loads] ([None]: a
    decoding error); [str] on a decoded value.  The prompt builders of
    app/core/prompts.py only format text; they are parameters too. *)
Variable W : Type.
Variable backend : str -> float -> W -> option str * W.
Variable json_loads : str -> option json.
Variable py_str : json -> str.
Variable build_summary_prompt : str -> str.
Variable build_summary_chunk_prompt : str -> Z -> Z -> str.
Variable build_summary_reduce_prompt : list json -> str.
Variable build_summary_synthesis_prompt : json -> str -> str.
Variable build_summary_validation_prompt : json -> json -> str.

(** ** llm_utils *)

(** The pattern "```(?:json)?\s*(\{.*?\}|\[.*?\])\s*```" under re.DOTALL. *)
Definition fenced_re : regex :=
  seq [text "```"; opt (text "json"); star (Chr is_space);
       Grp 1 (Alt (seq [Chr (one "{"); Lazy any; Chr (one "}")])
                  (seq [Chr (one "["); Lazy any; Chr (one "]")]));
       star (Chr is_space); text "```"].

(** The patterns "(\{.*\})" and "(\[.*\])" under re.DOTALL. *)
Definition object_re : regex := Grp 1 (seq [Chr (one "{"); star any; Chr (one "}")]).
Definition array_re : regex := Grp 1 (seq [Chr (one "["); star any; Chr (one "]")]).

Definition group1 (groups : list (nat * str)) : str :=
  match group 1 groups with Some t => t | None => [] end.

(** [None]: the decoding error is raised. *)
Definition extract_json_payload (response : str) : option json :=
  let candidate :=
    match search fenced_re response with
    | Some groups => group1 groups
    | None => response
    end in
  match json_loads candidate with
  | Some v => Some v
  | None =>
      let payload :=
        match search object_re candidate with
        | Some groups => group1 groups
        | None =>
            match search array_re candidate with
            | Some groups => group1 groups
            | None => []
            end
        end in
      if pipeline_utils.nonempty payload then json_loads payload else None
  end.

Definition clean_points (value : json) : list str :=
  match value with
  | JList items =>
      List.filter pipeline_utils.nonempty (map (fun item => strip (py_str item)) items)
  | JStr s =>
      map (strip_chars (lit " -"))
          (List.filter (fun chunk => pipeline_utils.nonempty (strip chunk))
                       (split_char LF [] s))
  | _ => []
  end.

(** [a or b] on the results of [data.get]. *)
Definition or_else (a : option json) (b : json) : json :=
  match a with
  | Some v => if truthy v then v else b
  | None => b
  end.

Definition get_or_empty (d : list (str * json)) (key : string) : json :=
  match dict_get d (lit key) with Some v => v | None => JList [] end.

Definition normalize_summary (d : list (str * json)) : StructuredSummary :=
  let overview :=
    or_else (dict_get d (lit "overview_paragraphs"))
      (or_else (dict_get d (lit "three_paragraph_summary"))
         (or_else (dict_get d (lit "summary_paragraphs"))
            (or_else (dict_get d (lit "lecture_overview")) (JList [])))) in
  mkSummary (firstn 3 (clean_points overview))
            (clean_points (get_or_empty d "key_definitions"))
            (clean_points (get_or_empty d "core_concepts"))
            (clean_points (get_or_empty d "important_examples"))
            (clean_points (get_or_empty d "exam_revision_points")).

(** ** The calls to the model *)

(** A request sent to the model: the prompt and the temperature. *)
Definition request : Type := (str * float)%type.

(** A method runs on the state of the model and the requests sent so
    far, oldest first. *)
Definition M (A : Type) : Type := W * list request -> res A * (W * list request).

Definition ret {A} (a : A) : M A := fun st => (Ok a, st).
Definition raise {A} (e : string) : M A := fun st => (Exc e, st).

Definition bindM {A B} (m : M A) (f : A -> M B) : M B :=
  fun st =>
    match m st with
    | (Ok a, st1) => f a st1
    | (Exc e, st1) => (Exc e, st1)
    | (Diverges, st1) => (Diverges, st1)
    end.

(** [try: m except Exception: handler] *)
Definition catch {A} (m : M A) (handler : M A) : M A :=
  fun st =>
    match m st with
    | (Exc _, st1) => handler st1
    | other => other
    end.

(** The adapter that sends a request; the Ollama adapter carries its
    switch [enabled]. *)
Inductive adapter : Type :=
| Gemini
| Ollama (enabled : bool).

(** [_generate] of either adapter: with the Ollama switch off nothing is
    sent; otherwise the request is sent, and a failed request or an empty
    answer raises [RuntimeError].  Gemini tests the answer for being
    empty before stripping it, Ollama after. *)
Definition _generate (who : adapter) (prompt : str) (temperature : float) : M str :=
  fun st =>
    match who with
    | Ollama false => (Exc "RuntimeError", st)
    | _ =>
        let '(w, sent) := st in
        let '(answer, w1) := backend prompt temperature w in
        let st1 := (w1, sent ++ [(prompt, temperature)]) in
        match answer with
        | Some response =>
            let given :=
              match who with
              | Gemini => pipeline_utils.nonempty response
              | Ollama _ => pipeline_utils.nonempty (strip response)
              end in
            if given then (Ok (strip response), st1) else (Exc "RuntimeError", st1)
        | None => (Exc "RuntimeError", st1)
        end
    end.

Definition float_max (a b : float) : float := if PrimFloat.ltb a b then b else a.

Definition JSON_ONLY : str := [LF; LF] ++ lit "Return JSON only. No markdown.".

Definition _generate_json (who : adapter) (prompt : str) (temperature : float) : M json :=
  bindM (_generate who prompt temperature) (fun response_text =>
    match extract_json_payload response_text with
    | Some v => ret v
    | None =>
        bindM (_generate who (prompt ++ JSON_ONLY)
                         (float_max 0.1 (temperature - 0.1)))
              (fun retry_text =>
                 match extract_json_payload retry_text with
                 | Some v => ret v
                 | None => raise "JSONDecodeError"
                 end)
    end).

(** The loop [for index, chunk in enumerate(chunks, start=1)] of both
    adapters: a note is kept when the decoded answer is an object. *)
Fixpoint chunk_pass (who : adapter) (chunks : list str) (index total_chunks : Z)
  (chunk_notes : list json) : M (list json) :=
  match chunks with
  | [] => ret chunk_notes
  | chunk :: chunks' =>
      bindM (_generate_json who
               (build_summary_chunk_prompt chunk index total_chunks) 0.2)
            (fun chunk_data =>
               chunk_pass who chunks' (index + 1) total_chunks
                 (if is_dict chunk_data then chunk_notes ++ [chunk_data] else chunk_notes))
  end.

Definition dict_or (v fallback : json) : json := if is_dict v then v else fallback.

(** The single-shot call on the whole cleaned transcript. *)
Definition single_shot (who : adapter) (cleaned : str) : M json :=
  _generate_json who (build_summary_prompt cleaned) 0.2.

Definition EMPTY_NOTES : json :=
  JDict [(lit "key_definitions", JList []); (lit "core_concepts", JList []);
         (lit "important_examples", JList []); (lit "exam_revision_points", JList []);
         (lit "fact_bank", JList [])].

(** ** GeminiService *)

Definition GeminiService__multi_pass_summary (transcript : str) : M json :=
  let cleaned := pipeline_utils.clean_transcript_text transcript 120000 in
  let chunks := pipeline_utils.split_into_chunks cleaned 2500 240 10 in
  if negb (pipeline_utils.nonempty chunks) then
    bindM (single_shot Gemini cleaned) (fun data => ret (dict_or data (JDict [])))
  else
    bindM (chunk_pass Gemini chunks 1 (len chunks) []) (fun chunk_notes =>
      if negb (pipeline_utils.nonempty chunk_notes) then
        bindM (single_shot Gemini cleaned) (fun fallback => ret (dict_or fallback (JDict [])))
      else
        bindM (_generate_json Gemini (build_summary_reduce_prompt chunk_notes) 0.2)
          (fun reduced_data =>
             let reduced := dict_or reduced_data EMPTY_NOTES in
             bindM (_generate_json Gemini
                      (build_summary_synthesis_prompt reduced cleaned) 0.2)
               (fun synthesis =>
                  let candidate := dict_or synthesis reduced in
                  bindM (_generate_json Gemini
                           (build_summary_validation_prompt candidate reduced) 0.1)
                    (fun validation => ret (dict_or validation candidate))))).

(** The validator run on what the model produced; [fuel] bounds the
    rounds of its last loop. *)
Definition validated (fuel : nat) (data : json) (cleaned : str) : M StructuredSummary :=
  match data with
  | JDict d =>
      match pipeline_utils.validate_structured_summary fuel (normalize_summary d) cleaned with
      | Some summary => ret summary
      | None => fun st => (Diverges, st)
      end
  | _ => raise "RuntimeError"
  end.

Definition GeminiService_summarize (fuel : nat) (transcript : str) : M StructuredSummary :=
  let cleaned := pipeline_utils.clean_transcript_text transcript 120000 in
  bindM (catch (GeminiService__multi_pass_summary cleaned)
               (bindM (single_shot Gemini cleaned)
                      (fun fallback_data => ret (dict_or fallback_data (JDict [])))))
        (fun data =>
           bindM (validated fuel data cleaned) (fun summary =>
             if pipeline_utils.nonempty (overview_paragraphs summary)
                || pipeline_utils.nonempty (key_definitions summary)
                || pipeline_utils.nonempty (core_concepts summary)
                || pipeline_utils.nonempty (important_examples summary)
                || pipeline_utils.nonempty (exam_revision_points summary)
             then ret summary
             else raise "RuntimeError")).

(** ** OllamaService *)

(** The requests of [OllamaService.summarize] up to [final_data]. *)
Definition OllamaService_summarize_data (enabled : bool) (cleaned : str) (chunks : list str)
  : M json :=
  bindM (chunk_pass (Ollama enabled) chunks 1 (len chunks) []) (fun chunk_notes =>
    bindM (_generate_json (Ollama enabled) (build_summary_reduce_prompt chunk_notes) 0.2)
      (fun reduced_data =>
         let reduced := dict_or reduced_data (JDict []) in
         bindM (_generate_json (Ollama enabled)
                  (build_summary_synthesis_prompt reduced cleaned) 0.2)
           (fun candidate_data =>
              let candidate := dict_or candidate_data reduced in
              bindM (_generate_json (Ollama enabled)
                       (build_summary_validation_prompt candidate reduced) 0.1)
                (fun validated_data => ret (dict_or validated_data candidate))))).

Definition OllamaService_summarize (enabled : bool) (fuel : nat) (transcript : str)
  : M StructuredSummary :=
  let cleaned := pipeline_utils.clean_transcript_text transcript 120000 in
  let chunks := pipeline_utils.split_into_chunks cleaned 2400 200 8 in
  if negb (pipeline_utils.nonempty chunks) then
    bindM (single_shot (Ollama enabled) cleaned) (fun data => validated fuel data cleaned)
  else
    bindM (OllamaService_summarize_data enabled cleaned chunks)
          (fun final_data => validated fuel final_data cleaned).

(** ** normalize_mcq_item (llm_utils) and generate_mcqs *)

(** The interpreter's bound on the digits [int] converts from a string
    ([sys.get_int_max_str_digits()], 4300 unless configured; 0 is no
    bound), and the prompt builder of app/core/prompts.py. *)
Variable int_max_str_digits : Z.
Variable build_mcq_prompt : StructuredSummary -> list str -> str.

(** [str(v)]: a string is its own text. *)
Definition str_of (v : json) : str :=
  match v with
  | JStr s => s
  | _ => py_str v
  end.

(** [for opt in v]: the elements of a list, the characters of a string,
    the keys of an object; [None] is the [TypeError] of any other value. *)
Definition iterate (v : json) : option (list json) :=
  match v with
  | JList l => Some l
  | JStr s => Some (map (fun c => JStr [c]) s)
  | JDict d => Some (map (fun entry => JStr (fst entry)) d)
  | _ => None
  end.

(** [str.upper] on one character, as code points: the sharp s becomes
    two letters, the micro sign and the y with diaeresis leave Latin-1. *)
Definition upper_char (c : ascii) : list N :=
  let n := code c in
  if is_lower_az c then [(n - 32)%N]
  else if N.eqb n 181 then [924%N]
  else if N.eqb n 223 then [83%N; 83%N]
  else if N.eqb n 255 then [376%N]
  else if in_range 224 254 c && negb (N.eqb n 247) then [(n - 32)%N]
  else [n].

Definition upper (s : str) : list N := flat_map upper_char s.

(** [str.isdigit]: the decimal digits and the superscripts one, two and
    three, on a text that is not empty. *)
Definition is_digit_code (n : N) : bool :=
  (N.leb 48 n && N.leb n 57) || N.eqb n 178 || N.eqb n 179 || N.eqb n 185.

Definition isdigit (codes : list N) : bool :=
  pipeline_utils.nonempty codes && forallb is_digit_code codes.

(** [int(text)] on a text that passed [isdigit]: a superscript is
    refused, and so are more digits than the interpreter converts. *)
Definition int_of_digits (codes : list N) : res Z :=
  if negb (forallb (fun n => N.leb 48 n && N.leb n 57) codes) then Exc "ValueError"
  else if (0 <? int_max_str_digits) && (int_max_str_digits <? len codes)
  then Exc "ValueError"
  else Ok (fold_left (fun acc n => 10 * acc + (Z.of_N n - 48)) codes 0).

(** [int(x)] on a float: towards zero. *)
Definition int_of_float (x : float) : res Z :=
  match Prim2SF x with
  | S754_zero _ => Ok 0
  | S754_finite s m e =>
      let a := if 0 <=? e then Z.pos m * 2 ^ e else Z.pos m / 2 ^ (- e) in
      Ok (if s then - a else a)
  | S754_infinity _ => Exc "OverflowError"
  | S754_nan => Exc "ValueError"
  end.

(** The value of [int(raw_correct)] after the branch on strings. *)
Definition correct_of (raw_correct : json) : res Z :=
  match raw_correct with
  | JStr s =>
      let raw := upper (strip s) in
      match raw with
      | [65%N] => Ok 0
      | [66%N] => Ok 1
      | [67%N] => Ok 2
      | [68%N] => Ok 3
      | _ => if isdigit raw then int_of_digits raw else Ok 0
      end
  | JInt z => Ok z
  | JBool b => Ok (if b then 1 else 0)
  | JFloat x => int_of_float x
  | JNull | JList _ | JDict _ => Exc "TypeError"
  end.

Definition FALLBACK_POOL : list str :=
  map lit ["Insufficient option generated"; "None of the above";
           "Cannot be inferred"; "Requires more context"]%string.

(** The [while len(options) < 4] loop; each round adds one option. *)
Fixpoint pad_options (fuel : nat) (options : list str) : list str :=
  match fuel with
  | O => options
  | S fuel' =>
      if len options <? 4
      then pad_options fuel' (options ++ [nth (length options) FALLBACK_POOL []])
      else options
  end.

(** [str(item.get(key, "")).strip() or default] *)
Definition text_or (item : list (str * json)) (key default : string) : str :=
  let value :=
    strip (str_of (match dict_get item (lit key) with Some v => v | None => JStr [] end)) in
  if pipeline_utils.nonempty value then value else lit default.

Definition normalize_mcq_item (item : list (str * json)) : res MCQItem :=
  match iterate (match dict_get item (lit "options") with
                 | Some v => v
                 | None => JList []
                 end) with
  | None => Exc "TypeError"
  | Some given =>
      let options :=
        List.filter pipeline_utils.nonempty (map (fun opt => strip (str_of opt)) given) in
      let options := pad_options 4 (slice_to 4 options) in
      match correct_of (match dict_get item (lit "correct_index") with
                        | Some v => v
                        | None => JInt 0
                        end) with
      | Ok raw_correct =>
          let correct_index := Z.max 0 (Z.min raw_correct 3) in
          match local_ai_service.MCQItem_new
                  (text_or item "question" "Question unavailable")
                  options correct_index
                  (text_or item "explanation" "No explanation provided.") with
          | Some mcq => Ok mcq
          | None => Exc "ValidationError"
          end
      | Exc e => Exc e
      | Diverges => Diverges
      end
  end.

(** [[normalize_mcq_item(item) for item in mcq_items if isinstance(item, dict)]] *)
Fixpoint normalize_items (mcq_items : list json) : res (list MCQItem) :=
  match mcq_items with
  | [] => Ok []
  | JDict item :: mcq_items' =>
      match normalize_mcq_item item with
      | Ok mcq =>
          match normalize_items mcq_items' with
          | Ok normalized => Ok (mcq :: normalized)
          | other => other
          end
      | Exc e => Exc e
      | Diverges => Diverges
      end
  | _ :: mcq_items' => normalize_items mcq_items'
  end.

Definition MCQ_JSON_ONLY : str := [LF; LF] ++ lit "Return JSON only.".

(** [generate_mcqs] of either adapter. *)
Definition generate_mcqs (who : adapter) (summary : StructuredSummary)
  (context_chunks : option (list str)) : M (list MCQItem) :=
  let prompt :=
    build_mcq_prompt summary (match context_chunks with Some l => l | None => [] end) in
  bindM (_generate who prompt 0.3) (fun response_text =>
    bindM (match extract_json_payload response_text with
           | Some data => ret data
           | None =>
               bindM (_generate who (prompt ++ MCQ_JSON_ONLY) 0.1) (fun retry_text =>
                 match extract_json_payload retry_text with
                 | Some data => ret data
                 | None => raise "JSONDecodeError"
                 end)
           end)
      (fun data =>
         let mcq_items :=
           match data with
           | JDict d => Some (match dict_get d (lit "mcqs") with
                              | Some v => v
                              | None => JList []
                              end)
           | JList l => Some (JList l)
           | _ => None
           end in
         match mcq_items with
         | Some (JList (first :: others)) =>
             match normalize_items (first :: others) with
             | Ok normalized =>
                 if len normalized <? 5 then raise "RuntimeError"
                 else ret (firstn 5 normalized)
             | Exc e => raise e
             | Diverges => fun st => (Diverges, st)
             end
         | _ => raise "RuntimeError"
         end)).

End Backend.

End adapters.

Unset Implicit Arguments.

(* ===================================================================== *)
(** * The fallback chain (routes.py) *)
(* ===================================================================== *)

Section FallbackChain.
Import py routes.
Variables (W A : Type).

(** The status codes the chain treats as a backend that is unavailable. *)
Definition RECOVERABLE : list Z := [401; 403; 429; 500; 502; 503; 504].

Lemma recoverable_iff (status_code : Z) :
  _is_recoverable_http_error status_code = true <-> In status_code RECOVERABLE.
Proof.
  unfold _is_recoverable_http_error, RECOVERABLE.
  rewrite existsb_exists. split.
  - intros [x [Hin Heq]]. apply Z.eqb_eq in Heq. now subst.
  - intros Hin. exists status_code. split; [assumption | apply Z.eqb_refl].
Qed.

(** What the primary raised sends the chain on to the next callable. *)
Definition falls_through (e : exn) : Prop :=
  match e with
  | HTTPException status_code _ => In status_code RECOVERABLE
  | OtherException _ => True
  end.

(** C2. When the primary raises a recoverable HTTP error (status 401, 403,
    429, 500, 502, 503 or 504) or an exception that is not an HTTP error,
    and the secondary then raises any exception, the result of the chain
    is the result of the tertiary callable, run on the state the two
    failures left, and the tertiary is called exactly once.  When the
    primary raises an HTTP error with any other status (400, say), that
    error is the result and neither the secondary nor the tertiary is
    called. *)
Theorem fallback_chain_tiers
  (gemini_call ollama_call local_call : callable W A) (w w1 : W) (e : exn)
  (Hprimary : gemini_call w = (Raised e, w1)) :
  (falls_through e ->
   forall (e2 : exn) (w2 : W),
     ollama_call w1 = (Raised e2, w2) ->
     _run_with_fallback_chain gemini_call ollama_call local_call w
       = (fst (local_call w2), snd (local_call w2), [Gemini; Ollama; Local])
     /\ calls_of Local [Gemini; Ollama; Local] = 1%nat)
  /\
  (forall (status_code : Z) (detail : str),
     e = HTTPException status_code detail ->
     ~ In status_code RECOVERABLE ->
     _run_with_fallback_chain gemini_call ollama_call local_call w
       = (Raised e, w1, [Gemini])
     /\ calls_of Ollama [Gemini] = 0%nat /\ calls_of Local [Gemini] = 0%nat).
Proof.
  split.
  - intros Hrec e2 w2 Hsecondary.
    split; [| reflexivity].
    unfold _run_with_fallback_chain. rewrite Hprimary.
    destruct e as [status_code detail | message].
    + apply recoverable_iff in Hrec. rewrite Hrec, Hsecondary.
      now destruct (local_call w2).
    + rewrite Hsecondary. now destruct (local_call w2).
  - intros status_code detail -> Hnot.
    split; [| split; reflexivity].
    unfold _run_with_fallback_chain. rewrite Hprimary.
    destruct (_is_recoverable_http_error status_code) eqn:Hrec; [| reflexivity].
    apply recoverable_iff in Hrec. contradiction.
Qed.

End FallbackChain.

(** Three callables over a counter of calls: the cloud model answers
    503, the local model fails, the offline model returns 7. *)
Definition demo_gemini_call : routes.callable nat Z :=
  fun n => (routes.Raised (routes.HTTPException 503 (py.lit "quota")), S n).
Definition demo_ollama_call : routes.callable nat Z :=
  fun n => (routes.Raised (routes.OtherException (py.lit "refused")), S n).
Definition demo_local_call : routes.callable nat Z :=
  fun n => (routes.Returned 7, S n).

(** A primary that answers 400. *)
Definition demo_bad_request : routes.callable nat Z :=
  fun n => (routes.Raised (routes.HTTPException 400 (py.lit "bad request")), S n).

Lemma fallback_chain_tiers_witness :
  (demo_gemini_call 0%nat
     = (routes.Raised (routes.HTTPException 503 (py.lit "quota")), 1%nat)
   /\ falls_through (routes.HTTPException 503 (py.lit "quota"))
   /\ demo_ollama_call 1%nat
        = (routes.Raised (routes.OtherException (py.lit "refused")), 2%nat)
   /\ routes._run_with_fallback_chain demo_gemini_call demo_ollama_call demo_local_call
        0%nat
        = (routes.Returned 7, 3%nat, [routes.Gemini; routes.Ollama; routes.Local]))
  /\ (demo_bad_request 0%nat
        = (routes.Raised (routes.HTTPException 400 (py.lit "bad request")), 1%nat)
      /\ ~ In 400 RECOVERABLE
      /\ routes._run_with_fallback_chain demo_bad_request demo_ollama_call demo_local_call
           0%nat
           = (routes.Raised (routes.HTTPException 400 (py.lit "bad request")), 1%nat,
              [routes.Gemini])).
Proof.
  assert (Hp : demo_gemini_call 0%nat
               = (routes.Raised (routes.HTTPException 503 (py.lit "quota")), 1%nat))
    by reflexivity.
  assert (Hf : falls_through (routes.HTTPException 503 (py.lit "quota")))
    by (simpl; unfold RECOVERABLE; simpl; tauto).
  assert (Hs : demo_ollama_call 1%nat
               = (routes.Raised (routes.OtherException (py.lit "refused")), 2%nat))
    by reflexivity.
  assert (Hb : demo_bad_request 0%nat
               = (routes.Raised (routes.HTTPException 400 (py.lit "bad request")), 1%nat))
    by reflexivity.
  assert (Hn : ~ In 400 RECOVERABLE)
    by (unfold RECOVERABLE; simpl; intros H; decompose [or] H; discriminate || assumption).
  split.
  - split; [exact Hp | split; [exact Hf | split; [exact Hs |]]].
    exact (proj1 (proj1 (fallback_chain_tiers nat Z demo_gemini_call demo_ollama_call
                           demo_local_call 0%nat 1%nat _ Hp)
                        Hf _ _ Hs)).
  - split; [exact Hb | split; [exact Hn |]].
    exact (proj1 (proj2 (fallback_chain_tiers nat Z demo_bad_request demo_ollama_call
                           demo_local_call 0%nat 1%nat _ Hb)
                        400 (py.lit "bad request") eq_refl Hn)).
Defined.

(* ===================================================================== *)
(** * The session store (session.py) *)
(* ===================================================================== *)

Section SessionTTL.
Import stdpp.base stdpp.gmap stdpp.fin_maps.
Import py session.

Lemma cleanup_lookup_expired (self : SessionStore) (sid : str) (data : session_data)
  (now : Z) :
  _sessions self !! sid = Some data ->
  (now - updated_at data > _ttl self)%Z ->
  _sessions (_cleanup_expired_locked self now) !! sid = None.
Proof.
  intros Hin Hold. unfold _cleanup_expired_locked. simpl.
  apply map_lookup_filter_None. right.
  intros data' Hin' Hkeep. simpl in Hkeep.
  rewrite Hin in Hin'. injection Hin' as <-. contradiction.
Qed.

Lemma cleanup_lookup_fresh (self : SessionStore) (sid : str) (data : session_data)
  (now : Z) :
  _sessions self !! sid = Some data ->
  (now - updated_at data <= _ttl self)%Z ->
  _sessions (_cleanup_expired_locked self now) !! sid = Some data.
Proof.
  intros Hin Hfresh. unfold _cleanup_expired_locked. simpl.
  apply map_lookup_filter_Some. split; [assumption |]. simpl. lia.
Qed.

(** C9. In any state of the store, when the record of [session_id] was
    last updated more than the TTL before the current time, [get] returns
    [None], and the record is gone from the store afterwards: the access
    itself evicts it, without an explicit delete. *)
Theorem get_expired_is_none (self : SessionStore) (session_id : str)
  (data : session_data) (now now' : Z)
  (Hstored : _sessions self !! session_id = Some data)
  (Hold : (now - updated_at data > _ttl self)%Z) :
  fst (get self session_id now now') = None
  /\ _sessions (snd (get self session_id now now')) !! session_id = None.
Proof.
  pose proof (cleanup_lookup_expired self session_id data now Hstored Hold) as Hgone.
  unfold get. rewrite Hgone. simpl. split; [reflexivity | exact Hgone].
Qed.

(** A record younger than the TTL is returned, stamped with the time of
    the access. *)
Lemma get_fresh_is_some (self : SessionStore) (session_id : str)
  (data : session_data) (now now' : Z) :
  _sessions self !! session_id = Some data ->
  (now - updated_at data <= _ttl self)%Z ->
  fst (get self session_id now now') = Some (touch data now').
Proof.
  intros Hstored Hfresh.
  pose proof (cleanup_lookup_fresh self session_id data now Hstored Hfresh) as Hkept.
  unfold get. rewrite Hkept. reflexivity.
Qed.

(** A store with the default TTL of 240 minutes holding one session
    created at time 0. *)
Definition demo_store : SessionStore := snd (ensure (new_store 240) (lit "s1") 0 0 0).
Definition demo_session : session_data := mkSession 0 0 [] None [] [] [].

Lemma get_expired_is_none_witness :
  _sessions demo_store !! lit "s1" = Some demo_session
  /\ (14400000001 - updated_at demo_session > _ttl demo_store)%Z
  /\ fst (get demo_store (lit "s1") 14400000001 14400000002) = None
  /\ _sessions (snd (get demo_store (lit "s1") 14400000001 14400000002)) !! lit "s1"
       = None.
Proof.
  assert (Hstored : _sessions demo_store !! lit "s1" = Some demo_session)
    by (vm_compute; reflexivity).
  assert (Hold : (14400000001 - updated_at demo_session > _ttl demo_store)%Z)
    by (vm_compute; reflexivity).
  split; [exact Hstored | split; [exact Hold |]].
  exact (get_expired_is_none demo_store (lit "s1") demo_session
           14400000001 14400000002 Hstored Hold).
Defined.

End SessionTTL.

(* ===================================================================== *)
(** * Facts about whitespace *)
(* ===================================================================== *)

Section Whitespace.
Import py.

(** Two whitespace characters in a row. *)
Fixpoint has_double_ws (s : str) : bool :=
  match s with
  | [] => false
  | a :: t =>
      match t with
      | [] => false
      | b :: _ => (is_space a && is_space b) || has_double_ws t
      end
  end.

(** Every whitespace character of the text is a plain space. *)
Definition only_spaces (s : str) : Prop :=
  Forall (fun c => is_space c = true -> c = SP) s.

Definition no_newline (s : str) : Prop := Forall (fun c => c <> LF) s.

(** The text neither starts nor ends with whitespace. *)
Definition stripped (s : str) : Prop :=
  (forall c t, s = c :: t -> is_space c = false)
  /\ (forall c t, s = t ++ [c] -> is_space c = false).

Lemma is_space_SP : is_space SP = true.
Proof. reflexivity. Qed.

Lemma is_space_LF : is_space LF = true.
Proof. reflexivity. Qed.

Lemma only_spaces_no_newline (s : str) : only_spaces s -> no_newline s.
Proof.
  unfold only_spaces, no_newline. apply Forall_impl.
  intros c Hc ->. specialize (Hc is_space_LF). discriminate Hc.
Qed.

Lemma only_spaces_app (a b : str) :
  only_spaces (a ++ b) <-> only_spaces a /\ only_spaces b.
Proof. unfold only_spaces. apply Forall_app. Qed.

Lemma has_double_ws_cons (a : ascii) (t : str) :
  has_double_ws (a :: t)
  = match t with
    | [] => false
    | b :: _ => (is_space a && is_space b) || has_double_ws t
    end.
Proof. reflexivity. Qed.

Lemma has_double_ws_app_l (a b : str) :
  has_double_ws (a ++ b) = false -> has_double_ws a = false.
Proof.
  induction a as [| x a IH]; intros H; [reflexivity |].
  destruct a as [| y a]; [reflexivity |].
  change ((x :: y :: a) ++ b) with (x :: (y :: a) ++ b) in H.
  rewrite has_double_ws_cons in H |- *.
  change ((y :: a) ++ b) with (y :: a ++ b) in H.
  apply orb_false_iff in H as [H1 H2].
  apply orb_false_iff. split; [exact H1 | apply IH; exact H2].
Qed.

Lemma has_double_ws_app_r (a b : str) :
  has_double_ws (a ++ b) = false -> has_double_ws b = false.
Proof.
  induction a as [| x a IH]; intros H; [exact H |].
  apply IH. change ((x :: a) ++ b) with (x :: a ++ b) in H.
  rewrite has_double_ws_cons in H.
  destruct (a ++ b); [reflexivity |].
  now apply orb_false_iff in H as [_ H].
Qed.

(** Joining two texts creates a pair of whitespace only at the seam. *)
Lemma has_double_ws_app (a b : str) :
  has_double_ws a = false ->
  has_double_ws b = false ->
  (forall x a', a = a' ++ [x] -> forall y b', b = y :: b' ->
                is_space x && is_space y = false) ->
  has_double_ws (a ++ b) = false.
Proof.
  induction a as [| x a IH]; intros Ha Hb Hseam; [exact Hb |].
  change ((x :: a) ++ b) with (x :: a ++ b). rewrite has_double_ws_cons.
  destruct a as [| y a].
  - simpl. destruct b as [| z b]; [reflexivity |].
    apply orb_false_iff. split; [| exact Hb].
    apply (Hseam x [] eq_refl z b eq_refl).
  - change ((y :: a) ++ b) with (y :: a ++ b).
    rewrite has_double_ws_cons in Ha. apply orb_false_iff in Ha as [Ha1 Ha2].
    apply orb_false_iff. split; [exact Ha1 |].
    apply IH; [exact Ha2 | exact Hb |].
    intros x' a' Heq. apply (Hseam x' (x :: a')). now rewrite Heq.
Qed.

(** [drop_while] keeps a suffix, the two strips keep a segment. *)
Lemma drop_while_suffix (p : ascii -> bool) (s : str) :
  exists pre, s = pre ++ drop_while p s /\ forallb p pre = true.
Proof.
  induction s as [| c t [pre [IH Hp]]]; [now exists [] |].
  simpl. destruct (p c) eqn:Hc.
  - exists (c :: pre). simpl. rewrite Hc, Hp. now rewrite <- IH.
  - now exists [].
Qed.

Lemma drop_while_head (p : ascii -> bool) (s : str) (c : ascii) (t : str) :
  drop_while p s = c :: t -> p c = false.
Proof.
  induction s as [| x s IH]; [discriminate |].
  simpl. destruct (p x) eqn:Hx; [exact IH |].
  intros H. injection H as <- _. exact Hx.
Qed.

Lemma drop_while_id (p : ascii -> bool) (s : str) :
  (forall c t, s = c :: t -> p c = false) -> drop_while p s = s.
Proof.
  destruct s as [| c t]; [reflexivity |].
  intros H. simpl. now rewrite (H c t eq_refl).
Qed.

Lemma reverse_rev (s : str) : reverse s = rev s.
Proof. unfold reverse. symmetry. apply rev_alt. Qed.

Lemma rstrip_rev (s : str) : rstrip s = rev (drop_while is_space (rev s)).
Proof. unfold rstrip. now rewrite !reverse_rev. Qed.

Lemma rstrip_prefix (s : str) : exists post, s = rstrip s ++ post.
Proof.
  rewrite rstrip_rev.
  destruct (drop_while_suffix is_space (rev s)) as [pre [H _]].
  exists (rev pre). rewrite <- rev_app_distr, <- H. symmetry. apply rev_involutive.
Qed.

Lemma strip_segment (s : str) : exists pre post, s = pre ++ strip s ++ post.
Proof.
  unfold strip.
  destruct (drop_while_suffix is_space s) as [pre [H _]].
  destruct (rstrip_prefix (lstrip s)) as [post Hpost].
  exists pre, post. unfold lstrip in *. now rewrite <- Hpost.
Qed.

Lemma rstrip_last (s : str) (c : ascii) (t : str) :
  rstrip s = t ++ [c] -> is_space c = false.
Proof.
  rewrite rstrip_rev. intros H.
  apply (f_equal (@rev ascii)) in H.
  rewrite rev_involutive, rev_app_distr in H. simpl in H.
  exact (drop_while_head _ _ _ _ H).
Qed.

Lemma rstrip_head (s : str) (c : ascii) (t : str) :
  (forall c' t', s = c' :: t' -> is_space c' = false) ->
  rstrip s = c :: t -> is_space c = false.
Proof.
  intros Hs H. destruct (rstrip_prefix s) as [post Hpost].
  rewrite H in Hpost. exact (Hs c (t ++ post) Hpost).
Qed.

Lemma strip_stripped (s : str) : stripped (strip s).
Proof.
  unfold stripped, strip. split.
  - intros c t H. apply (rstrip_head (lstrip s) c t); [| exact H].
    intros c' t'. unfold lstrip. apply drop_while_head.
  - intros c t. apply rstrip_last.
Qed.

Lemma rstrip_id (s : str) :
  (forall c t, s = t ++ [c] -> is_space c = false) -> rstrip s = s.
Proof.
  intros H. rewrite rstrip_rev. rewrite drop_while_id; [apply rev_involutive |].
  intros c t Hrev. apply (H c (rev t)).
  rewrite <- (rev_involutive s), Hrev. reflexivity.
Qed.

Lemma strip_id (s : str) : stripped s -> strip s = s.
Proof.
  intros [Hh Hl]. unfold strip, lstrip.
  rewrite (drop_while_id is_space s Hh). now apply rstrip_id.
Qed.

Lemma only_spaces_strip (s : str) : only_spaces s -> only_spaces (strip s).
Proof.
  intros H. destruct (strip_segment s) as [pre [post Heq]].
  rewrite Heq in H. apply only_spaces_app in H as [_ H].
  now apply only_spaces_app in H as [H _].
Qed.

Lemma has_double_ws_strip (s : str) :
  has_double_ws s = false -> has_double_ws (strip s) = false.
Proof.
  intros H. destruct (strip_segment s) as [pre [post Heq]].
  rewrite Heq in H. apply has_double_ws_app_r in H.
  now apply has_double_ws_app_l in H.
Qed.

(** [re.sub(r"\s+", " ", s)] leaves single plain spaces. *)
Lemma sub_ws_only_spaces (in_run : bool) (s : str) : only_spaces (sub_ws in_run s).
Proof.
  revert in_run. induction s as [| c t IH]; intros in_run; [constructor |].
  simpl. destruct (is_space c) eqn:Hc.
  - destruct in_run; [apply IH |]. constructor; [reflexivity | apply IH].
  - constructor; [| apply IH]. intros H. rewrite Hc in H. discriminate H.
Qed.

Lemma sub_ws_run_head (s : str) (c : ascii) (t : str) :
  sub_ws true s = c :: t -> is_space c = false.
Proof.
  induction s as [| x s IH]; [discriminate |].
  simpl. destruct (is_space x) eqn:Hx; [exact IH |].
  intros H. injection H as <- _. exact Hx.
Qed.

Lemma sub_ws_no_double (in_run : bool) (s : str) :
  has_double_ws (sub_ws in_run s) = false.
Proof.
  revert in_run. induction s as [| c t IH]; intros in_run; [reflexivity |].
  simpl. destruct (is_space c) eqn:Hc.
  - destruct in_run; [apply IH |].
    rewrite has_double_ws_cons.
    destruct (sub_ws true t) as [| b r] eqn:Ht; [reflexivity |].
    rewrite (sub_ws_run_head t b r Ht), andb_false_r, orb_false_l.
    rewrite <- Ht. apply IH.
  - rewrite has_double_ws_cons.
    destruct (sub_ws false t) as [| b r] eqn:Ht; [reflexivity |].
    rewrite Hc, andb_false_l, orb_false_l. rewrite <- Ht. apply IH.
Qed.

Lemma normalize_ws_only_spaces (s : str) : only_spaces (normalize_ws s).
Proof. apply only_spaces_strip, sub_ws_only_spaces. Qed.

Lemma normalize_ws_no_double (s : str) : has_double_ws (normalize_ws s) = false.
Proof. apply has_double_ws_strip, sub_ws_no_double. Qed.

Lemma normalize_ws_stripped (s : str) : stripped (normalize_ws s).
Proof. apply strip_stripped. Qed.

Lemma only_spaces_firstn (n : nat) (s : str) : only_spaces s -> only_spaces (firstn n s).
Proof.
  intros H. rewrite <- (firstn_skipn n s) in H. now apply only_spaces_app in H.
Qed.

Lemma has_double_ws_firstn (n : nat) (s : str) :
  has_double_ws s = false -> has_double_ws (firstn n s) = false.
Proof.
  intros H. rewrite <- (firstn_skipn n s) in H. now apply has_double_ws_app_l in H.
Qed.

Lemma slice_to_firstn {A : Type} (n : Z) (l : list A) :
  exists k, slice_to n l = firstn k l.
Proof. unfold slice_to. destruct (0 <=? n); eexists; reflexivity. Qed.

End Whitespace.

(* ===================================================================== *)
(** * clean_transcript_text (pipeline_utils.py) *)
(* ===================================================================== *)

Section CleanTranscript.
Import py re pipeline_utils.

(** The text before the cut at [max_chars]: the asides removed and the
    whitespace collapsed. *)
Definition normalized (text : str) : str :=
  normalize_ws
    (sub speaker_re []
       (sub paren_re (lit " ")
          (sub bracket_re (lit " ") (sub timestamp_re (lit " ") (strip text))))).

Lemma clean_transcript_text_eq (text : str) (max_chars : Z) :
  clean_transcript_text text max_chars
  = if negb (nonempty (strip text)) then []
    else if len (normalized text) >? max_chars
         then slice_to max_chars (normalized text) ++ TRUNCATED
         else normalized text.
Proof. reflexivity. Qed.

Lemma TRUNCATED_only_spaces : only_spaces TRUNCATED.
Proof.
  unfold only_spaces. apply Forall_forall. intros c Hin.
  vm_compute in Hin. intros Hs.
  repeat (destruct Hin as [<- | Hin]; [try reflexivity; discriminate Hs |]).
  destruct Hin.
Qed.

Lemma clean_only_spaces (text : str) (max_chars : Z) :
  only_spaces (clean_transcript_text text max_chars).
Proof.
  rewrite clean_transcript_text_eq.
  destruct (negb (nonempty (strip text))); [constructor |].
  destruct (len (normalized text) >? max_chars).
  - apply only_spaces_app. split; [| apply TRUNCATED_only_spaces].
    destruct (slice_to_firstn max_chars (normalized text)) as [k ->].
    apply only_spaces_firstn, normalize_ws_only_spaces.
  - apply normalize_ws_only_spaces.
Qed.

(** A repetition that needs at least one character of a class fails
    where the next character is not of the class. *)
Lemma run_rep_chr_fails {R : Type} (lo : nat) (hi : option nat) (p : ascii -> bool)
  (s : state) (k : state -> option R) :
  (1 <= lo)%nat ->
  (forall c t, rest s = c :: t -> p c = false) ->
  run (Rep lo hi (Chr p)) s k = None.
Proof.
  intros Hlo Hhead. destruct lo as [| lo]; [lia |].
  cbn [run].
  destruct (match hi with Some h => h | None => gas s end) as [| fuel];
    [reflexivity |].
  cbn beta iota. cbn [Nat.leb].
  destruct (below hi 0); [| reflexivity].
  destruct (rest s) as [| c t] eqn:Hrest; [reflexivity |].
  now rewrite (Hhead c t eq_refl).
Qed.

(** The paragraph pattern finds nothing at a character that is not a
    line break. *)
Lemma paragraph_not_found (s : state) :
  (forall c t, rest s = c :: t -> c <> LF) -> found paragraph_split_re s = None.
Proof.
  intros Hhead. unfold found, paragraph_split_re.
  rewrite run_rep_chr_fails; [reflexivity | lia |].
  intros c t Hrest. unfold is_char. apply Ascii.eqb_neq. intros Heq.
  apply (Hhead c t Hrest). now symmetry.
Qed.

Lemma split_loop_no_newline (fuel : nat) (s : state) (cur : str) :
  (length (rest s) < fuel)%nat ->
  no_newline (rest s) ->
  split_loop fuel paragraph_split_re s cur = [reverse cur ++ rest s].
Proof.
  revert s cur. induction fuel as [| fuel IH]; intros s cur Hlen Hnl; [lia |].
  simpl. destruct (rest s) as [| c t] eqn:Hrest.
  - now rewrite app_nil_r.
  - rewrite paragraph_not_found.
    + rewrite IH.
      * rewrite !reverse_rev. simpl. now rewrite <- app_assoc.
      * simpl in *. lia.
      * simpl. now inversion Hnl.
    + intros c' t' Heq. rewrite Hrest in Heq. injection Heq as <- <-.
      now inversion Hnl.
Qed.

(** A text without a line break is one paragraph. *)
Lemma split_paragraphs_no_newline (s : str) :
  no_newline s -> split paragraph_split_re s = [s].
Proof.
  intros Hnl. unfold split.
  rewrite split_loop_no_newline; [reflexivity | simpl; lia | exact Hnl].
Qed.

(** C10, as the code has it.  For every input and every [max_chars] the
    cleaned text has no line break and no whitespace character other
    than the plain space, so the paragraph pattern of [split_into_chunks]
    never splits it.  Either the text has no two whitespace characters in
    a row, or it was cut: then it is the first [max_chars] characters of
    the normalized text, themselves free of doubled whitespace, followed
    by the marker " [Transcript truncated]" (whose leading space may
    follow a space the cut ended on). *)
Theorem clean_transcript_text_whitespace (text : str) (max_chars : Z) :
  let out := clean_transcript_text text max_chars in
  no_newline out
  /\ only_spaces out
  /\ split paragraph_split_re out = [out]
  /\ (has_double_ws out = false
      \/ (len (normalized text) > max_chars
          /\ out = slice_to max_chars (normalized text) ++ TRUNCATED
          /\ has_double_ws (slice_to max_chars (normalized text)) = false)).
Proof.
  intros out.
  assert (Hsp : only_spaces out) by apply clean_only_spaces.
  pose proof (only_spaces_no_newline _ Hsp) as Hnl.
  split; [exact Hnl | split; [exact Hsp | split]].
  - now apply split_paragraphs_no_newline.
  - subst out. rewrite clean_transcript_text_eq.
    destruct (negb (nonempty (strip text))); [now left |].
    destruct (len (normalized text) >? max_chars) eqn:Hcut.
    + right. split; [now apply Z.gtb_lt in Hcut; lia | split; [reflexivity |]].
      destruct (slice_to_firstn max_chars (normalized text)) as [k ->].
      apply has_double_ws_firstn, normalize_ws_no_double.
    + left. apply normalize_ws_no_double.
Qed.

(** C10 as stated fails where the cut falls right after a space: a text
    of 119999 letters, a space and one more letter is cut, at the default
    limit of 120000 characters, after the space, and the marker adds a
    second one. *)
Lemma clean_transcript_text_double_space :
  has_double_ws
    (clean_transcript_text (repeat (chr 97) (N.to_nat 119999) ++ lit " b") 120000)
  = true.
Proof. vm_compute. reflexivity. Qed.

End CleanTranscript.

(* ===================================================================== *)
(** * split_into_chunks (pipeline_utils.py) *)
(* ===================================================================== *)

Section Chunks.
Import py re pipeline_utils.

Lemma nonempty_true {A : Type} (l : list A) : nonempty l = true <-> l <> [].
Proof. destruct l; simpl; split; congruence. Qed.

Lemma nonempty_false {A : Type} (l : list A) : nonempty l = false <-> l = [].
Proof. destruct l; simpl; split; congruence. Qed.

(** The cleaned text neither starts nor ends with whitespace. *)
Lemma clean_stripped (text : str) (max_chars : Z) :
  0 < max_chars -> stripped (clean_transcript_text text max_chars).
Proof.
  intros Hpos. rewrite clean_transcript_text_eq.
  destruct (negb (nonempty (strip text))).
  { split; intros c t H; [discriminate H | destruct t; discriminate H]. }
  pose proof (normalize_ws_stripped
                (sub speaker_re []
                   (sub paren_re (lit " ")
                      (sub bracket_re (lit " ")
                         (sub timestamp_re (lit " ") (strip text)))))) as Hst.
  fold (normalized text) in Hst.
  destruct (len (normalized text) >? max_chars) eqn:Hcut; [| exact Hst].
  apply Z.gtb_lt in Hcut. destruct Hst as [Hhead _]. split.
  - intros c t Heq. unfold slice_to in Heq.
    replace (0 <=? max_chars) with true in Heq by (symmetry; apply Z.leb_le; lia).
    destruct (normalized text) as [| b body] eqn:Hbody.
    { unfold len in Hcut. simpl in Hcut. lia. }
    destruct (Z.to_nat max_chars) as [| k] eqn:Hk; [lia |].
    simpl in Heq. injection Heq as <- _. exact (Hhead b body eq_refl).
  - intros c t Heq.
    change TRUNCATED with (lit " [Transcript truncated" ++ [chr 93]) in Heq.
    rewrite app_assoc in Heq. apply app_inj_tail in Heq as [_ <-]. reflexivity.
Qed.

(** The cleaned text is its own single paragraph. *)
Lemma paragraphs_of_cleaned (text : str) (max_chars : Z) :
  0 < max_chars ->
  nonempty (clean_transcript_text text max_chars) = true ->
  List.filter nonempty
    (map strip (split paragraph_split_re (clean_transcript_text text max_chars)))
  = [clean_transcript_text text max_chars].
Proof.
  intros Hpos Hne.
  destruct (clean_transcript_text_whitespace text max_chars) as [_ [_ [Hsplit _]]].
  rewrite Hsplit. simpl. rewrite (strip_id _ (clean_stripped text max_chars Hpos)).
  now rewrite Hne.
Qed.

Lemma strip_strip (s : str) : strip (strip s) = strip s.
Proof. apply strip_id, strip_stripped. Qed.

(** What [split_into_chunks] computes: since its input is one paragraph,
    the loop runs once. *)
Lemma split_into_chunks_eq (text : str) (max_chars overlap_chars max_chunks : Z) :
  split_into_chunks text max_chars overlap_chars max_chunks
  = let cleaned := clean_transcript_text text 120000 in
    if negb (nonempty cleaned) then []
    else if len cleaned <=? max_chars
         then (if 0 <? max_chunks then [cleaned] else [])
         else List.filter nonempty
                (strip (slice_to max_chars cleaned)
                   :: (if 1 >=? max_chunks then []
                       else [strip (slice_from (max_chars - overlap_chars) cleaned)])).
Proof.
  unfold split_into_chunks.
  set (cleaned := clean_transcript_text text 120000).
  destruct (nonempty cleaned) eqn:Hne; [| reflexivity].
  cbv zeta. cbn [negb].
  assert (Hp : List.filter nonempty (map strip (split paragraph_split_re cleaned))
               = [cleaned])
    by (apply paragraphs_of_cleaned; [lia | exact Hne]).
  rewrite Hp. cbn [nonempty chunk_loop].
  destruct (len cleaned <=? max_chars) eqn:Hfit.
  - cbn [chunk_loop]. rewrite Hne. cbn [andb].
    change (len (@nil str)) with 0.
    destruct (0 <? max_chunks); cbn [app List.filter].
    + assert (Hst : strip cleaned = cleaned)
        by (apply strip_id, clean_stripped; lia).
      rewrite Hst. now rewrite Hne.
    + reflexivity.
  - cbn [app]. change (len [strip (slice_to max_chars cleaned)]) with 1.
    destruct (1 >=? max_chunks) eqn:Hcap.
    + cbn [nonempty andb]. reflexivity.
    + cbn [chunk_loop].
      change (len [strip (slice_to max_chars cleaned)]) with 1.
      assert (Hlt : (1 <? max_chunks) = true).
      { apply Z.ltb_lt. unfold Z.geb in Hcap.
        destruct (1 ?= max_chunks) eqn:Hcmp; try discriminate.
        now apply Z.compare_lt_iff. }
      rewrite Hlt, andb_true_r.
      destruct (nonempty (strip (slice_from (max_chars - overlap_chars) cleaned)))
        eqn:Hcur.
      * rewrite strip_strip. reflexivity.
      * cbn [List.filter]. rewrite Hcur.
        destruct (nonempty (strip (slice_to max_chars cleaned))); reflexivity.
Qed.





End Chunks.

(* ===================================================================== *)
(** * De-duplication and truncation (pipeline_utils.py) *)
(* ===================================================================== *)

Section Items.
Import py pipeline_utils.

Lemma eqb_eq (a b : str) : eqb a b = true <-> a = b.
Proof.
  revert b. induction a as [| x a IH]; intros [| y b]; simpl;
    try (split; [discriminate | discriminate]); [tauto |].
  rewrite andb_true_iff, Ascii.eqb_eq, IH. split.
  - now intros [-> ->].
  - intros H. injection H as -> ->. now split.
Qed.

Lemma mem_In (x : str) (l : list str) : mem x l = true <-> In x l.
Proof.
  induction l as [| y l IH]; simpl; [split; [discriminate | tauto] |].
  rewrite orb_true_iff, eqb_eq, IH. split; intros [H | H]; auto.
Qed.

Lemma mem_false (x : str) (l : list str) : mem x l = false <-> ~ In x l.
Proof.
  rewrite <- mem_In. destruct (mem x l); split; congruence.
Qed.

(** Whitespace that is already normal stays as it is. *)
Lemma sub_ws_id (s : str) :
  only_spaces s -> has_double_ws s = false ->
  sub_ws false s = s
  /\ ((forall c t, s = c :: t -> is_space c = false) -> sub_ws true s = s).
Proof.
  induction s as [| c t IH]; intros Hsp Hdw; [split; reflexivity |].
  inversion Hsp as [| ? ? Hc Ht]; subst.
  rewrite has_double_ws_cons in Hdw.
  assert (Hdt : has_double_ws t = false).
  { destruct t; [reflexivity |]. now apply orb_false_iff in Hdw. }
  destruct (IH Ht Hdt) as [IH1 IH2].
  simpl. destruct (is_space c) eqn:Hcs.
  - split.
    + rewrite (Hc eq_refl). f_equal. apply IH2.
      intros b r ->. apply orb_false_iff in Hdw as [Hdw _]. exact Hdw.
    + intros H. specialize (H c t eq_refl). congruence.
  - split; intros; f_equal; exact IH1.
Qed.

Definition normal (s : str) : Prop :=
  only_spaces s /\ has_double_ws s = false /\ stripped s.

Lemma normalize_ws_normal (s : str) : normal (normalize_ws s).
Proof.
  split; [apply normalize_ws_only_spaces |].
  split; [apply normalize_ws_no_double | apply normalize_ws_stripped].
Qed.

Lemma normalize_ws_id (s : str) : normal s -> normalize_ws s = s.
Proof.
  intros [Hsp [Hdw Hst]]. unfold normalize_ws, collapse_ws.
  rewrite (proj1 (sub_ws_id s Hsp Hdw)). now apply strip_id.
Qed.

Lemma normalize_ws_idem (s : str) : normalize_ws (normalize_ws s) = normalize_ws s.
Proof. apply normalize_ws_id, normalize_ws_normal. Qed.

(** ** dedupe_strings *)

Lemma dedupe_loop_spec (items seen : list str) :
  NoDup (map lower (dedupe_loop seen items))
  /\ Forall (fun v => normal v /\ v <> [] /\ ~ In (lower v) seen
                      /\ exists item, In item items /\ v = normalize_ws item)
            (dedupe_loop seen items).
Proof.
  revert seen. induction items as [| item items IH]; intros seen;
    [split; constructor |].
  assert (Hskip : forall seen',
             (forall k, In k seen -> In k seen') ->
             Forall (fun v => normal v /\ v <> [] /\ ~ In (lower v) seen'
                              /\ exists item, In item items /\ v = normalize_ws item)
                    (dedupe_loop seen' items) ->
             Forall (fun v => normal v /\ v <> [] /\ ~ In (lower v) seen
                              /\ exists i, In i (item :: items) /\ v = normalize_ws i)
                    (dedupe_loop seen' items)).
  { intros seen' Hsub. apply Forall_impl.
    intros v [Hn [Hv [Hs [i [Hi He]]]]].
    split; [exact Hn |]. split; [exact Hv |].
    split; [intros Hin; apply Hs, Hsub, Hin |].
    exists i. split; [now right | exact He]. }
  simpl. destruct (nonempty (normalize_ws item)) eqn:Hne; simpl.
  2:{ destruct (IH seen) as [H1 H2]. split; [exact H1 |]. now apply Hskip. }
  destruct (mem (lower (normalize_ws item)) seen) eqn:Hmem.
  { destruct (IH seen) as [H1 H2]. split; [exact H1 |]. now apply Hskip. }
  destruct (IH (lower (normalize_ws item) :: seen)) as [H1 H2]. split.
  - simpl. constructor; [| exact H1].
    intros Hin. apply in_map_iff in Hin as [v [Hv Hin]].
    rewrite Forall_forall in H2. destruct (H2 v Hin) as [_ [_ [Hs _]]].
    apply Hs. left. now symmetry.
  - constructor.
    + split; [apply normalize_ws_normal |].
      split; [now apply nonempty_true |].
      split; [now apply mem_false |].
      exists item. split; [now left | reflexivity].
    + apply Hskip; [| exact H2]. intros k Hk. now right.
Qed.

Lemma dedupe_strings_nodup (items : list str) :
  NoDup (map lower (dedupe_strings items)).
Proof. apply (dedupe_loop_spec items []). Qed.

Lemma dedupe_strings_normal (items : list str) :
  Forall (fun v => normal v /\ v <> []) (dedupe_strings items).
Proof.
  eapply Forall_impl; [| apply (dedupe_loop_spec items [])].
  intros v [Hn [Hv _]]. now split.
Qed.

(** A list that is already de-duplicated is left as it is. *)
Lemma dedupe_loop_id (l seen : list str) :
  Forall (fun v => normal v /\ v <> []) l ->
  NoDup (map lower l) ->
  (forall v, In v l -> ~ In (lower v) seen) ->
  dedupe_loop seen l = l.
Proof.
  revert seen. induction l as [| v l IH]; intros seen Hn Hnd Hseen; [reflexivity |].
  inversion Hn as [| ? ? [Hv Hne] Hl]; subst.
  simpl in Hnd. inversion Hnd as [| ? ? Hnotin Hnd']; subst.
  simpl. rewrite (normalize_ws_id v Hv).
  replace (nonempty v) with true by (symmetry; now apply nonempty_true).
  simpl.
  replace (mem (lower v) seen) with false
    by (symmetry; apply mem_false, Hseen; now left).
  f_equal. apply IH; [exact Hl | exact Hnd' |].
  intros w Hw [Heq | Hin].
  - apply Hnotin. rewrite Heq. now apply in_map.
  - apply (Hseen w); [now right | exact Hin].
Qed.

Lemma in_firstn {A : Type} (n : nat) (l : list A) (x : A) :
  In x (firstn n l) -> In x l.
Proof.
  intros H. rewrite <- (firstn_skipn n l). apply in_or_app. now left.
Qed.

Lemma dedupe_strings_firstn_idem (n : nat) (items : list str) :
  dedupe_strings (firstn n (dedupe_strings items)) = firstn n (dedupe_strings items).
Proof.
  unfold dedupe_strings at 1. apply dedupe_loop_id.
  - apply Forall_forall. intros v Hin. apply in_firstn in Hin.
    pose proof (dedupe_strings_normal items) as H.
    rewrite Forall_forall in H. now apply H.
  - pose proof (dedupe_strings_nodup items) as H.
    rewrite <- (firstn_skipn n (dedupe_strings items)), map_app in H.
    now apply NoDup_app_remove_r in H.
  - intros v _ [].
Qed.

(** ** _shorten *)

Lemma is_char_eq (x c : ascii) : is_char x c = true <-> c = x.
Proof. unfold is_char. rewrite Ascii.eqb_eq. split; congruence. Qed.

Lemma after_first_space_spec (r t : str) :
  after_first_space r = Some t ->
  exists pre, r = pre ++ SP :: t /\ forallb (fun c => negb (is_char SP c)) pre = true.
Proof.
  revert t. induction r as [| c r IH]; intros t; [discriminate |].
  cbn [after_first_space]. destruct (is_char SP c) eqn:Hc.
  - intros H. injection H as <-. apply is_char_eq in Hc as ->. now exists [].
  - intros H. destruct (IH t H) as [pre [-> Hpre]].
    exists (c :: pre). cbn [forallb app]. now rewrite Hc, Hpre.
Qed.

(** [s.rsplit(" ", 1)[0]] is [s] when [s] has no space, and otherwise
    the part of [s] before its last space. *)
Lemma rsplit1_head_spec (s : str) :
  (rsplit1_head s = s /\ forallb (fun c => negb (is_char SP c)) s = true)
  \/ exists tail, s = rsplit1_head s ++ SP :: tail
                  /\ forallb (fun c => negb (is_char SP c)) tail = true.
Proof.
  unfold rsplit1_head. rewrite reverse_rev.
  destruct (after_first_space (rev s)) as [t |] eqn:Hr.
  - right. destruct (after_first_space_spec _ _ Hr) as [pre [Heq Hpre]].
    exists (rev pre). split.
    + rewrite reverse_rev, <- (rev_involutive s), Heq, rev_app_distr. simpl.
      now rewrite <- app_assoc.
    + rewrite forallb_forall in *. intros c Hc. apply Hpre. now apply in_rev.
  - left. split; [reflexivity |].
    assert (H : forall r, after_first_space r = None ->
                          forallb (fun c => negb (is_char SP c)) r = true).
    { induction r as [| c r IH]; [reflexivity |]. cbn [after_first_space forallb].
      destruct (is_char SP c); [discriminate | exact IH]. }
    specialize (H _ Hr). rewrite forallb_forall in *.
    intros c Hc. apply H. now apply in_rev in Hc.
Qed.

Lemma rsplit1_head_length (s : str) : (length (rsplit1_head s) <= length s)%nat.
Proof.
  destruct (rsplit1_head_spec s) as [[-> _] | [tail [Heq _]]]; [lia |].
  rewrite Heq at 2. rewrite length_app. lia.
Qed.

Lemma slice_to_length {A : Type} (n : Z) (l : list A) :
  0 <= n -> len (slice_to n l) <= n.
Proof.
  intros Hn. unfold slice_to, len.
  replace (0 <=? n) with true by (symmetry; now apply Z.leb_le).
  pose proof (firstn_le_length (Z.to_nat n) l). lia.
Qed.

(** The text comes back whole when it fits; otherwise it is cut at
    [max_chars], then before the last space of what is left, and three
    dots are added: at most [max_chars + 3] characters. *)
Lemma shorten_length (text : str) (max_chars : Z) :
  0 <= max_chars -> len (_shorten text max_chars) <= max_chars + 3.
Proof.
  intros Hn. unfold _shorten.
  destruct (len (normalize_ws text) <=? max_chars) eqn:Hfit.
  - apply Z.leb_le in Hfit. lia.
  - pose proof (slice_to_length max_chars (normalize_ws text) Hn) as Hs.
    pose proof (rsplit1_head_length (slice_to max_chars (normalize_ws text))) as Hr.
    unfold len in *. rewrite length_app. simpl. lia.
Qed.

(** ** _ensure_item_range *)

(** The items that survive: de-duplicated, then at least nine
    characters long. *)
Definition sources (items : list str) : list str :=
  List.filter (fun item => len (strip item) >? 8) (dedupe_strings items).

(** The items kept: the first eight survivors, each shortened. *)
Definition kept (items : list str) : list str :=
  firstn 8 (map (fun item => _shorten item 180) (sources items)).

(** The generic items that fill a field holding [k] items up to four. *)
Definition fillers (label : str) (k : nat) : list str :=
  map (fun j => filler label (Z.of_nat k + 1 + Z.of_nat j)) (seq 0 (4 - k)).

Lemma pad_items_eq (fuel : nat) (label : str) (min_items : Z) (l : list str) :
  pad_items fuel label min_items l
  = l ++ map (fun j => filler label (len l + 1 + Z.of_nat j))
             (seq 0 (Nat.min fuel (Z.to_nat (min_items - len l)))).
Proof.
  revert l. induction fuel as [| fuel IH]; intros l.
  { cbn [pad_items Nat.min seq map]. now rewrite app_nil_r. }
  cbn [pad_items]. destruct (len l <? min_items) eqn:Hlt.
  - apply Z.ltb_lt in Hlt. rewrite IH.
    assert (Hlen : len (l ++ [filler label (len l + 1)]) = len l + 1).
    { unfold len. rewrite length_app. simpl. lia. }
    rewrite Hlen.
    replace (Z.to_nat (min_items - len l))
      with (S (Z.to_nat (min_items - (len l + 1)))) by lia.
    cbn [Nat.min seq map]. rewrite <- app_assoc. cbn [app]. f_equal. f_equal.
    + f_equal. lia.
    + rewrite <- seq_shift, map_map. apply map_ext. intros j. f_equal. lia.
  - apply Z.ltb_ge in Hlt.
    replace (Z.to_nat (min_items - len l)) with 0%nat by lia.
    rewrite Nat.min_0_r. cbn [seq map]. now rewrite app_nil_r.
Qed.

Lemma kept_length (items : list str) : (length (kept items) <= 8)%nat.
Proof. unfold kept. apply firstn_le_length. Qed.

Lemma ensure_item_range_eq (items : list str) (label : str) :
  _ensure_item_range items label 4 8 = kept items ++ fillers label (length (kept items)).
Proof.
  unfold _ensure_item_range. rewrite pad_items_eq.
  change (slice_to 8 (map (fun item => _shorten item 180)
                          (List.filter (fun item => len (strip item) >? 8)
                                       (dedupe_strings items))))
    with (kept items).
  f_equal. unfold fillers, len.
  replace (Nat.min (Z.to_nat 4) (Z.to_nat (4 - Z.of_nat (length (kept items)))))
    with (4 - length (kept items))%nat by lia.
  reflexivity.
Qed.

Lemma sources_spec (items : list str) :
  NoDup (map lower (sources items))
  /\ Forall (fun v => 9 <= len v) (sources items).
Proof.
  unfold sources. split.
  - pose proof (dedupe_strings_nodup items) as H.
    induction (dedupe_strings items) as [| v l IH]; [constructor |].
    simpl in *. inversion H as [| ? ? Hn Hl]; subst.
    destruct (len (strip v) >? 8); [| now apply IH].
    simpl. constructor; [| now apply IH].
    intros Hin. apply Hn. apply in_map_iff in Hin as [w [Hw Hin]].
    apply filter_In in Hin as [Hin _]. rewrite <- Hw. now apply in_map.
  - apply Forall_forall. intros v Hin. apply filter_In in Hin as [Hin Hlong].
    pose proof (dedupe_strings_normal items) as H. rewrite Forall_forall in H.
    destruct (H v Hin) as [[_ [_ Hst]] _].
    rewrite (strip_id v Hst) in Hlong. apply Z.gtb_lt in Hlong. lia.
Qed.

Lemma kept_short (items : list str) : Forall (fun item => len item <= 183) (kept items).
Proof.
  apply Forall_forall. intros x Hin. unfold kept in Hin.
  apply in_firstn in Hin. apply in_map_iff in Hin as [v [<- _]].
  apply (shorten_length v 180). lia.
Qed.

Lemma fillers_short (label : str) (k : nat) :
  len label <= 100 -> Forall (fun item => len item <= 183) (fillers label k).
Proof.
  intros Hlabel. unfold fillers. apply Forall_forall. intros x Hin.
  apply in_map_iff in Hin as [j [<- Hj]]. apply in_seq in Hj.
  assert (Hidx : len (str_of_Z (Z.of_nat k + 1 + Z.of_nat j)) = 1).
  { assert (Hcases : Z.of_nat k + 1 + Z.of_nat j = 1 \/ Z.of_nat k + 1 + Z.of_nat j = 2
                     \/ Z.of_nat k + 1 + Z.of_nat j = 3
                     \/ Z.of_nat k + 1 + Z.of_nat j = 4) by lia.
    destruct Hcases as [-> | [-> | [-> | ->]]]; reflexivity. }
  unfold filler, len in *. rewrite !length_app.
  change (length (lit ": Revise this idea and connect it to the lecture theme."))
    with 55%nat.
  change (length (lit " ")) with 1%nat.
  lia.
Qed.

(** A field of the validated summary, for the items the candidate had
    under it. *)
Definition field_ok (label : str) (items out : list str) : Prop :=
  out = kept items ++ fillers label (length (kept items))
  /\ (4 <= length out <= 8)%nat
  /\ Forall (fun item => len item <= 183) out
  /\ NoDup (map lower (sources items))
  /\ Forall (fun v => 9 <= len v) (sources items).

Lemma ensure_item_range_ok (items : list str) (label : str) :
  len label <= 100 -> field_ok label items (_ensure_item_range items label 4 8).
Proof.
  intros Hlabel. rewrite ensure_item_range_eq.
  pose proof (kept_length items) as Hk.
  split; [reflexivity |]. split.
  - rewrite length_app. unfold fillers. rewrite length_map, length_seq. lia.
  - split; [apply Forall_app; split; [apply kept_short | now apply fillers_short] |].
    apply sources_spec.
Qed.

End Items.

(* ===================================================================== *)
(** * validate_structured_summary (pipeline_utils.py) *)
(* ===================================================================== *)

Section Validate.
Import py pipeline_utils schemas.

Lemma fill_overview_done (fuel : nat) (source_text : str) (concepts overview : list str) :
  length overview = 3%nat ->
  fill_overview fuel source_text concepts overview = Some overview.
Proof.
  intros Hlen.
  assert (H : (len overview <? 3) = false) by (apply Z.ltb_ge; unfold len; lia).
  destruct fuel; cbn [fill_overview]; now rewrite H.
Qed.

Lemma fill_overview_step (fuel : nat) (source_text : str) (concepts overview : list str) :
  (length overview < 3)%nat ->
  fill_overview (S fuel) source_text concepts overview
  = fill_overview fuel source_text concepts
      (append_missing (build_three_paragraph_overview source_text concepts) overview).
Proof.
  intros Hlen.
  assert (H : (len overview <? 3) = true) by (apply Z.ltb_lt; unfold len; lia).
  cbn [fill_overview]. now rewrite H.
Qed.

(** The concepts of the validated summary, from which a missing overview
    is rebuilt. *)
Definition validated_concepts (summary : StructuredSummary) : list str :=
  _ensure_item_range (core_concepts summary) (lit "Concept") 4 8.

(** What makes the last loop of the validator stop: the candidate brings
    three distinct overview paragraphs, or the three rebuilt ones are
    distinct. *)
Definition overview_settles (summary : StructuredSummary) (source_text : str) : Prop :=
  (3 <= length (dedupe_strings (overview_paragraphs summary)))%nat
  \/ length (dedupe_strings
              (build_three_paragraph_overview source_text (validated_concepts summary)))
     = 3%nat.

(** C1, as the code has it.  Whenever the overview settles, the validator
    returns, with any fuel, a summary that has exactly three overview
    paragraphs, no two of them equal in lower case, and in each of the
    four bulleted fields between 4 and 8 items: the candidate's items
    de-duplicated in lower case, those under nine characters dropped, the
    first eight of the rest shortened by [_shorten] to 180 characters, cut
    back to the last space and three dots added (so at most 183
    characters), and after them generic items carrying the field's label
    and the running index when fewer than four were kept. *)
Theorem validate_structured_summary_shape (fuel : nat) (summary : StructuredSummary)
  (source_text : str) (Hsettles : overview_settles summary source_text) :
  exists out : StructuredSummary,
    validate_structured_summary fuel summary source_text = Some out
    /\ length (overview_paragraphs out) = 3%nat
    /\ NoDup (map lower (overview_paragraphs out))
    /\ field_ok (lit "Definition") (key_definitions summary) (key_definitions out)
    /\ field_ok (lit "Concept") (core_concepts summary) (core_concepts out)
    /\ field_ok (lit "Example") (important_examples summary) (important_examples out)
    /\ field_ok (lit "Revision Point") (exam_revision_points summary)
                (exam_revision_points out).
Proof.
  unfold validate_structured_summary.
  fold (validated_concepts summary).
  set (given := dedupe_strings (overview_paragraphs summary)).
  set (rebuilt := build_three_paragraph_overview source_text (validated_concepts summary)).
  assert (Hov : exists overview,
             dedupe_strings (if len (firstn 3 given) <? 3 then rebuilt else firstn 3 given)
             = overview
             /\ length overview = 3%nat /\ NoDup (map lower overview)).
  { destruct (le_lt_dec 3 (length given)) as [Hge | Hlt].
    - assert (Hlen : length (firstn 3 given) = 3%nat)
        by (rewrite length_firstn; lia).
      replace (len (firstn 3 given) <? 3) with false
        by (symmetry; apply Z.ltb_ge; unfold len; lia).
      exists (firstn 3 given). split; [apply dedupe_strings_firstn_idem |].
      split; [exact Hlen |].
      pose proof (dedupe_strings_nodup (overview_paragraphs summary)) as Hnd.
      fold given in Hnd.
      rewrite <- (firstn_skipn 3 given), map_app in Hnd.
      now apply NoDup_app_remove_r in Hnd.
    - assert (Hlen : (length (firstn 3 given) < 3)%nat)
        by (rewrite length_firstn; lia).
      replace (len (firstn 3 given) <? 3) with true
        by (symmetry; apply Z.ltb_lt; unfold len; lia).
      destruct Hsettles as [Hge | Hthree]; [fold given in Hge; lia |].
      exists (dedupe_strings rebuilt).
      split; [reflexivity | split; [exact Hthree | apply dedupe_strings_nodup]]. }
  destruct Hov as [overview [-> [Hlen Hnd]]].
  rewrite (fill_overview_done fuel source_text (validated_concepts summary) overview Hlen).
  eexists. split; [reflexivity |]. cbn [overview_paragraphs key_definitions core_concepts
                                        important_examples exam_revision_points].
  split; [exact Hlen |]. split; [exact Hnd |].
  unfold validated_concepts.
  split; [apply ensure_item_range_ok; vm_compute; discriminate |].
  split; [apply ensure_item_range_ok; vm_compute; discriminate |].
  split; apply ensure_item_range_ok; vm_compute; discriminate.
Qed.

(** A candidate without an overview and with two long definitions that
    differ only after their 180th character, for an empty transcript. *)
Definition long_item (last : string) : str := repeat (chr 97) 181 ++ lit last.
Definition colliding_summary : StructuredSummary :=
  mkSummary [] [long_item "x"; long_item "y"] [] [] [].

Lemma validate_structured_summary_shape_witness :
  overview_settles colliding_summary []
  /\ exists out : StructuredSummary,
       validate_structured_summary 0 colliding_summary [] = Some out
       /\ length (overview_paragraphs out) = 3%nat.
Proof.
  assert (H : overview_settles colliding_summary [])
    by (right; vm_compute; reflexivity).
  split; [exact H |].
  destruct (validate_structured_summary_shape 0 colliding_summary [] H)
    as [out [Hout [Hlen _]]].
  exists out. split; [exact Hout | exact Hlen].
Defined.

(** C1 as stated fails: the two definitions are distinct, so neither is
    dropped, but both are shortened to the same 180 letters and three
    dots: the validated field holds two equal items, each 183 characters
    long. *)
Lemma validate_structured_summary_collision :
  exists out : StructuredSummary,
    validate_structured_summary 0 colliding_summary [] = Some out
    /\ nth 0 (key_definitions out) [] = nth 1 (key_definitions out) []
    /\ len (nth 0 (key_definitions out) []) = 183.
Proof.
  eexists. split; [vm_compute; reflexivity |].
  split; vm_compute; reflexivity.
Qed.

(** ** When the validator returns *)

Lemma append_missing_spec (generated overview : list str) :
  (length overview <= 3)%nat ->
  NoDup (map lower overview) ->
  (length (append_missing generated overview) <= 3)%nat
  /\ NoDup (map lower (append_missing generated overview)).
Proof.
  revert overview. induction generated as [| paragraph generated IH];
    intros overview Hlen Hnd; cbn [append_missing]; [now split |].
  destruct (len overview >=? 3) eqn:Hfull; [now split |].
  destruct (mem (lower paragraph) (map lower overview)) eqn:Hmem; [now apply IH |].
  apply IH.
  - rewrite Z.geb_leb in Hfull. apply Z.leb_gt in Hfull. unfold len in Hfull.
    rewrite length_app. simpl. lia.
  - rewrite map_app. simpl. apply NoDup_app; [exact Hnd | repeat constructor; tauto |].
    intros k Hk [<- | []]. apply mem_false in Hmem. contradiction.
Qed.

Lemma fill_overview_returns (fuel : nat) (source_text : str)
  (concepts overview result : list str) :
  (length overview <= 3)%nat ->
  NoDup (map lower overview) ->
  fill_overview fuel source_text concepts overview = Some result ->
  length result = 3%nat /\ NoDup (map lower result).
Proof.
  revert overview. induction fuel as [| fuel IH]; intros overview Hlen Hnd;
    cbn [fill_overview]; destruct (len overview <? 3) eqn:Hlt;
    try discriminate.
  - intros H. injection H as <-. apply Z.ltb_ge in Hlt. unfold len in Hlt.
    split; [lia | exact Hnd].
  - destruct (append_missing_spec
                (build_three_paragraph_overview source_text concepts) overview Hlen Hnd)
      as [Hlen' Hnd'].
    now apply IH.
  - intros H. injection H as <-. apply Z.ltb_ge in Hlt. unfold len in Hlt.
    split; [lia | exact Hnd].
Qed.

Lemma dedupe_loop_length (items seen : list str) :
  (length (dedupe_loop seen items) <= length items)%nat.
Proof.
  revert seen. induction items as [| item items IH]; intros seen; [simpl; lia |].
  cbn [dedupe_loop].
  destruct (negb (nonempty (normalize_ws item))).
  { specialize (IH seen). simpl. lia. }
  destruct (mem (lower (normalize_ws item)) seen).
  { specialize (IH seen). simpl. lia. }
  specialize (IH (lower (normalize_ws item) :: seen)). simpl. lia.
Qed.

Lemma build_three_paragraph_overview_length (source_text : str) (concepts : list str) :
  (length (build_three_paragraph_overview source_text concepts) <= 3)%nat.
Proof.
  unfold build_three_paragraph_overview.
  destruct (negb (nonempty (dedupe_strings (split_sentences source_text))));
    [simpl; lia |].
  repeat match goal with
         | |- context [let '(_, _) := ?x in _] => destruct x
         end.
  apply firstn_le_length.
Qed.

(** Whenever the validator returns, whatever the candidate and the
    transcript, the summary has exactly three overview paragraphs, no two
    equal in lower case, and its four fields are as C1 describes them. *)
Lemma validate_structured_summary_returns (fuel : nat) (summary out : StructuredSummary)
  (source_text : str) :
  validate_structured_summary fuel summary source_text = Some out ->
  length (overview_paragraphs out) = 3%nat
  /\ NoDup (map lower (overview_paragraphs out))
  /\ field_ok (lit "Definition") (key_definitions summary) (key_definitions out)
  /\ field_ok (lit "Concept") (core_concepts summary) (core_concepts out)
  /\ field_ok (lit "Example") (important_examples summary) (important_examples out)
  /\ field_ok (lit "Revision Point") (exam_revision_points summary)
              (exam_revision_points out).
Proof.
  unfold validate_structured_summary.
  fold (validated_concepts summary).
  set (given := firstn 3 (dedupe_strings (overview_paragraphs summary))).
  set (rebuilt := build_three_paragraph_overview source_text (validated_concepts summary)).
  set (start := dedupe_strings (if len given <? 3 then rebuilt else given)).
  assert (Hstart : (length start <= 3)%nat /\ NoDup (map lower start)).
  { split; [| apply dedupe_strings_nodup].
    subst start. unfold dedupe_strings.
    etransitivity; [apply dedupe_loop_length |].
    destruct (len given <? 3).
    - apply build_three_paragraph_overview_length.
    - apply firstn_le_length. }
  destruct Hstart as [Hlen Hnd].
  destruct (fill_overview fuel source_text (validated_concepts summary) start)
    as [overview |] eqn:Hfill; [| discriminate].
  intros H. injection H as <-.
  cbn [overview_paragraphs key_definitions core_concepts
       important_examples exam_revision_points].
  destruct (fill_overview_returns fuel source_text (validated_concepts summary)
              start overview Hlen Hnd Hfill) as [H3 Hnd3].
  split; [exact H3 |]. split; [exact Hnd3 |].
  unfold validated_concepts.
  split; [apply ensure_item_range_ok; vm_compute; discriminate |].
  split; [apply ensure_item_range_ok; vm_compute; discriminate |].
  split; apply ensure_item_range_ok; vm_compute; discriminate.
Qed.

(** A transcript of two sentences and a candidate with two concepts for
    which the rebuilt overview repeats a paragraph: the paragraph made of
    the two sentences and their closing sentence.  *)
Definition looping_source : str :=
  lit "The lecture can be revised effectively by linking theory to example-driven explanation. Paragraph 2 focus: XYZ".
Definition looping_summary : StructuredSummary :=
  mkSummary [] []
    [lit "First concept here";
     lit "XYZ Together, these points establish the lecture's foundational ideas and clarify the conceptual baseline for further study"]
    [] [].

(** On that input the last loop of the validator never adds a paragraph:
    whatever the fuel, the validator does not return. *)
Lemma validate_structured_summary_diverges (fuel : nat) :
  validate_structured_summary fuel looping_summary looping_source = None.
Proof.
  unfold validate_structured_summary.
  fold (validated_concepts looping_summary).
  set (concepts := validated_concepts looping_summary).
  set (rebuilt := build_three_paragraph_overview looping_source concepts).
  assert (Hgiven : (len (firstn 3 (dedupe_strings (overview_paragraphs looping_summary)))
                    <? 3) = true) by reflexivity.
  rewrite Hgiven.
  set (overview := dedupe_strings rebuilt).
  assert (Hlen : (length overview < 3)%nat) by (vm_compute; lia).
  assert (Hsame : append_missing rebuilt overview = overview)
    by (vm_compute; reflexivity).
  assert (Hloop : fill_overview fuel looping_source concepts overview = None).
  { induction fuel as [| fuel IH].
    - cbn [fill_overview].
      replace (len overview <? 3) with true
        by (symmetry; apply Z.ltb_lt; unfold len; lia).
      reflexivity.
    - rewrite fill_overview_step by exact Hlen.
      fold rebuilt. rewrite Hsame. exact IH. }
  now rewrite Hloop.
Qed.

End Validate.

(* ===================================================================== *)
(** * generate_mcqs (local_ai_service.py) *)
(* ===================================================================== *)

Section MCQs.
Import py schemas local_ai_service.

Lemma index_of_spec (x : str) (l : list str) :
  In x l ->
  exists i, index_of x l = Some i /\ 0 <= i < len l /\ nth (Z.to_nat i) l [] = x.
Proof.
  induction l as [| y l IH]; intros Hin; [destruct Hin |].
  cbn [index_of]. destruct (eqb y x) eqn:Hy.
  - apply eqb_eq in Hy as ->. exists 0. unfold len. simpl.
    split; [reflexivity | split; [lia | reflexivity]].
  - destruct Hin as [-> | Hin].
    + assert (Hrefl : eqb x x = true) by now apply eqb_eq. congruence.
    + destruct (IH Hin) as [i [Hi [Hbound Hnth]]]. rewrite Hi.
      exists (i + 1). unfold len in *. simpl length.
      split; [reflexivity | split; [lia |]].
      replace (Z.to_nat (i + 1)) with (S (Z.to_nat i)) by lia. exact Hnth.
Qed.

(** A distractor taken from the pool differs from the fact in lower case. *)
Definition differs (fact d : str) : Prop := lower d <> lower fact.

(** The pool entries that can stand beside [fact], shortened as the loop
    shortens them and in the order of the pool. *)
Definition candidates (pool : list str) (fact : str) : list str :=
  List.filter (fun option => negb (eqb (lower option) (lower fact)))
              (map (fun candidate => _shorten candidate 110) pool).

(** The three distractors of a question: the first three candidates, and
    the generic sentence in every place they leave empty. *)
Definition distractors_of (pool : list str) (fact : str) : list str :=
  firstn 3 (candidates pool fact)
    ++ repeat NOT_SUPPORTED (3 - length (candidates pool fact)).

Lemma pick_distractors_spec (fact : str) (pool acc : list str) :
  (length acc < 3)%nat ->
  pick_distractors fact pool acc = firstn 3 (acc ++ candidates pool fact).
Proof.
  revert acc. induction pool as [| candidate pool IH]; intros acc Hlen.
  { cbn [pick_distractors]. unfold candidates. cbn [map List.filter].
    rewrite app_nil_r. symmetry. apply firstn_all2. lia. }
  cbn [pick_distractors]. unfold candidates in *. cbn [map List.filter].
  destruct (eqb (lower (_shorten candidate 110)) (lower fact)) eqn:Hsame; cbn [negb].
  { now apply IH. }
  assert (Hlen' : length (acc ++ [_shorten candidate 110]) = S (length acc))
    by (rewrite length_app; simpl; lia).
  set (rest := List.filter _ (map _ pool)) in *.
  change (acc ++ _shorten candidate 110 :: rest)
    with (acc ++ [_shorten candidate 110] ++ rest).
  rewrite app_assoc.
  destruct (len (acc ++ [_shorten candidate 110]) >=? 3) eqn:Hfull.
  - rewrite Z.geb_leb in Hfull. apply Z.leb_le in Hfull.
    unfold len in Hfull. rewrite Hlen' in Hfull.
    rewrite firstn_app.
    replace (3 - length (acc ++ [_shorten candidate 110]))%nat with 0%nat by lia.
    cbn [firstn]. rewrite app_nil_r. symmetry. apply firstn_all2. lia.
  - rewrite Z.geb_leb in Hfull. apply Z.leb_gt in Hfull.
    unfold len in Hfull. rewrite Hlen' in Hfull.
    apply IH. lia.
Qed.

Lemma pad_distractors_spec (fuel : nat) (l : list str) :
  (3 - length l <= fuel)%nat ->
  pad_distractors fuel l = l ++ repeat NOT_SUPPORTED (3 - length l).
Proof.
  revert l. induction fuel as [| fuel IH]; intros l Hfuel.
  { cbn [pad_distractors]. replace (3 - length l)%nat with 0%nat by lia.
    cbn [repeat]. now rewrite app_nil_r. }
  cbn [pad_distractors]. destruct (len l <? 3) eqn:Hlt.
  - apply Z.ltb_lt in Hlt. unfold len in Hlt.
    rewrite IH by (rewrite length_app; simpl; lia).
    rewrite length_app. cbn [length].
    replace (3 - length l)%nat with (S (3 - (length l + 1)))%nat by lia.
    cbn [repeat]. now rewrite <- app_assoc.
  - apply Z.ltb_ge in Hlt. unfold len in Hlt.
    replace (3 - length l)%nat with 0%nat by lia.
    cbn [repeat]. now rewrite app_nil_r.
Qed.

(** The two loops together. *)
Lemma distractors_spec (fact : str) (pool : list str) :
  pad_distractors 3 (pick_distractors fact pool []) = distractors_of pool fact
  /\ length (distractors_of pool fact) = 3%nat.
Proof.
  rewrite pick_distractors_spec by (simpl; lia). cbn [app].
  rewrite pad_distractors_spec by lia.
  unfold distractors_of. rewrite length_app, repeat_length, !length_firstn.
  split; [f_equal; f_equal; lia | lia].
Qed.

(** Where a distractor comes from: it is a pool entry shortened to 110
    characters that differs from the fact in lower case, or it is the
    generic sentence, and then fewer than three pool entries qualify. *)
Definition distractor_origin (pool : list str) (fact d : str) : Prop :=
  (exists candidate,
      In candidate pool /\ d = _shorten candidate 110 /\ differs fact d)
  \/ (d = NOT_SUPPORTED /\ (length (candidates pool fact) < 3)%nat).

Lemma distractors_origin (fact : str) (pool : list str) :
  Forall (distractor_origin pool fact) (distractors_of pool fact).
Proof.
  unfold distractors_of. apply Forall_app. split; apply Forall_forall; intros d Hd.
  - left. apply in_firstn in Hd. unfold candidates in Hd.
    apply filter_In in Hd as [Hin Hne]. apply in_map_iff in Hin as [candidate [<- Hin]].
    exists candidate. split; [exact Hin | split; [reflexivity |]].
    unfold differs. intros Heq.
    assert (Hsame : eqb (lower (_shorten candidate 110)) (lower fact) = true)
      by now apply eqb_eq.
    rewrite Hsame in Hne. discriminate.
  - right. destruct (3 - length (candidates pool fact))%nat eqn:Hk; [destruct Hd |].
    apply repeat_spec in Hd. split; [exact Hd | lia].
Qed.

(** The options of question [index]: the fact and its three distractors,
    rotated by [index mod 4]; the index recorded points at the fact. *)
Definition mcq_ok (pool : list str) (index : Z) (item : MCQItem) : Prop :=
  exists d0 d1 d2 : str,
    [d0; d1; d2] = distractors_of pool (fact_of pool index)
    /\ Forall (distractor_origin pool (fact_of pool index)) [d0; d1; d2]
    /\ options item
       = slice_from (index mod 4) [fact_of pool index; d0; d1; d2]
           ++ slice_to (index mod 4) [fact_of pool index; d0; d1; d2]
    /\ length (options item) = 4%nat
    /\ 0 <= correct_index item <= 3
    /\ nth (Z.to_nat (correct_index item)) (options item) [] = fact_of pool index.

Lemma mcq_for_ok (pool : list str) (index : Z) :
  index = 0 \/ index = 1 \/ index = 2 \/ index = 3 \/ index = 4 ->
  exists item, mcq_for pool index = Some item /\ mcq_ok pool index item.
Proof.
  intros Hindex. unfold mcq_for, mcq_ok.
  set (fact := fact_of pool index).
  destruct (distractors_spec fact pool) as [Hloops Hthree].
  pose proof (distractors_origin fact pool) as Hall.
  rewrite Hloops.
  destruct (distractors_of pool fact)
    as [| d0 [| d1 [| d2 [| d3 rest]]]]; try discriminate Hthree.
  cbn [nth].
  set (base := [fact; d0; d1; d2]).
  set (rotated := slice_from (index mod 4) base ++ slice_to (index mod 4) base).
  assert (Hrot : length rotated = 4%nat /\ In fact rotated).
  { subst rotated base.
    destruct Hindex as [-> | [-> | [-> | [-> | ->]]]];
      (split; [reflexivity | cbn [slice_from slice_to]; simpl; tauto]). }
  destruct Hrot as [Hlen Hin].
  destruct (index_of_spec fact rotated Hin) as [i [Hi [Hbound Hnth]]].
  rewrite Hi. unfold MCQItem_new, len in *. rewrite Hlen in *.
  replace (0 <=? i) with true by (symmetry; apply Z.leb_le; lia).
  replace (i <=? 3) with true by (symmetry; apply Z.leb_le; lia).
  cbn [Z.eqb Z.of_nat Pos.of_succ_nat Pos.succ Pos.eqb andb].
  eexists. split; [reflexivity |].
  exists d0, d1, d2. cbn [options correct_index].
  split; [reflexivity |]. split; [exact Hall |]. split; [reflexivity |].
  split; [exact Hlen |]. split; [lia | exact Hnth].
Qed.

(** C3, as the code has it.  For every summary and every list of context
    chunks, given or not, the offline [generate_mcqs] returns exactly five
    items; the item of question [index] has exactly four options, which
    are the fact chosen for the question and three distractors rotated by
    [index mod 4]; its [correct_index] lies between 0 and 3 and the
    option at that index is the fact.  The three distractors are the
    first three pool entries, in pool order and shortened to 110
    characters, that differ from the fact in lower case; the generic
    sentence fills the places left when fewer than three entries
    qualify, and only then.  The distractors need not differ from one
    another. *)
Theorem generate_mcqs_shape (summary : StructuredSummary)
  (context_chunks : option (list str)) :
  exists q0 q1 q2 q3 q4 : MCQItem,
    generate_mcqs summary context_chunks = Some [q0; q1; q2; q3; q4]
    /\ mcq_ok (mcq_pool summary context_chunks) 0 q0
    /\ mcq_ok (mcq_pool summary context_chunks) 1 q1
    /\ mcq_ok (mcq_pool summary context_chunks) 2 q2
    /\ mcq_ok (mcq_pool summary context_chunks) 3 q3
    /\ mcq_ok (mcq_pool summary context_chunks) 4 q4.
Proof.
  unfold generate_mcqs.
  set (pool := mcq_pool summary context_chunks).
  destruct (mcq_for_ok pool 0 ltac:(auto)) as [q0 [E0 H0]].
  destruct (mcq_for_ok pool 1 ltac:(auto)) as [q1 [E1 H1]].
  destruct (mcq_for_ok pool 2 ltac:(auto)) as [q2 [E2 H2]].
  destruct (mcq_for_ok pool 3 ltac:(auto 6)) as [q3 [E3 H3]].
  destruct (mcq_for_ok pool 4 ltac:(auto 6)) as [q4 [E4 H4]].
  exists q0, q1, q2, q3, q4.
  cbn [map all_some]. rewrite E0, E1, E2, E3, E4. cbn [all_some].
  repeat (split; [assumption || reflexivity |]). assumption.
Qed.

(** A summary with one populated field. *)
Definition one_concept_summary : StructuredSummary :=
  mkSummary [] [] [lit "Gradient descent minimises a loss function."] [] [].

(** C3 as stated fails on the uniqueness of the options: with a pool of
    one fact there is no distractor to take, the generic sentence pads
    all three places, and the options of the first question repeat it. *)
Lemma generate_mcqs_repeats_options :
  exists q0 rest,
    generate_mcqs one_concept_summary None = Some (q0 :: rest)
    /\ options q0
       = [lit "Gradient descent minimises a loss function.";
          NOT_SUPPORTED; NOT_SUPPORTED; NOT_SUPPORTED]
    /\ ~ NoDup (options q0).
Proof.
  eexists. eexists. split; [vm_compute; reflexivity |].
  split; [reflexivity |].
  cbn [options]. intros Hnd.
  inversion Hnd as [| ? ? _ Hnd1]; subst.
  inversion Hnd1 as [| ? ? Hnotin _]; subst.
  apply Hnotin. now left.
Qed.

End MCQs.

(* ===================================================================== *)
(** * select_top_chunks_for_query (pipeline_utils.py) *)
(* ===================================================================== *)

Section Retrieval.
Import py pipeline_utils.

Lemma slice_to_nonneg {A : Type} (n : Z) (l : list A) :
  0 <= n -> slice_to n l = firstn (Z.to_nat (Z.min n (len l))) l.
Proof.
  intros Hn. unfold slice_to, len.
  replace (0 <=? n) with true by (symmetry; now apply Z.leb_le).
  destruct (Z.le_ge_cases n (Z.of_nat (length l))) as [Hle | Hge].
  - now rewrite Z.min_l.
  - rewrite Z.min_r by lia. rewrite Nat2Z.id.
    rewrite firstn_all. apply firstn_all2. lia.
Qed.

Lemma insert_desc_In {A K : Type} (key : A -> K) (geb : K -> K -> bool)
  (x y : A) (l : list A) :
  In y (insert_desc key geb x l) <-> y = x \/ In y l.
Proof.
  induction l as [| z l IH]; simpl; [intuition congruence |].
  destruct (geb (key z) (key x)); simpl; [rewrite IH |]; intuition congruence.
Qed.

Lemma sort_desc_In {A K : Type} (key : A -> K) (geb : K -> K -> bool)
  (y : A) (l : list A) :
  In y (sort_desc key geb l) <-> In y l.
Proof.
  unfold sort_desc.
  assert (H : forall acc, In y (fold_left (fun acc x => insert_desc key geb x acc) l acc)
                          <-> In y l \/ In y acc).
  { induction l as [| x l IH]; intros acc; simpl; [tauto |].
    rewrite IH, insert_desc_In. intuition congruence. }
  rewrite H. simpl. tauto.
Qed.

(** The chunk has a score and the score is above zero. *)
Definition scores_positive (query_tokens : list str) (chunk : str) : Prop :=
  exists score, chunk_score query_tokens chunk = Some score
                /\ PrimFloat.ltb 0 score = true.

Lemma rank_chunks_In (query_tokens : list str) (chunks : list str) (score : float)
  (chunk : str) :
  In (score, chunk) (rank_chunks query_tokens chunks)
  <-> In chunk chunks /\ chunk_score query_tokens chunk = Some score
      /\ PrimFloat.ltb 0 score = true.
Proof.
  unfold rank_chunks. rewrite in_flat_map. split.
  - intros [c [Hc Hin]].
    destruct (chunk_score query_tokens c) as [s |] eqn:Hs; [| destruct Hin].
    destruct (PrimFloat.ltb 0 s) eqn:Hpos; [| destruct Hin].
    destruct Hin as [Heq | []]. injection Heq as -> ->. auto.
  - intros [Hc [Hs Hpos]]. exists chunk. split; [exact Hc |].
    rewrite Hs, Hpos. now left.
Qed.

Lemma rank_chunks_nil (query_tokens : list str) (chunks : list str) :
  rank_chunks query_tokens chunks = []
  <-> forall chunk, In chunk chunks -> ~ scores_positive query_tokens chunk.
Proof.
  split.
  - intros Hnil chunk Hin [score [Hs Hpos]].
    assert (H : In (score, chunk) (rank_chunks query_tokens chunks))
      by now apply rank_chunks_In.
    rewrite Hnil in H. destruct H.
  - intros Hnone.
    destruct (rank_chunks query_tokens chunks) as [| [score chunk] rest] eqn:Hr;
      [reflexivity |].
    assert (H : In (score, chunk) (rank_chunks query_tokens chunks))
      by (rewrite Hr; now left).
    apply rank_chunks_In in H as [Hin [Hs Hpos]].
    exfalso. apply (Hnone chunk Hin). now exists score.
Qed.

(** C5.  For a list of chunks that is not empty and a count [top_k] that
    is not negative, the function returns at most [top_k] chunks, all of
    them from the list.  When the query has no token left after the
    stopwords are removed, or no chunk scores above zero, it returns the
    first [min(top_k, len(chunks))] chunks in their order; otherwise every
    chunk it returns scores above zero. *)
Theorem select_top_chunks_for_query_spec (query : str) (chunks : list str) (top_k : Z)
  (Hchunks : chunks <> []) (Htop : 0 <= top_k) :
  let out := select_top_chunks_for_query query chunks top_k in
  len out <= top_k
  /\ (forall chunk, In chunk out -> In chunk chunks)
  /\ (content_tokens query = []
      \/ (forall chunk, In chunk chunks -> ~ scores_positive (content_tokens query) chunk)
      -> out = firstn (Z.to_nat (Z.min top_k (len chunks))) chunks)
  /\ (content_tokens query <> []
      /\ (exists chunk, In chunk chunks /\ scores_positive (content_tokens query) chunk)
      -> forall chunk, In chunk out -> scores_positive (content_tokens query) chunk).
Proof.
  intros out. subst out. unfold select_top_chunks_for_query.
  replace (nonempty chunks) with true by (symmetry; now apply nonempty_true).
  cbn [negb].
  set (query_tokens := content_tokens query).
  set (ranked := rank_chunks query_tokens chunks).
  assert (Hfirst : len (slice_to top_k chunks) <= top_k
                   /\ (forall chunk, In chunk (slice_to top_k chunks) -> In chunk chunks)
                   /\ slice_to top_k chunks
                      = firstn (Z.to_nat (Z.min top_k (len chunks))) chunks).
  { split; [now apply slice_to_length |]. split.
    - intros chunk. destruct (slice_to_firstn top_k chunks) as [k ->]. apply in_firstn.
    - now apply slice_to_nonneg. }
  destruct Hfirst as [Hlen [Hsub Heq]].
  destruct (nonempty query_tokens) eqn:Hq; cbn [negb].
  2:{ apply nonempty_false in Hq.
      split; [exact Hlen |]. split; [exact Hsub |].
      split; [intros _; exact Heq |].
      intros [Hne _]. contradiction. }
  apply nonempty_true in Hq.
  destruct (nonempty ranked) eqn:Hr; cbn [negb].
  2:{ apply nonempty_false in Hr.
      split; [exact Hlen |]. split; [exact Hsub |].
      split; [intros _; exact Heq |].
      intros [_ [chunk [Hin Hpos]]]. exfalso.
      apply (proj1 (rank_chunks_nil query_tokens chunks) Hr chunk Hin Hpos). }
  apply nonempty_true in Hr.
  set (sorted := sort_desc fst (fun a b => PrimFloat.leb b a) ranked).
  assert (Hin : forall chunk, In chunk (map snd (slice_to top_k sorted)) ->
                              In chunk chunks /\ scores_positive query_tokens chunk).
  { intros chunk H. apply in_map_iff in H as [[score c] [Hc H]]. simpl in Hc. subst c.
    destruct (slice_to_firstn top_k sorted) as [k Hk]. rewrite Hk in H.
    apply in_firstn in H. apply sort_desc_In in H.
    apply rank_chunks_In in H as [H1 [H2 H3]].
    split; [exact H1 | now exists score]. }
  split.
  { pose proof (slice_to_length top_k sorted Htop) as H.
    unfold len in *. now rewrite length_map. }
  split; [intros chunk H; now apply Hin |].
  split.
  - intros [Hnil | Hnone]; [contradiction |].
    exfalso. apply Hr. now apply rank_chunks_nil.
  - intros _ chunk H. now apply Hin.
Qed.

(** Three chunks and a query that two of them answer. *)
Definition demo_chunks : list str :=
  [lit "cats and dogs"; lit "Neural networks learn features";
   lit "a network is a graph, networks learn"].

Lemma select_top_chunks_for_query_spec_witness :
  demo_chunks <> [] /\ 0 <= 2
  /\ len (select_top_chunks_for_query (lit "neural networks learn") demo_chunks 2) <= 2
  /\ (content_tokens (lit "what is this about") = []
      /\ select_top_chunks_for_query (lit "what is this about") demo_chunks 2
         = [lit "cats and dogs"; lit "Neural networks learn features"])
  /\ (content_tokens (lit "neural networks learn") <> []
      /\ scores_positive (content_tokens (lit "neural networks learn"))
                         (lit "Neural networks learn features")
      /\ forall chunk,
           In chunk (select_top_chunks_for_query (lit "neural networks learn")
                       demo_chunks 2) ->
           scores_positive (content_tokens (lit "neural networks learn")) chunk).
Proof.
  assert (H1 : demo_chunks <> []) by discriminate.
  assert (H2 : 0 <= 2) by lia.
  assert (Hstop : content_tokens (lit "what is this about") = [])
    by (vm_compute; reflexivity).
  assert (Hq : content_tokens (lit "neural networks learn") <> [])
    by (vm_compute; discriminate).
  assert (Hpos : scores_positive (content_tokens (lit "neural networks learn"))
                                 (lit "Neural networks learn features"))
    by (eexists; split; vm_compute; reflexivity).
  split; [exact H1 | split; [exact H2 |]].
  split.
  { exact (proj1 (select_top_chunks_for_query_spec (lit "neural networks learn")
                    demo_chunks 2 H1 H2)). }
  split.
  { split; [exact Hstop |].
    exact (proj1 (proj2 (proj2 (select_top_chunks_for_query_spec
                                  (lit "what is this about") demo_chunks 2 H1 H2)))
                 (or_introl Hstop)). }
  split; [exact Hq | split; [exact Hpos |]].
  apply (proj2 (proj2 (proj2 (select_top_chunks_for_query_spec
                                (lit "neural networks learn") demo_chunks 2 H1 H2)))).
  split; [exact Hq |].
  exists (lit "Neural networks learn features").
  split; [right; left; reflexivity | exact Hpos].
Defined.

End Retrieval.

(* ===================================================================== *)
(** * The offline solver (local_ai_service.py) *)
(* ===================================================================== *)

Section Solver.
Import py num local_ai_service.

(** C6.  On "2+2" the offline solver returns, with or without an image
    attached, the three-step explanation ending in "Final value = 4".  On
    "10/(2-2)" the evaluator raises [ZeroDivisionError], the arithmetic
    branch answers [None], and the solver returns normally with the
    generic framework text, in which neither "inf" nor "nan" occurs. *)
Theorem solver_chat_arithmetic :
  (forall image_data_url : option str,
     exists text,
       solver_chat (lit "2+2") image_data_url = Ret text
       /\ endswith (lit "Final value = 4") text = true)
  /\ solver_chat (lit "2+2") None
     = Ret (lit "Step-by-step:" ++ [LF] ++ lit "1. Expression recognized: 2+2" ++ [LF]
              ++ lit "2. Evaluate by operator precedence." ++ [LF]
              ++ lit "3. Final value = 4")
  /\ _safe_eval (lit "10/(2-2)") = Raise "ZeroDivisionError"
  /\ _solve_arithmetic (lit "10/(2-2)") = Ret None
  /\ (forall image_data_url : option str,
        exists text,
          solver_chat (lit "10/(2-2)") image_data_url = Ret text
          /\ endswith FRAMEWORK text = true
          /\ contains (lit "inf") (lower text) = false
          /\ contains (lit "nan") (lower text) = false).
Proof.
  split.
  { intros [[| c url] |]; eexists; (split; [vm_compute; reflexivity |]);
      vm_compute; reflexivity. }
  split; [vm_compute; reflexivity |].
  split; [vm_compute; reflexivity |].
  split; [vm_compute; reflexivity |].
  intros [[| c url] |]; eexists; (split; [vm_compute; reflexivity |]);
    (split; [vm_compute; reflexivity |]); split; vm_compute; reflexivity.
Qed.

(** C7.  On "2x+3=9" the linear solver reads a = 2.0, b = 3.0, c = 9.0
    and derives x = 3; on "0x+5=9" the coefficient of x is zero and the
    answer is the message that the equation has no single linear
    solution.  [solver_chat] returns the same two answers. *)
Theorem solve_linear_equation_examples :
  _solve_linear_equation (lit "2x+3=9")
  = Some (lit "Linear equation solution:" ++ [LF]
            ++ lit "1. Standard form: 2.0x + (3.0) = 9.0" ++ [LF]
            ++ lit "2. Rearranged: 2.0x = 6.0" ++ [LF]
            ++ lit "3. x = 3")
  /\ _solve_linear_equation (lit "0x+5=9")
     = Some (lit "This equation has no single linear solution because coefficient of x is zero.")
  /\ solver_chat (lit "2x+3=9") None = Ret (lit "Linear equation solution:" ++ [LF]
            ++ lit "1. Standard form: 2.0x + (3.0) = 9.0" ++ [LF]
            ++ lit "2. Rearranged: 2.0x = 6.0" ++ [LF]
            ++ lit "3. x = 3")
  /\ solver_chat (lit "0x+5=9") None = Ret NO_SINGLE_SOLUTION.
Proof.
  repeat split; vm_compute; reflexivity.
Qed.

End Solver.

(* ===================================================================== *)
(** * The multi-pass protocol of the two adapters *)
(* ===================================================================== *)

Section MultiPass.
Import py schemas adapters.

Variable W : Type.
Variable backend : str -> float -> W -> option str * W.
Variable json_loads : str -> option json.
Variable py_str : json -> str.
Variable build_summary_prompt : str -> str.
Variable build_summary_chunk_prompt : str -> Z -> Z -> str.
Variable build_summary_reduce_prompt : list json -> str.
Variable build_summary_synthesis_prompt : json -> str -> str.
Variable build_summary_validation_prompt : json -> json -> str.

Let generate_json := _generate_json backend json_loads.
Let chunks_of := chunk_pass backend json_loads build_summary_chunk_prompt.

(** One round of the chunk loop: when the model's answer decodes, the
    loop goes on, with the note added if it is an object and with the
    notes unchanged if it is not. *)
Lemma chunk_pass_step (who : adapter) (chunk : str) (chunks : list str)
  (index total : Z) (notes : list json) (v : json) (st st1 : W * list (request)) :
  generate_json who (build_summary_chunk_prompt chunk index total) 0.2%float st
    = (Ok v, st1) ->
  chunks_of who (chunk :: chunks) index total notes st
  = chunks_of who chunks (index + 1) total
      (if is_dict v then notes ++ [v] else notes) st1.
Proof.
  intros H. unfold chunks_of, generate_json in *. cbn [chunk_pass].
  unfold bindM at 1. now rewrite H.
Qed.

(** Gemini: with chunks given and no note kept, the protocol falls back
    to the single-shot call on the cleaned transcript. *)
Lemma gemini_falls_back_without_notes (transcript : str) (st st1 : W * list request) :
  let cleaned := pipeline_utils.clean_transcript_text transcript 120000 in
  let chunks := pipeline_utils.split_into_chunks cleaned 2500 240 10 in
  chunks <> [] ->
  chunks_of Gemini chunks 1 (len chunks) [] st = (Ok [], st1) ->
  GeminiService__multi_pass_summary backend json_loads build_summary_prompt
    build_summary_chunk_prompt build_summary_reduce_prompt
    build_summary_synthesis_prompt build_summary_validation_prompt transcript st
  = bindM (single_shot backend json_loads build_summary_prompt Gemini cleaned)
          (fun fallback => ret (dict_or fallback (JDict []))) st1.
Proof.
  intros cleaned chunks Hne Hnotes. unfold GeminiService__multi_pass_summary.
  fold cleaned. fold chunks.
  replace (pipeline_utils.nonempty chunks) with true
    by (symmetry; now apply nonempty_true).
  cbn [negb]. unfold bindM at 1. unfold chunks_of in Hnotes. rewrite Hnotes.
  reflexivity.
Qed.

(** Ollama: in the same situation the protocol goes on to the reduce
    request, with the empty list of notes. *)
Lemma ollama_reduces_without_notes (enabled : bool) (fuel : nat) (transcript : str)
  (st st1 : W * list request) :
  let cleaned := pipeline_utils.clean_transcript_text transcript 120000 in
  let chunks := pipeline_utils.split_into_chunks cleaned 2400 200 8 in
  chunks <> [] ->
  chunks_of (Ollama enabled) chunks 1 (len chunks) [] st = (Ok [], st1) ->
  OllamaService_summarize backend json_loads py_str build_summary_prompt
    build_summary_chunk_prompt build_summary_reduce_prompt
    build_summary_synthesis_prompt build_summary_validation_prompt
    enabled fuel transcript st
  = bindM
      (bindM (generate_json (Ollama enabled) (build_summary_reduce_prompt []) 0.2%float)
         (fun reduced_data =>
            let reduced := dict_or reduced_data (JDict []) in
            bindM (generate_json (Ollama enabled)
                     (build_summary_synthesis_prompt reduced cleaned) 0.2%float)
              (fun candidate_data =>
                 let candidate := dict_or candidate_data reduced in
                 bindM (generate_json (Ollama enabled)
                          (build_summary_validation_prompt candidate reduced) 0.1%float)
                   (fun validated_data => ret (dict_or validated_data candidate)))))
      (fun final_data => validated py_str fuel final_data cleaned) st1.
Proof.
  intros cleaned chunks Hne Hnotes. unfold OllamaService_summarize.
  fold cleaned. fold chunks.
  replace (pipeline_utils.nonempty chunks) with true
    by (symmetry; now apply nonempty_true).
  cbn [negb]. unfold OllamaService_summarize_data.
  unfold bindM at 1. unfold bindM at 1.
  unfold chunks_of in Hnotes. rewrite Hnotes. reflexivity.
Qed.

End MultiPass.

(** ** A model that answers every request with an empty JSON array *)

Module array_model.
Import py schemas adapters.

Definition backend (prompt : str) (temperature : float) (w : unit) : option str * unit :=
  (Some (lit "[]"), w).

(** [json.loads] on the one text this model produces. *)
Definition json_loads (payload : str) : option json :=
  if eqb payload (lit "[]") then Some (JList []) else None.

Definition py_str (v : json) : str :=
  match v with JStr s => s | _ => [] end.

(** Prompts reduced to a tag and what they are built from. *)
Definition build_summary_prompt (transcript : str) : str := lit "summary:" ++ transcript.
Definition build_summary_chunk_prompt (chunk : str) (index total : Z) : str :=
  lit "chunk " ++ str_of_Z index ++ lit "/" ++ str_of_Z total ++ lit ":" ++ chunk.
Definition build_summary_reduce_prompt (notes : list json) : str :=
  lit "reduce " ++ str_of_Z (len notes) ++ lit " notes".
Definition build_summary_synthesis_prompt (reduced : json) (excerpt : str) : str :=
  lit "synthesis:" ++ excerpt.
Definition build_summary_validation_prompt (candidate reduced : json) : str :=
  lit "validation".

Definition transcript : str := lit "Gradient descent minimises a loss function.".

Definition gemini_run : res json * (unit * list request) :=
  GeminiService__multi_pass_summary backend json_loads build_summary_prompt
    build_summary_chunk_prompt build_summary_reduce_prompt
    build_summary_synthesis_prompt build_summary_validation_prompt
    transcript (tt, []).

Definition ollama_run : res StructuredSummary * (unit * list request) :=
  OllamaService_summarize backend json_loads py_str build_summary_prompt
    build_summary_chunk_prompt build_summary_reduce_prompt
    build_summary_synthesis_prompt build_summary_validation_prompt
    true 1 transcript (tt, []).

(** The prompts sent during a run, oldest first. *)
Definition prompts_sent {A : Type} (run : res A * (unit * list request)) : list str :=
  map fst (snd (snd run)).

Definition returned {A : Type} (run : res A * (unit * list request)) : bool :=
  match fst run with Ok _ => true | _ => false end.

End array_model.

(** C8 at a transcript of one chunk and a model whose every answer is
    the JSON array "[]": no chunk note is an object, so none is kept.
    The Gemini protocol then sends the single-shot summary prompt for
    the whole cleaned transcript.  The Ollama protocol returns as well,
    but it never sends that prompt: it sends the reduce prompt built
    from zero notes, then the synthesis and the validation prompts. *)
Theorem multi_pass_without_notes :
  array_model.returned array_model.gemini_run = true
  /\ array_model.prompts_sent array_model.gemini_run
     = [py.lit "chunk 1/1:Gradient descent minimises a loss function.";
        py.lit "summary:Gradient descent minimises a loss function."]
  /\ array_model.returned array_model.ollama_run = true
  /\ array_model.prompts_sent array_model.ollama_run
     = [py.lit "chunk 1/1:Gradient descent minimises a loss function.";
        py.lit "reduce 0 notes";
        py.lit "synthesis:Gradient descent minimises a loss function.";
        py.lit "validation"].
Proof.
  repeat split; vm_compute; reflexivity.
Qed.

(* ===================================================================== *)
(** * Further properties of the text utilities (pipeline_utils.py) *)
(* ===================================================================== *)

Section TextUtilities.
Import py pipeline_utils.

Lemma dedupe_loop_complete (items seen : list str) (item : str) :
  In item items -> normalize_ws item <> [] ->
  In (lower (normalize_ws item)) seen
  \/ In (lower (normalize_ws item)) (map lower (dedupe_loop seen items)).
Proof.
  revert seen. induction items as [| x items IH]; intros seen Hin Hne; [destruct Hin |].
  cbn [dedupe_loop].
  destruct Hin as [-> | Hin].
  - destruct (nonempty (normalize_ws item)) eqn:Hn.
    2:{ apply nonempty_false in Hn. contradiction. }
    cbn [negb]. destruct (mem (lower (normalize_ws item)) seen) eqn:Hmem.
    + left. now apply mem_In.
    + right. now left.
  - destruct (negb (nonempty (normalize_ws x))); [now apply IH |].
    destruct (mem (lower (normalize_ws x)) seen) eqn:Hmem; [now apply IH |].
    destruct (IH (lower (normalize_ws x) :: seen) Hin Hne) as [[Heq | Hs] | Hr].
    + right. left. exact Heq.
    + now left.
    + right. now right.
Qed.

(** X1. [dedupe_strings] returns no two items that are equal in lower
    case and never more items than it was given; every item returned is
    the whitespace-normalized form of an item given, is not empty and has
    neither doubled nor outer whitespace; and every item given that is
    not blank is represented, in lower case, in the result. *)
Theorem dedupe_strings_spec (items : list str) :
  NoDup (map lower (dedupe_strings items))
  /\ (length (dedupe_strings items) <= length items)%nat
  /\ Forall (fun v => normal v /\ v <> []
                      /\ exists item, In item items /\ v = normalize_ws item)
            (dedupe_strings items)
  /\ (forall item, In item items -> normalize_ws item <> [] ->
        In (lower (normalize_ws item)) (map lower (dedupe_strings items))).
Proof.
  split; [apply dedupe_strings_nodup |].
  split; [apply dedupe_loop_length |].
  split.
  - eapply Forall_impl; [| apply (dedupe_loop_spec items [])].
    intros v [Hn [Hv [_ He]]]. now split.
  - intros item Hin Hne.
    destruct (dedupe_loop_complete items [] item Hin Hne) as [[] | H]. exact H.
Qed.

(** X2. [dedupe_strings] is idempotent, and so is it after a cut: the
    first [n] items of a de-duplicated list are left as they are. *)
Theorem dedupe_strings_idempotent (items : list str) (n : nat) :
  dedupe_strings (dedupe_strings items) = dedupe_strings items
  /\ dedupe_strings (firstn n (dedupe_strings items)) = firstn n (dedupe_strings items).
Proof.
  split; [| apply dedupe_strings_firstn_idem].
  unfold dedupe_strings at 1. apply dedupe_loop_id.
  - apply dedupe_strings_normal.
  - apply dedupe_strings_nodup.
  - intros v _ [].
Qed.

Lemma slice_to_prefix {A : Type} (n : Z) (l : list A) :
  exists rest, l = slice_to n l ++ rest.
Proof.
  destruct (slice_to_firstn n l) as [k ->]. exists (skipn k l).
  symmetry. apply firstn_skipn.
Qed.

Lemma rsplit1_head_prefix (s : str) : exists rest, s = rsplit1_head s ++ rest.
Proof.
  destruct (rsplit1_head_spec s) as [[-> _] | [tail [Heq _]]].
  - exists []. now rewrite app_nil_r.
  - now exists (SP :: tail).
Qed.

(** X3. [_shorten], in both modules that define it: for a limit that is
    not negative the result has at most [max_chars + 3] characters; a
    text whose normalized form fits is returned in that form; a longer
    one gives a prefix of the normalized form, of at most [max_chars]
    characters, followed by three dots. *)
Theorem shorten_spec (text : str) (max_chars : Z) (Hmax : 0 <= max_chars) :
  local_ai_service._shorten text max_chars = _shorten text max_chars
  /\ len (_shorten text max_chars) <= max_chars + 3
  /\ (len (normalize_ws text) <= max_chars -> _shorten text max_chars = normalize_ws text)
  /\ (max_chars < len (normalize_ws text) ->
      exists kept rest,
        _shorten text max_chars = kept ++ lit "..."
        /\ normalize_ws text = kept ++ rest
        /\ len kept <= max_chars).
Proof.
  split; [reflexivity |].
  split; [now apply shorten_length |].
  unfold _shorten. split.
  - intros Hfit. apply Z.leb_le in Hfit. now rewrite Hfit.
  - intros Hlong. apply Z.leb_gt in Hlong. rewrite Hlong.
    set (value := normalize_ws text).
    destruct (slice_to_prefix max_chars value) as [rest1 H1].
    destruct (rsplit1_head_prefix (slice_to max_chars value)) as [rest2 H2].
    exists (rsplit1_head (slice_to max_chars value)), (rest2 ++ rest1).
    split; [reflexivity |]. split.
    + rewrite app_assoc, <- H2. exact H1.
    + pose proof (slice_to_length max_chars value Hmax) as Hs.
      pose proof (rsplit1_head_length (slice_to max_chars value)) as Hr.
      unfold len in *. lia.
Qed.

Lemma shorten_spec_witness :
  0 <= 10
  /\ _shorten (lit "gradient   descent  converges") 10 = lit "gradient..."
  /\ len (_shorten (lit "gradient   descent  converges") 10) <= 10 + 3.
Proof.
  assert (Hmax : 0 <= 10) by lia.
  split; [exact Hmax |]. split; [vm_compute; reflexivity |].
  exact (proj1 (proj2 (shorten_spec (lit "gradient   descent  converges") 10 Hmax))).
Defined.

(** X4. [clean_transcript_text]: for a limit that is not negative the
    cleaned text has at most [max_chars + 23] characters (the limit and
    the marker " [Transcript truncated]"); a blank text gives the empty
    text; and a text that is not blank and whose normalized form fits is
    returned in that form, without the marker. *)
Theorem clean_transcript_text_length (text : str) (max_chars : Z) (Hmax : 0 <= max_chars) :
  len (clean_transcript_text text max_chars) <= max_chars + 23
  /\ (strip text = [] -> clean_transcript_text text max_chars = [])
  /\ (len (normalized text) <= max_chars -> strip text <> [] ->
      clean_transcript_text text max_chars = normalized text).
Proof.
  rewrite clean_transcript_text_eq. split; [| split].
  - destruct (negb (nonempty (strip text))); [unfold len; simpl; lia |].
    destruct (len (normalized text) >? max_chars) eqn:Hcut.
    + pose proof (slice_to_length max_chars (normalized text) Hmax) as Hs.
      unfold len in *. rewrite length_app.
      change (length TRUNCATED) with 23%nat. lia.
    + rewrite Z.gtb_ltb in Hcut. apply Z.ltb_ge in Hcut. lia.
  - intros ->. reflexivity.
  - intros Hfit Hne. apply nonempty_true in Hne. rewrite Hne. cbn [negb].
    replace (len (normalized text) >? max_chars) with false; [reflexivity |].
    symmetry. rewrite Z.gtb_ltb. now apply Z.ltb_ge.
Qed.

Lemma clean_transcript_text_length_witness :
  0 <= 12
  /\ clean_transcript_text (lit " [music] Gradient   descent (see 12:30) converges ") 12
     = lit "Gradient des [Transcript truncated]"
  /\ len (clean_transcript_text
            (lit " [music] Gradient   descent (see 12:30) converges ") 12) <= 12 + 23.
Proof.
  assert (Hmax : 0 <= 12) by lia.
  split; [exact Hmax |]. split; [vm_compute; reflexivity |].
  exact (proj1 (clean_transcript_text_length
                  (lit " [music] Gradient   descent (see 12:30) converges ") 12 Hmax)).
Defined.

Lemma pad_paragraphs_length (fuel : nat) (concepts_clean paragraphs : list str) :
  length (pad_paragraphs fuel concepts_clean paragraphs)
  = Nat.max (length paragraphs) (Nat.min 3 (length paragraphs + fuel)).
Proof.
  revert paragraphs. induction fuel as [| fuel IH]; intros paragraphs;
    cbn [pad_paragraphs]; [lia |].
  destruct (len paragraphs <? 3) eqn:Hlt.
  - apply Z.ltb_lt in Hlt. unfold len in Hlt. rewrite IH, length_app. cbn [length]. lia.
  - apply Z.ltb_ge in Hlt. unfold len in Hlt. lia.
Qed.

(** X5. [build_three_paragraph_overview] returns exactly three
    paragraphs for every source text and every list of concepts, the
    empty ones included. *)
Theorem build_three_paragraph_overview_three (source_text : str) (concepts : list str) :
  length (build_three_paragraph_overview source_text concepts) = 3%nat.
Proof.
  unfold build_three_paragraph_overview.
  destruct (negb (nonempty (dedupe_strings (split_sentences source_text))));
    [reflexivity |].
  repeat match goal with
         | |- context [let '(_, _) := ?x in _] => destruct x
         end.
  rewrite length_firstn, pad_paragraphs_length. lia.
Qed.

Lemma append_missing_extends (generated overview : list str) :
  forall k, In k (map lower overview) ->
            In k (map lower (append_missing generated overview)).
Proof.
  revert overview. induction generated as [| p generated IH]; intros overview k Hk;
    cbn [append_missing]; [exact Hk |].
  destruct (len overview >=? 3); [exact Hk |].
  destruct (mem (lower p) (map lower overview)); [now apply IH |].
  apply IH. rewrite map_app. apply in_or_app. now left.
Qed.

(** After one pass the overview is full, or it holds every generated
    paragraph in lower case. *)
Lemma append_missing_saturates (generated overview : list str) :
  (3 <= length (append_missing generated overview))%nat
  \/ forall p, In p generated ->
               In (lower p) (map lower (append_missing generated overview)).
Proof.
  revert overview. induction generated as [| p generated IH]; intros overview;
    cbn [append_missing]; [right; intros p [] |].
  destruct (len overview >=? 3) eqn:Hfull.
  { left. rewrite Z.geb_leb in Hfull. apply Z.leb_le in Hfull. unfold len in Hfull. lia. }
  destruct (mem (lower p) (map lower overview)) eqn:Hmem.
  - destruct (IH overview) as [H | H]; [now left | right].
    intros q [<- | Hq]; [| now apply H].
    apply append_missing_extends. now apply mem_In.
  - destruct (IH (overview ++ [p])) as [H | H]; [now left | right].
    intros q [<- | Hq]; [| now apply H].
    apply append_missing_extends. rewrite map_app. apply in_or_app. right. now left.
Qed.

Lemma append_missing_fixed (generated overview : list str) :
  (forall p, In p generated -> In (lower p) (map lower overview)) ->
  append_missing generated overview = overview.
Proof.
  induction generated as [| p generated IH]; intros Hall; cbn [append_missing];
    [reflexivity |].
  destruct (len overview >=? 3); [reflexivity |].
  replace (mem (lower p) (map lower overview)) with true
    by (symmetry; apply mem_In, Hall; now left).
  apply IH. intros q Hq. apply Hall. now right.
Qed.

Lemma fill_overview_full (fuel : nat) (source_text : str) (concepts overview : list str) :
  (3 <= length overview)%nat ->
  fill_overview fuel source_text concepts overview = Some overview.
Proof.
  intros Hlen.
  assert (H : (len overview <? 3) = false) by (apply Z.ltb_ge; unfold len; lia).
  destruct fuel; cbn [fill_overview]; now rewrite H.
Qed.

Lemma fill_overview_stuck (fuel : nat) (source_text : str) (concepts overview : list str) :
  (length overview < 3)%nat ->
  append_missing (build_three_paragraph_overview source_text concepts) overview = overview ->
  fill_overview fuel source_text concepts overview = None.
Proof.
  intros Hlen Hsame. induction fuel as [| fuel IH].
  - cbn [fill_overview].
    replace (len overview <? 3) with true
      by (symmetry; apply Z.ltb_lt; unfold len; lia).
    reflexivity.
  - rewrite fill_overview_step by exact Hlen. rewrite Hsame. exact IH.
Qed.

Lemma fill_overview_one_round (fuel : nat) (source_text : str)
  (concepts overview : list str) :
  fill_overview (S fuel) source_text concepts overview
  = fill_overview 1 source_text concepts overview.
Proof.
  destruct (le_lt_dec 3 (length overview)) as [Hge | Hlt].
  { now rewrite !fill_overview_full. }
  rewrite !fill_overview_step by exact Hlt.
  set (generated := build_three_paragraph_overview source_text concepts).
  destruct (append_missing_saturates generated overview) as [Hfull | Hall].
  - now rewrite !fill_overview_full.
  - destruct (le_lt_dec 3 (length (append_missing generated overview))) as [Hge | Hlt'].
    { now rewrite !fill_overview_full. }
    rewrite !fill_overview_stuck; try reflexivity; try exact Hlt';
      now apply append_missing_fixed.
Qed.

(** X6. The last loop of [validate_structured_summary] ends within one
    round or never: for every candidate and transcript the validator
    gives, with any fuel above one round, what it gives with one round,
    so it returns exactly when one round of the loop fills the overview,
    and otherwise no amount of fuel makes it return. *)
Theorem validate_structured_summary_one_round (fuel : nat)
  (summary : schemas.StructuredSummary) (source_text : str) :
  validate_structured_summary (S fuel) summary source_text
  = validate_structured_summary 1 summary source_text.
Proof.
  unfold validate_structured_summary. now rewrite fill_overview_one_round.
Qed.

End TextUtilities.

(* ===================================================================== *)
(** * What the matcher answers for a repeated character class *)
(* ===================================================================== *)

Section Matcher.
Import py re.

(** The position reached from [s] by reading the characters [w]. *)
Fixpoint advance (s : state) (w : str) : state :=
  match w with
  | [] => s
  | c :: w' => advance (step s c (tl (rest s))) w'
  end.

Lemma advance_rest (w : str) : forall (s : state) (t : str),
  rest s = w ++ t ->
  rest (advance s w) = t /\ pos (advance s w) = (pos s + N.of_nat (length w))%N.
Proof.
  induction w as [| c w IH]; intros s t Hrest; cbn [advance length].
  - split; [exact Hrest | lia].
  - destruct (IH (step s c (tl (rest s))) t) as [H1 H2].
    + rewrite Hrest. reflexivity.
    + split; [exact H1 |]. rewrite H2. cbn [step pos]. lia.
Qed.

(** The loop of a greedy repetition of one character class, as [run]
    unfolds it. *)
Fixpoint rep_chr {R : Type} (lo : nat) (hi : option nat) (p : ascii -> bool)
  (k : state -> option R) (fuel n : nat) (s0 : state) : option R :=
  let stop := fun _ : unit => if Nat.leb lo n then k s0 else None in
  match fuel with
  | O => stop tt
  | S fuel' =>
      if below hi n then
        match run (Chr p) s0 (fun s1 => if N.ltb (pos s0) (pos s1)
                                        then rep_chr lo hi p k fuel' (S n) s1 else None) with
        | Some x => Some x
        | None => stop tt
        end
      else stop tt
  end.

Lemma run_rep_chr {R : Type} (lo : nat) (hi : option nat) (p : ascii -> bool)
  (s : state) (k : state -> option R) :
  run (Rep lo hi (Chr p)) s k
  = rep_chr lo hi p k (match hi with Some h => h | None => gas s end) 0 s.
Proof.
  cbn [run]. generalize (match hi with Some h => h | None => gas s end) as fuel.
  generalize 0%nat as n. revert s.
  intros s n fuel. revert s n. induction fuel as [| fuel IH]; intros s n; [reflexivity |].
  cbn [rep_chr run]. destruct (below hi n); [| reflexivity].
  destruct (rest s) as [| c t]; [reflexivity |].
  destruct (p c); [| reflexivity].
  destruct (N.ltb (pos s) (pos (step s c t))); [| reflexivity].
  now rewrite IH.
Qed.

Lemma run_seq {R : Type} (a b : regex) (s : state) (k : state -> option R) :
  run (Seq a b) s k = run a s (fun s1 => run b s1 k).
Proof. reflexivity. Qed.

Lemma run_chr {R : Type} (p : ascii -> bool) (s : state) (k : state -> option R) :
  run (Chr p) s k
  = match rest s with
    | c :: t => if p c then k (step s c t) else None
    | [] => None
    end.
Proof. reflexivity. Qed.

(** Every answer of the loop comes from a run of characters of the
    class, at least [lo] of them counting the [n] read before. *)
Lemma rep_chr_sound {R : Type} (lo : nat) (hi : option nat) (p : ascii -> bool)
  (k : state -> option R) (fuel : nat) :
  forall (n : nat) (s0 : state) (x : R),
    rep_chr lo hi p k fuel n s0 = Some x ->
    exists w t, rest s0 = w ++ t /\ forallb p w = true
                /\ (lo <= n + length w)%nat /\ k (advance s0 w) = Some x.
Proof.
  induction fuel as [| fuel IH]; intros n s0 x H.
  - cbn [rep_chr] in H. destruct (Nat.leb lo n) eqn:Hlo; [| discriminate].
    apply Nat.leb_le in Hlo. exists [], (rest s0).
    repeat split; [simpl; lia | exact H].
  - cbn [rep_chr] in H.
    assert (Hstop : (if Nat.leb lo n then k s0 else None) = Some x ->
                    exists w t, rest s0 = w ++ t /\ forallb p w = true
                                /\ (lo <= n + length w)%nat /\ k (advance s0 w) = Some x).
    { intros Hs. destruct (Nat.leb lo n) eqn:Hlo; [| discriminate].
      apply Nat.leb_le in Hlo. exists [], (rest s0).
      repeat split; [simpl; lia | exact Hs]. }
    destruct (below hi n); [| now apply Hstop].
    cbn [run] in H. destruct (rest s0) as [| c t] eqn:Hrest; [now apply Hstop |].
    destruct (p c) eqn:Hc; [| now apply Hstop].
    destruct (N.ltb (pos s0) (pos (step s0 c t))); [| now apply Hstop].
    destruct (rep_chr lo hi p k fuel (S n) (step s0 c t)) as [y |] eqn:Hloop;
      [| now apply Hstop].
    injection H as <-.
    destruct (IH (S n) (step s0 c t) y Hloop) as [w [t' [Hr [Hp [Hn Hk]]]]].
    exists (c :: w), t'. cbn [rest step] in Hr. subst t.
    repeat split.
    + cbn [forallb]. now rewrite Hc, Hp.
    + cbn [length]. lia.
    + cbn [advance]. rewrite Hrest. exact Hk.
Qed.

(** A text that fully matches "[...]+" is not empty and is made of
    characters of the class. *)
Lemma fullmatch_plus_chr (p : ascii -> bool) (s : str) :
  fullmatch (plus (Chr p)) s = true -> s <> [] /\ forallb p s = true.
Proof.
  unfold fullmatch, plus. rewrite run_rep_chr.
  destruct (rep_chr _ _ _ _ _ _ _) as [x |] eqn:H; [intros _ | discriminate].
  apply rep_chr_sound in H as [w [t [Hr [Hp [Hn Hk]]]]].
  cbn [start rest] in Hr.
  destruct (advance_rest w (start s) t Hr) as [Hrest _].
  rewrite Hrest in Hk. destruct t; [| discriminate].
  rewrite app_nil_r in Hr. subst w. split; [| exact Hp].
  intros ->. simpl in Hn. lia.
Qed.

End Matcher.

(* ===================================================================== *)
(** * tokenize_words (pipeline_utils.py) *)
(* ===================================================================== *)

Section Tokens.
Import py re pipeline_utils.

Definition token_char (c : ascii) : bool :=
  is_lower_az c || is_digit c || one "'-" c.

(** A lower-case letter followed by two or more lower-case letters,
    digits, apostrophes or hyphens. *)
Definition token_shape (token : str) : Prop :=
  exists c w, token = c :: w /\ is_lower_az c = true /\ forallb token_char w = true
              /\ (2 <= length w)%nat.

Lemma lower_char_not_upper (c : ascii) : is_upper_az (lower_char c) = false.
Proof. destruct c as [[] [] [] [] [] [] [] []]; reflexivity. Qed.

Lemma found_token (s s1 : state) :
  found token_re s = Some s1 ->
  exists c w, rest s = c :: w ++ rest s1 /\ between s s1 = c :: w
              /\ is_alpha_az c = true
              /\ forallb (fun c => is_alpha_az c || is_digit c || one "'-" c) w = true
              /\ (2 <= length w)%nat.
Proof.
  unfold found, token_re. rewrite run_seq, run_chr.
  destruct (rest s) as [| c t] eqn:Hrest; [discriminate |].
  destruct (is_alpha_az c) eqn:Hc; [| discriminate].
  rewrite run_rep_chr.
  destruct (rep_chr _ _ _ _ _ _ _) as [s2 |] eqn:H; [| discriminate].
  apply rep_chr_sound in H as [w [t' [Hr [Hp [Hn Hk]]]]].
  injection Hk as <-. cbn [rest step] in Hr.
  destruct (advance_rest w (step s c t) t' Hr) as [Hrest' Hpos].
  destruct (N.ltb (pos s) (pos (advance (step s c t) w))); [| discriminate].
  intros H. injection H as <-.
  exists c, w. cbn [clear_caps rest]. rewrite Hrest'. subst t.
  split; [reflexivity |]. split.
  - unfold between. cbn [clear_caps pos]. rewrite Hpos, Hrest. cbn [step pos].
    replace (N.to_nat (N.succ (pos s) + N.of_nat (length w) - pos s))
      with (S (length w)) by lia.
    cbn [firstn]. f_equal.
    rewrite firstn_app, firstn_all, Nat.sub_diag. cbn [firstn]. apply app_nil_r.
  - split; [exact Hc |]. split; [exact Hp | simpl in Hn; lia].
Qed.

Lemma findall_token (fuel : nat) (s : state) :
  Forall (fun token =>
            (forall ch, In ch token -> In ch (rest s))
            /\ exists c w, token = c :: w /\ is_alpha_az c = true
                 /\ forallb (fun c => is_alpha_az c || is_digit c || one "'-" c) w = true
                 /\ (2 <= length w)%nat)
         (findall_loop fuel token_re s).
Proof.
  revert s. induction fuel as [| fuel IH]; intros s; cbn [findall_loop]; [constructor |].
  destruct (rest s) as [| c t] eqn:Hrest; [constructor |].
  destruct (found token_re s) as [s1 |] eqn:Hf.
  - destruct (found_token s s1 Hf) as [c' [w [Hr [Hb [Hc [Hw Hn]]]]]].
    rewrite Hrest in Hr. constructor.
    + split; [| exists c', w; now rewrite Hb].
      intros ch Hin. rewrite Hb in Hin. rewrite Hr.
      destruct Hin as [<- | Hin]; [now left | right].
      apply in_or_app. now left.
    + eapply Forall_impl; [| apply IH]. intros token [Hsub Hshape].
      split; [| exact Hshape]. intros ch Hin. rewrite Hr. right.
      apply in_or_app. right. now apply Hsub.
  - eapply Forall_impl; [| apply IH]. intros token [Hsub Hshape].
    split; [| exact Hshape]. intros ch Hin. right. now apply Hsub.
Qed.

(** X7. Every token of [tokenize_words] has at least three characters:
    a lower-case letter a-z followed by lower-case letters, digits,
    apostrophes or hyphens; so a word of one or two letters never counts
    when chunks, sentences or points are scored.  The content tokens are
    tokens of that shape that are not stopwords, and tokenizing ignores
    the case of the text. *)
Theorem tokenize_words_shape (text : str) :
  Forall token_shape (tokenize_words text)
  /\ Forall token_shape (content_tokens text)
  /\ Forall (fun token => mem token STOPWORDS = false) (content_tokens text)
  /\ tokenize_words (lower text) = tokenize_words text.
Proof.
  assert (Hlow : forall c, In c (lower text) -> is_upper_az c = false).
  { intros c Hin. apply in_map_iff in Hin as [x [<- _]]. apply lower_char_not_upper. }
  assert (Htok : Forall token_shape (tokenize_words text)).
  { unfold tokenize_words, findall.
    eapply Forall_impl; [| apply findall_token].
    intros token [Hsub [c [w [-> [Hc [Hw Hn]]]]]]. cbn [start rest] in Hsub.
    exists c, w. split; [reflexivity |].
    assert (Hup : forall ch, In ch (c :: w) -> is_upper_az ch = false)
      by (intros ch Hin; apply Hlow, Hsub, Hin).
    split; [| split; [| exact Hn]].
    - unfold is_alpha_az in Hc. rewrite (Hup c (or_introl eq_refl)) in Hc. exact Hc.
    - rewrite forallb_forall in *. intros ch Hin. specialize (Hw ch Hin).
      unfold token_char. unfold is_alpha_az in Hw.
      rewrite (Hup ch (or_intror Hin)) in Hw. exact Hw. }
  split; [exact Htok |]. split; [| split].
  - unfold content_tokens. rewrite Forall_forall in *. intros token Hin.
    apply filter_In in Hin as [Hin _]. now apply Htok.
  - unfold content_tokens. apply Forall_forall. intros token Hin.
    apply filter_In in Hin as [_ H]. now apply negb_true_iff in H.
  - unfold tokenize_words. f_equal. unfold lower. rewrite map_map.
    apply map_ext. intros c. destruct c as [[] [] [] [] [] [] [] []]; reflexivity.
Qed.

End Tokens.

(* ===================================================================== *)
(** * What the offline solver evaluates (local_ai_service.py) *)
(* ===================================================================== *)

Section SolverSafety.
Import py re num local_ai_service.

(** The characters [_solve_arithmetic] lets through to the evaluator:
    digits, the point, the operators, parentheses and whitespace. *)
Definition arithmetic_char (c : ascii) : bool :=
  is_digit c || one ".+-*/()%" c || is_space c.

(** X8. Whenever [_solve_arithmetic] does anything but return [None],
    the text it handed to [ast.parse] and [eval] is not empty and holds
    only digits, points, the characters + - * / % ( ) and whitespace, so
    no name, string or attribute ever reaches the evaluator; that text is
    the question with ^ replaced, or what is left of it after a leading
    command word; the evaluator did not raise on it; and an answer
    quotes that text as the expression recognized. *)
Theorem solve_arithmetic_charset (question : str)
  (Hanswer : _solve_arithmetic question <> Ret None) :
  exists candidate,
    candidate <> []
    /\ forallb arithmetic_char candidate = true
    /\ (candidate = caret_to_power (strip question)
        \/ candidate = strip_prefix PREFIXES (caret_to_power (strip question)))
    /\ (forall e, _safe_eval candidate <> Raise e)
    /\ (forall text, _solve_arithmetic question = Ret (Some text) ->
          exists value_text,
            text = lit "Step-by-step:" ++ [LF]
                     ++ lit "1. Expression recognized: " ++ candidate ++ [LF]
                     ++ lit "2. Evaluate by operator precedence." ++ [LF]
                     ++ lit "3. Final value = " ++ value_text).
Proof.
  unfold _solve_arithmetic in *.
  destruct (negb (pipeline_utils.nonempty question)); [congruence |].
  set (first := caret_to_power (strip question)) in *.
  set (candidate := if negb (fullmatch arithmetic_re first)
                    then strip_prefix PREFIXES first else first) in *.
  destruct (fullmatch arithmetic_re candidate) eqn:Hfull; cbn [negb] in *; [| congruence].
  apply fullmatch_plus_chr in Hfull as [Hne Hchars].
  exists candidate. split; [exact Hne |]. split; [exact Hchars |]. split.
  { subst candidate. destruct (negb (fullmatch arithmetic_re first)); auto. }
  destruct (_safe_eval candidate) as [value | e |] eqn:Heval; [| congruence |].
  - split; [congruence |]. intros text.
    destruct (py_round value) as [rounded | e |]; cbn [bind]; try discriminate.
    intros H. injection H as <-. eexists. reflexivity.
  - split; [congruence | discriminate].
Qed.

Lemma solve_arithmetic_charset_witness :
  _solve_arithmetic (lit "compute: 2^3") <> Ret None
  /\ exists candidate,
       candidate <> [] /\ forallb arithmetic_char candidate = true
       /\ (candidate = caret_to_power (strip (lit "compute: 2^3"))
           \/ candidate
              = strip_prefix PREFIXES (caret_to_power (strip (lit "compute: 2^3"))))
       /\ (forall e, _safe_eval candidate <> Raise e).
Proof.
  assert (H : _solve_arithmetic (lit "compute: 2^3") <> Ret None)
    by (vm_compute; discriminate).
  split; [exact H |].
  destruct (solve_arithmetic_charset (lit "compute: 2^3") H)
    as [candidate [H1 [H2 [H3 [H4 _]]]]].
  exists candidate. split; [exact H1 | split; [exact H2 | split; [exact H3 | exact H4]]].
Defined.

(** X9. The offline solver can fail: when the question is an arithmetic
    expression the filter accepts and its value is infinite or not a number,
    [round(value)] raises outside the [try] of [_solve_arithmetic], and
    [solver_chat] raises [OverflowError] or [ValueError] instead of
    answering. *)
Theorem solver_chat_not_finite (message : str) (image_data_url : option str)
  (value : float)
  (Hasked : normalize_ws message <> [])
  (Hmatch : fullmatch arithmetic_re (caret_to_power (strip (normalize_ws message))) = true)
  (Heval : _safe_eval (caret_to_power (strip (normalize_ws message))) = Ret value)
  (Hinf : is_finite value = false) :
  solver_chat message image_data_url = Raise "OverflowError"
  \/ solver_chat message image_data_url = Raise "ValueError".
Proof.
  assert (Hround : py_round value = Raise "OverflowError"
                   \/ py_round value = Raise "ValueError").
  { unfold py_round, is_finite in *.
    destruct (Prim2SF value); try discriminate; auto. }
  assert (Hsolve : _solve_arithmetic (normalize_ws message) = Raise "OverflowError"
                   \/ _solve_arithmetic (normalize_ws message) = Raise "ValueError").
  { unfold _solve_arithmetic.
    apply nonempty_true in Hasked. rewrite Hasked. cbn [negb].
    rewrite Hmatch. cbn [negb]. rewrite Hmatch. cbn [negb]. rewrite Heval.
    destruct Hround as [-> | ->]; auto. }
  unfold solver_chat.
  apply nonempty_true in Hasked. rewrite Hasked. cbn [negb andb].
  destruct Hsolve as [-> | ->]; auto.
Qed.

(** A product that overflows: 1 followed by 308 zeros, written as a
    float, times ten. *)
Definition overflowing : str := lit "1" ++ repeat (chr 48) 308 ++ lit ".0*10".

Lemma solver_chat_not_finite_witness :
  normalize_ws overflowing <> []
  /\ fullmatch arithmetic_re (caret_to_power (strip (normalize_ws overflowing))) = true
  /\ _safe_eval (caret_to_power (strip (normalize_ws overflowing))) = Ret infinity
  /\ is_finite infinity = false
  /\ solver_chat overflowing None = Raise "OverflowError".
Proof.
  assert (Hasked : normalize_ws overflowing <> []) by (vm_compute; discriminate).
  assert (Hmatch : fullmatch arithmetic_re
                     (caret_to_power (strip (normalize_ws overflowing))) = true)
    by (vm_compute; reflexivity).
  assert (Heval : _safe_eval (caret_to_power (strip (normalize_ws overflowing)))
                  = Ret infinity) by (vm_compute; reflexivity).
  assert (Hinf : is_finite infinity = false) by reflexivity.
  split; [exact Hasked | split; [exact Hmatch | split; [exact Heval | split; [exact Hinf |]]]].
  destruct (solver_chat_not_finite overflowing None infinity Hasked Hmatch Heval Hinf)
    as [H | H]; [exact H |].
  exfalso. revert H. vm_compute. discriminate.
Defined.

End SolverSafety.

(* ===================================================================== *)
(** * The offline chat (local_ai_service.py) *)
(* ===================================================================== *)

Section OfflineChat.
Import py schemas pipeline_utils local_ai_service.

Lemma distinct_In (l seen : list str) (token : str) :
  In token (distinct seen l) <-> In token l /\ ~ In token seen.
Proof.
  revert seen. induction l as [| x l IH]; intros seen; cbn [distinct]; [simpl; tauto |].
  destruct (mem x seen) eqn:Hmem.
  - apply mem_In in Hmem. rewrite IH. simpl. split; [tauto |].
    intros [[<- | Hin] Hnot]; [contradiction | tauto].
  - apply mem_false in Hmem. simpl. rewrite IH. simpl. split.
    + intros [<- | [Hin Hnot]]; [tauto |]. split; [tauto |]. intros H. apply Hnot. now right.
    + intros [[<- | Hin] Hnot]; [now left |].
      destruct (list_eq_dec ascii_dec x token) as [-> | Hne]; [now left | right].
      split; [exact Hin |]. intros [Heq | H]; [contradiction | contradiction].
Qed.

(** The question and the point have a content token in common. *)
Definition shares_token (question point : str) : Prop :=
  exists token, In token (content_tokens question) /\ In token (content_tokens point).

Lemma point_score_positive (question point : str) :
  (point_score (distinct [] (content_tokens question)) point >? 0) = true
  <-> shares_token question point.
Proof.
  unfold point_score, shares_token, len.
  set (common := List.filter _ _).
  assert (Hin : forall token, In token common
                              <-> In token (content_tokens question)
                                  /\ In token (content_tokens point)).
  { intros token. subst common. rewrite filter_In, distinct_In, mem_In. simpl. tauto. }
  split.
  - intros Hpos. apply Z.gtb_lt in Hpos.
    destruct common as [| token rest]; [simpl in Hpos; lia |].
    exists token. apply Hin. now left.
  - intros [token Ht]. apply Hin in Ht. apply Z.gtb_lt.
    destruct common; [destruct Ht | simpl; lia].
Qed.

Lemma ranked_points_In (question : str) (pool : list str) (score : Z) (point : str) :
  In (score, point) (ranked_points (distinct [] (content_tokens question)) pool)
  <-> In point pool /\ shares_token question point
      /\ score = point_score (distinct [] (content_tokens question)) point.
Proof.
  unfold ranked_points. rewrite in_flat_map. split.
  - intros [p [Hp Hin]].
    destruct (point_score _ p >? 0) eqn:Hpos; [| destruct Hin].
    destruct Hin as [Heq | []]. injection Heq as <- <-.
    split; [exact Hp |]. split; [now apply point_score_positive | reflexivity].
  - intros [Hp [Hs ->]]. exists point. split; [exact Hp |].
    apply point_score_positive in Hs. rewrite Hs. now left.
Qed.

Lemma best_points_spec (question : str) (pool : list str) :
  (length (best_points question pool) <= 3)%nat
  /\ (forall point, In point (best_points question pool) ->
                    In point pool /\ shares_token question point)
  /\ (best_points question pool = []
      <-> forall point, In point pool -> ~ shares_token question point).
Proof.
  unfold best_points.
  set (ranked := ranked_points (distinct [] (content_tokens question)) pool).
  set (sorted := sort_desc fst Z.geb ranked).
  split; [rewrite length_map; apply firstn_le_length |]. split.
  - intros point Hin. apply in_map_iff in Hin as [[score p] [Hp Hin]].
    simpl in Hp. subst p. apply in_firstn, sort_desc_In, ranked_points_In in Hin.
    tauto.
  - split.
    + intros Hnil point Hin Hshare.
      assert (H : In (point_score (distinct [] (content_tokens question)) point, point)
                     sorted)
        by (apply sort_desc_In, ranked_points_In; auto).
      destruct sorted as [| first rest]; [destruct H | discriminate Hnil].
    + intros Hnone.
      destruct sorted as [| [score point] rest] eqn:Hs; [reflexivity |].
      assert (H : In (score, point) sorted) by (rewrite Hs; now left).
      apply sort_desc_In, ranked_points_In in H as [Hin [Hshare _]].
      exfalso. now apply (Hnone point).
Qed.

(** Whatever [select_top_chunks_for_query] returns was among the
    chunks. *)
Lemma select_top_In (query : str) (chunks : list str) (top_k : Z) (chunk : str) :
  In chunk (select_top_chunks_for_query query chunks top_k) -> In chunk chunks.
Proof.
  unfold select_top_chunks_for_query.
  assert (Hslice : In chunk (slice_to top_k chunks) -> In chunk chunks).
  { destruct (slice_to_firstn top_k chunks) as [k ->]. apply in_firstn. }
  destruct (negb (nonempty chunks)); [intros [] |].
  destruct (negb (nonempty (content_tokens query))); [exact Hslice |].
  destruct (negb (nonempty (rank_chunks (content_tokens query) chunks)));
    [exact Hslice |].
  intros H. apply in_map_iff in H as [[score c] [Hc H]]. simpl in Hc. subst c.
  destruct (slice_to_firstn top_k
              (sort_desc fst (fun a b => PrimFloat.leb b a)
                 (rank_chunks (content_tokens query) chunks))) as [k Hk].
  rewrite Hk in H. apply in_firstn, sort_desc_In, rank_chunks_In in H. tauto.
Qed.

(** X10. The offline [chat] answers a blank message with the request
    for a specific question, whatever the summary.  For any other message
    the answer is the no-match text when no point is quoted and no
    context selected, and otherwise the lines: heading, at most three
    points, at most two context excerpts under their own heading, closing
    line.  Every point quoted is an item of the summary that shares a
    content token with the question; no point is quoted exactly when no
    item of the summary shares one; every excerpt is one of the context
    chunks given. *)
Theorem chat_grounded (message : str) (summary : StructuredSummary)
  (context_chunks : option (list str)) :
  (strip message = [] -> chat message summary context_chunks = PLEASE_ASK)
  /\ (strip message <> [] ->
      let points := best_points (strip message) (knowledge_pool summary) in
      let contexts := firstn 2 (selected_contexts (strip message) context_chunks) in
      chat message summary context_chunks
      = (if negb (nonempty points) && negb (nonempty contexts) then NO_MATCH
         else join [LF]
                ([GROUNDED]
                   ++ map (fun point => lit "- " ++ _shorten point 170) points
                   ++ (if nonempty contexts
                       then SUPPORTING
                              :: map (fun chunk => lit "- " ++ _shorten chunk 190) contexts
                       else [])
                   ++ [IF_NEEDED]))
      /\ (length points <= 3)%nat /\ (length contexts <= 2)%nat
      /\ (forall point, In point points ->
            In point (knowledge_pool summary) /\ shares_token (strip message) point)
      /\ (points = []
          <-> forall point, In point (knowledge_pool summary) ->
                            ~ shares_token (strip message) point)
      /\ (forall chunk, In chunk contexts ->
            exists chunks, context_chunks = Some chunks /\ In chunk chunks)).
Proof.
  split.
  - intros Hblank. unfold chat. now rewrite Hblank.
  - intros Hasked. cbv zeta.
    destruct (best_points_spec (strip message) (knowledge_pool summary))
      as [Hlen [Hin Hnil]].
    split; [| split; [exact Hlen | split; [apply firstn_le_length |
                                           split; [exact Hin | split; [exact Hnil |]]]]].
    + unfold chat. apply nonempty_true in Hasked. rewrite Hasked. cbn [negb].
      destruct (selected_contexts (strip message) context_chunks) as [| c1 [| c2 rest]];
        reflexivity.
    + intros chunk Hc. apply in_firstn in Hc. unfold selected_contexts in Hc.
      destruct context_chunks as [chunks |]; [| destruct Hc].
      exists chunks. split; [reflexivity |].
      destruct (nonempty chunks); [| destruct Hc].
      now apply select_top_In in Hc.
Qed.

End OfflineChat.

(* ===================================================================== *)
(** * The chain and the handlers around it (routes.py) *)
(* ===================================================================== *)

Section ChainOrder.
Import py routes.
Variables (W A : Type).

(** The three ways the chain can go. *)
Lemma chain_cases (gemini_call ollama_call local_call : callable W A) (w : W) :
  let first := gemini_call w in
  let second := ollama_call (snd first) in
  let third := local_call (snd second) in
  let run := _run_with_fallback_chain gemini_call ollama_call local_call w in
  (snd run = [Gemini] /\ fst run = first
   /\ (forall e, fst first = Raised e -> ~ falls_through e))
  \/ (snd run = [Gemini; Ollama] /\ fst run = second
      /\ (exists e, fst first = Raised e /\ falls_through e)
      /\ exists a, fst second = Returned a)
  \/ (snd run = [Gemini; Ollama; Local] /\ fst run = third
      /\ (exists e, fst first = Raised e /\ falls_through e)
      /\ exists e, fst second = Raised e).
Proof.
  cbv zeta. unfold _run_with_fallback_chain.
  assert (Hafter : forall e w1,
            gemini_call w = (Raised e, w1) -> falls_through e ->
            let run := match ollama_call w1 with
                       | (Returned a, w2) => (Returned a, w2, [Gemini; Ollama])
                       | (Raised _, w2) =>
                           let '(r, w3) := local_call w2 in (r, w3, [Gemini; Ollama; Local])
                       end in
            (snd run = [Gemini; Ollama] /\ fst run = ollama_call w1
             /\ (exists e, fst (gemini_call w) = Raised e /\ falls_through e)
             /\ exists a, fst (ollama_call w1) = Returned a)
            \/ (snd run = [Gemini; Ollama; Local]
                /\ fst run = local_call (snd (ollama_call w1))
                /\ (exists e, fst (gemini_call w) = Raised e /\ falls_through e)
                /\ exists e, fst (ollama_call w1) = Raised e)).
  { intros e w1 Hg Hf. cbv zeta. rewrite Hg. cbn [fst].
    destruct (ollama_call w1) as [[a | e2] w2]; cbn [fst snd].
    - left. repeat split; eauto.
    - right. destruct (local_call w2) as [r w3]. cbn [fst snd]. repeat split; eauto. }
  destruct (gemini_call w) as [[a | [status_code detail | message]] w1] eqn:Hg;
    cbn [fst snd].
  - left. repeat split. intros e H. discriminate H.
  - destruct (_is_recoverable_http_error status_code) eqn:Hrec.
    + right. apply (Hafter _ w1 eq_refl). now apply recoverable_iff.
    + left. repeat split. intros e H. injection H as <-. cbn [falls_through].
      rewrite <- recoverable_iff. congruence.
  - right. now apply (Hafter _ w1 eq_refl).
Qed.

(** X11. For any three callables the chain calls the primary first and
    each callable at most once, the next one on the state the one before
    left, and its result is the result of the last callable it called.
    It stops at the primary when that returns or raises an HTTP error
    that is not recoverable; at the secondary when that returns; and else
    it ends with the tertiary, whose exception, if it raises, is the
    exception of the chain. *)
Theorem fallback_chain_order (gemini_call ollama_call local_call : callable W A) (w : W) :
  let first := gemini_call w in
  let second := ollama_call (snd first) in
  let third := local_call (snd second) in
  let run := _run_with_fallback_chain gemini_call ollama_call local_call w in
  ((snd run = [Gemini] /\ fst run = first
    /\ (forall e, fst first = Raised e -> ~ falls_through e))
   \/ (snd run = [Gemini; Ollama] /\ fst run = second
       /\ (exists e, fst first = Raised e /\ falls_through e)
       /\ exists a, fst second = Returned a)
   \/ (snd run = [Gemini; Ollama; Local] /\ fst run = third
       /\ (exists e, fst first = Raised e /\ falls_through e)
       /\ exists e, fst second = Raised e))
  /\ calls_of Gemini (snd run) = 1%nat
  /\ (calls_of Ollama (snd run) <= 1)%nat
  /\ (calls_of Local (snd run) <= calls_of Ollama (snd run))%nat.
Proof.
  cbv zeta.
  pose proof (chain_cases gemini_call ollama_call local_call w) as H. cbv zeta in H.
  split; [exact H |].
  destruct H as [[-> _] | [[-> _] | [-> _]]]; cbn; lia.
Qed.

(** The statuses [_map_service_error] gives. *)
Definition MAPPED : list Z := [429; 400; 401; 502].

Lemma map_service_error_status (message : str) :
  exists status_code, _map_service_error message = HTTPException status_code message
                      /\ In status_code MAPPED.
Proof.
  unfold _map_service_error, MAPPED.
  repeat match goal with
         | |- context [if ?b then _ else _] => destruct b
         end; eexists; (split; [reflexivity | simpl; tauto]).
Qed.

(** X12. A handler that runs the chain under its [try] lets only HTTP
    errors out.  When it fails, either the primary alone was called and
    raised that error, with a status that is not recoverable; or all
    three callables were called, the first two failed, and the error is
    the HTTP error the tertiary raised or, for any other exception of
    the tertiary, an error with status 429, 400, 401 or 502 whose detail
    is the message of that exception.  A failure of the secondary alone
    never reaches the client. *)
Theorem guarded_chain_errors (gemini_call ollama_call local_call : callable W A)
  (w w' : W) (e : exn) (calls : list tier)
  (Hfails : guarded_chain gemini_call ollama_call local_call w = (Raised e, w', calls)) :
  exists status_code detail,
    e = HTTPException status_code detail
    /\ ((calls = [Gemini] /\ gemini_call w = (Raised e, w')
         /\ ~ In status_code RECOVERABLE)
        \/ (calls = [Gemini; Ollama; Local]
            /\ (exists e1, fst (gemini_call w) = Raised e1 /\ falls_through e1)
            /\ (exists e2, fst (ollama_call (snd (gemini_call w))) = Raised e2)
            /\ snd (local_call (snd (ollama_call (snd (gemini_call w))))) = w'
            /\ (fst (local_call (snd (ollama_call (snd (gemini_call w))))) = Raised e
                \/ (fst (local_call (snd (ollama_call (snd (gemini_call w)))))
                    = Raised (OtherException detail)
                    /\ In status_code MAPPED)))).
Proof.
  unfold guarded_chain in Hfails.
  pose proof (chain_cases gemini_call ollama_call local_call w) as Horder.
  cbv zeta in Horder.
  destruct (_run_with_fallback_chain gemini_call ollama_call local_call w)
    as [[r w1] calls1] eqn:Hrun.
  cbn [fst snd] in Horder.
  assert (Hr : exists status_code detail,
             e = HTTPException status_code detail /\ w1 = w' /\ calls1 = calls
             /\ (r = Raised e
                 \/ (r = Raised (OtherException detail) /\ In status_code MAPPED))).
  { destruct r as [a | [status_code detail | message]].
    - discriminate Hfails.
    - injection Hfails as <- <- <-. exists status_code, detail.
      repeat split. now left.
    - injection Hfails as <- <- <-.
      destruct (map_service_error_status message) as [status_code [Heq Hin]].
      exists status_code, message. rewrite Heq.
      repeat split. right. now split. }
  destruct Hr as [status_code [detail [-> [-> [-> Hr]]]]].
  exists status_code, detail. split; [reflexivity |].
  destruct Horder as [[Hc [Hfirst Hnot]] | [[Hc [Hsecond [_ [a Ha]]]] | [Hc [Hthird [H1 H2]]]]].
  - left. split; [exact Hc |].
    destruct Hr as [-> | [-> _]].
    + split; [now rewrite <- Hfirst |].
      apply (Hnot (HTTPException status_code detail)). now rewrite <- Hfirst.
    + exfalso. apply (Hnot (OtherException detail)); [now rewrite <- Hfirst | exact I].
  - exfalso. rewrite <- Hsecond in Ha. cbn [fst] in Ha.
    destruct Hr as [-> | [-> _]]; discriminate Ha.
  - right. split; [exact Hc |]. split; [exact H1 |]. split; [exact H2 |].
    rewrite <- Hthird. cbn [fst snd]. split; [reflexivity |].
    destruct Hr as [-> | [-> Hin]]; auto.
Qed.

End ChainOrder.

(** Three callables over a counter of calls: the cloud model answers
    503, the local model is not reachable, the offline model fails over
    a quota. *)
Definition busy_gemini_call : routes.callable nat Z :=
  fun n => (routes.Raised (routes.HTTPException 503 (py.lit "unavailable")), S n).
Definition dead_ollama_call : routes.callable nat Z :=
  fun n => (routes.Raised (routes.OtherException (py.lit "connection refused")), S n).
Definition failing_local_call : routes.callable nat Z :=
  fun n => (routes.Raised (routes.OtherException (py.lit "Quota exceeded")), S n).

Lemma guarded_chain_errors_witness :
  routes.guarded_chain busy_gemini_call dead_ollama_call failing_local_call 0%nat
  = (routes.Raised (routes.HTTPException 429 (py.lit "Quota exceeded")), 3%nat,
     [routes.Gemini; routes.Ollama; routes.Local])
  /\ exists status_code detail,
       routes.HTTPException 429 (py.lit "Quota exceeded")
       = routes.HTTPException status_code detail.
Proof.
  assert (H : routes.guarded_chain busy_gemini_call dead_ollama_call failing_local_call
                0%nat
              = (routes.Raised (routes.HTTPException 429 (py.lit "Quota exceeded")), 3%nat,
                 [routes.Gemini; routes.Ollama; routes.Local]))
    by (vm_compute; reflexivity).
  split; [exact H |].
  destruct (guarded_chain_errors nat Z busy_gemini_call dead_ollama_call
              failing_local_call 0%nat 3%nat _ _ H) as [status_code [detail [Heq _]]].
  exists status_code, detail. exact Heq.
Defined.

Section BearerToken.
Import py routes.

Lemma split_once_spec (s scheme credentials : str) :
  split_once s = Some (scheme, credentials) ->
  s = scheme ++ SP :: credentials /\ ~ In SP scheme.
Proof.
  revert scheme. induction s as [| c t IH]; intros scheme; cbn [split_once];
    [discriminate |].
  destruct (is_char SP c) eqn:Hc.
  - intros H. injection H as <- <-. apply is_char_eq in Hc as ->. now split.
  - destruct (split_once t) as [[head tail] |]; [| discriminate].
    intros H. injection H as <- <-.
    destruct (IH head eq_refl) as [-> Hnot]. split; [reflexivity |].
    intros [Heq | Hin]; [| contradiction].
    subst c. unfold is_char in Hc. now rewrite Ascii.eqb_refl in Hc.
Qed.

Lemma split_once_app (scheme credentials : str) :
  ~ In SP scheme -> split_once (scheme ++ SP :: credentials) = Some (scheme, credentials).
Proof.
  induction scheme as [| c scheme IH]; intros Hnot; cbn [split_once app].
  - reflexivity.
  - destruct (is_char SP c) eqn:Hc.
    + apply is_char_eq in Hc. exfalso. apply Hnot. now left.
    + rewrite IH; [reflexivity |]. intros Hin. apply Hnot. now right.
Qed.

(** X13. [_extract_bearer_token] fails only with status 401.  A token
    it returns is not empty, has no outer whitespace, and is the stripped
    text after the first space of a header whose text before that space
    is "bearer" in any case.  Conversely every such header with
    credentials that are not blank gives its stripped credentials. *)
Theorem extract_bearer_token_spec (authorization : option str) :
  match _extract_bearer_token authorization with
  | Returned token =>
      exists scheme credentials,
        authorization = Some (scheme ++ SP :: credentials)
        /\ ~ In SP scheme /\ lower scheme = lit "bearer"
        /\ token = strip credentials /\ token <> [] /\ stripped token
  | Raised e => exists detail, e = HTTPException 401 detail
  end
  /\ (forall scheme credentials,
        ~ In SP scheme -> lower scheme = lit "bearer" -> strip credentials <> [] ->
        _extract_bearer_token (Some (scheme ++ SP :: credentials))
        = Returned (strip credentials)).
Proof.
  split.
  - unfold _extract_bearer_token.
    destruct authorization as [[| c header] |]; try (eexists; reflexivity).
    destruct (split_once (c :: header)) as [[scheme credentials] |] eqn:Hsplit;
      [| eexists; reflexivity].
    destruct (eqb (lower scheme) (lit "bearer")) eqn:Hscheme; cbn [negb orb];
      [| eexists; reflexivity].
    destruct (pipeline_utils.nonempty (strip credentials)) eqn:Hne; cbn [negb];
      [| eexists; reflexivity].
    apply split_once_spec in Hsplit as [Heq Hnot].
    exists scheme, credentials. rewrite Heq.
    split; [reflexivity |]. split; [exact Hnot |].
    split; [now apply eqb_eq |]. split; [reflexivity |].
    split; [now apply nonempty_true | apply strip_stripped].
  - intros scheme credentials Hnot Hscheme Hne. unfold _extract_bearer_token.
    destruct (scheme ++ SP :: credentials) eqn:Happ; [now destruct scheme |].
    rewrite <- Happ, split_once_app by exact Hnot.
    apply eqb_eq in Hscheme. rewrite Hscheme.
    apply nonempty_true in Hne. now rewrite Hne.
Qed.

End BearerToken.

(* ===================================================================== *)
(** * The operations of the session store (session.py) *)
(* ===================================================================== *)

Section SessionOperations.
Import stdpp.base stdpp.gmap stdpp.fin_maps.
Import py schemas session.

(** What the clean-up leaves of a record. *)
Lemma cleanup_lookup (self : SessionStore) (sid : str) (now : Z) :
  _sessions (_cleanup_expired_locked self now) !! sid
  = match _sessions self !! sid with
    | Some data => if Z.ltb (_ttl self) (now - updated_at data) then None else Some data
    | None => None
    end.
Proof.
  destruct (_sessions self !! sid) as [data |] eqn:Hin.
  - destruct (Z.ltb (_ttl self) (now - updated_at data)) eqn:Hold.
    + apply Z.ltb_lt in Hold. apply (cleanup_lookup_expired self sid data now Hin). lia.
    + apply Z.ltb_ge in Hold. apply (cleanup_lookup_fresh self sid data now Hin). lia.
  - unfold _cleanup_expired_locked. simpl.
    apply map_lookup_filter_None. left. exact Hin.
Qed.

(** The record [ensure] leaves under the identifier: a new one, or the
    one found, stamped. *)
Definition ensured (self : SessionStore) (sid : str) (now created now' : Z)
  : session_data :=
  match _sessions (_cleanup_expired_locked self now) !! sid with
  | Some data => touch data now'
  | None => mkSession created now' [] None [] [] []
  end.

Lemma ensure_spec (self : SessionStore) (sid : str) (now created now' : Z) :
  fst (ensure self sid now created now') = sid
  /\ _ttl (snd (ensure self sid now created now')) = _ttl self
  /\ _sessions (snd (ensure self sid now created now'))
     = <[sid := ensured self sid now created now']>
         (_sessions (_cleanup_expired_locked self now)).
Proof.
  unfold ensure, ensured.
  destruct (_sessions (_cleanup_expired_locked self now) !! sid); simpl; auto.
Qed.

(** A setter never meets a missing record: it returns, and the store
    then holds, under the identifier, the record [ensure] left with the
    field assigned and the last time stamp. *)
Lemma assign_spec (self : SessionStore) (session_id fresh : str) (now created now' now'' : Z)
  (f : session_data -> session_data) :
  session_id <> [] ->
  exists store,
    assign self session_id fresh now created now' now'' f = Some store
    /\ _ttl store = _ttl self
    /\ _sessions store
       = <[session_id := touch (f (ensured self session_id now created now')) now'']>
           (_sessions (_cleanup_expired_locked self now)).
Proof.
  intros Hid. unfold assign, ensure_or_new.
  assert (Hsid : sid_or_new (Some session_id) fresh = session_id)
    by (destruct session_id; [contradiction | reflexivity]).
  rewrite Hsid.
  destruct (ensure_spec self session_id now created now') as [H1 [H2 H3]].
  destruct (ensure self session_id now created now') as [sid store1]. simpl in H1, H2, H3.
  subst sid. rewrite H3, lookup_insert_eq.
  eexists. split; [reflexivity |]. split; [exact H2 |].
  simpl. now rewrite insert_insert_eq.
Qed.

Lemma get_after_insert (self : SessionStore) (sid : str) (data : session_data)
  (sessions : gmap (list ascii) session_data) (later later' : Z) :
  (later - updated_at data <= _ttl self)%Z ->
  fst (get (mkStore (_ttl self) (<[sid := data]> sessions)) sid later later')
  = Some (touch data later').
Proof.
  intros Hsoon. apply get_fresh_is_some; simpl; [apply lookup_insert_eq | exact Hsoon].
Qed.

Lemma store_eta (store : SessionStore) : store = mkStore (_ttl store) (_sessions store).
Proof. now destruct store. Qed.

Lemma assign_then_get (self : SessionStore) (session_id fresh : str)
  (now created now' now'' later later' : Z) (f : session_data -> session_data) :
  session_id <> [] -> (later - now'' <= _ttl self)%Z ->
  exists store,
    assign self session_id fresh now created now' now'' f = Some store
    /\ fst (get store session_id later later')
       = Some (touch (f (ensured self session_id now created now')) later').
Proof.
  intros Hid Hsoon.
  destruct (assign_spec self session_id fresh now created now' now'' f Hid)
    as [store [Hset [Httl Hmap]]].
  exists store. split; [exact Hset |].
  rewrite (store_eta store), Httl, Hmap.
  rewrite get_after_insert; [reflexivity | exact Hsoon].
Qed.

Lemma assign_others (self store : SessionStore) (session_id fresh other : str)
  (now created now' now'' : Z) (f : session_data -> session_data) :
  session_id <> [] -> other <> session_id ->
  assign self session_id fresh now created now' now'' f = Some store ->
  _sessions store !! other = _sessions (_cleanup_expired_locked self now) !! other.
Proof.
  intros Hid Hother Hset.
  destruct (assign_spec self session_id fresh now created now' now'' f Hid)
    as [store' [Hset' [_ Hmap]]].
  rewrite Hset in Hset'. injection Hset' as <-.
  now rewrite Hmap, lookup_insert_ne by congruence.
Qed.

(** X14. Reading restarts the time to live: a record that [get] finds
    is returned with its time stamp moved to the time of the access, and
    a later [get] within the TTL of that access finds it again, however
    old the stamp was before, with nothing but the stamp changed. *)
Theorem get_restarts_ttl (self : SessionStore) (session_id : str) (data : session_data)
  (now now' later later' : Z)
  (Hstored : _sessions self !! session_id = Some data)
  (Hfresh : (now - updated_at data <= _ttl self)%Z)
  (Hsoon : (later - now' <= _ttl self)%Z) :
  fst (get self session_id now now') = Some (touch data now')
  /\ fst (get (snd (get self session_id now now')) session_id later later')
     = Some (touch data later').
Proof.
  split; [now apply get_fresh_is_some |].
  pose proof (cleanup_lookup_fresh self session_id data now Hstored Hfresh) as Hkept.
  unfold get at 2. rewrite Hkept. cbn [snd].
  change (_ttl (_cleanup_expired_locked self now)) with (_ttl self).
  rewrite get_after_insert; [reflexivity | exact Hsoon].
Qed.

(** A store with the default TTL of 240 minutes and one session made at
    time 0; the session is read after 240 minutes and again 240 minutes
    later. *)
Definition day_store : SessionStore := snd (ensure (new_store 240) (lit "s1") 0 0 0).
Definition day_session : session_data := mkSession 0 0 [] None [] [] [].

Lemma get_restarts_ttl_witness :
  _sessions day_store !! lit "s1" = Some day_session
  /\ (14400000000 - updated_at day_session <= _ttl day_store)%Z
  /\ (28800000000 - 14400000000 <= _ttl day_store)%Z
  /\ fst (get (snd (get day_store (lit "s1") 14400000000 14400000000)) (lit "s1")
              28800000000 28800000001)
     = Some (touch day_session 28800000001).
Proof.
  assert (H1 : _sessions day_store !! lit "s1" = Some day_session)
    by (vm_compute; reflexivity).
  assert (H2 : (14400000000 - updated_at day_session <= _ttl day_store)%Z)
    by (vm_compute; discriminate).
  assert (H3 : (28800000000 - 14400000000 <= _ttl day_store)%Z)
    by (vm_compute; discriminate).
  split; [exact H1 | split; [exact H2 | split; [exact H3 |]]].
  exact (proj2 (get_restarts_ttl day_store (lit "s1") day_session
                  14400000000 14400000000 28800000000 28800000001 H1 H2 H3)).
Defined.

(** X15. What a setter stores is what the getter returns: for an
    identifier that is not empty, in any state of the store, each of
    [set_transcript], [set_summary], [set_retrieval_chunks] and
    [set_mcqs] returns without a [KeyError], and a read within the TTL
    of the setter's time stamp gives back the value stored. *)
Theorem set_then_get (self : SessionStore) (session_id fresh : str)
  (now created now' now'' later later' : Z)
  (text : str) (digest : StructuredSummary) (chunks : list str) (items : list MCQItem)
  (Hid : session_id <> [])
  (Hsoon : (later - now'' <= _ttl self)%Z) :
  (exists store data,
     set_transcript self session_id fresh now created now' now'' text = Some store
     /\ fst (get store session_id later later') = Some data
     /\ transcript data = text)
  /\ (exists store,
        set_summary self session_id fresh now created now' now'' digest = Some store
        /\ fst (get_summary store session_id later later') = Some digest)
  /\ (exists store,
        set_retrieval_chunks self session_id fresh now created now' now'' chunks = Some store
        /\ fst (get_retrieval_chunks store session_id later later') = chunks)
  /\ (exists store,
        set_mcqs self session_id fresh now created now' now'' items = Some store
        /\ fst (get_mcqs store session_id later later') = items).
Proof.
  split; [| split; [| split]].
  - destruct (assign_then_get self session_id fresh now created now' now'' later later'
                (fun data => mkSession (created_at data) (updated_at data) text
                               (summary data) (retrieval_chunks data) (mcqs data)
                               (chat_history data)) Hid Hsoon) as [store [Hset Hget]].
    exists store. eexists. split; [exact Hset |]. split; [exact Hget | reflexivity].
  - destruct (assign_then_get self session_id fresh now created now' now'' later later'
                (fun data => mkSession (created_at data) (updated_at data)
                               (transcript data) (Some digest) (retrieval_chunks data)
                               (mcqs data) (chat_history data)) Hid Hsoon)
      as [store [Hset Hget]].
    exists store. split; [exact Hset |]. unfold get_summary.
    destruct (get store session_id later later') as [session store']. simpl in Hget.
    now rewrite Hget.
  - destruct (assign_then_get self session_id fresh now created now' now'' later later'
                (fun data => mkSession (created_at data) (updated_at data)
                               (transcript data) (summary data) chunks
                               (mcqs data) (chat_history data)) Hid Hsoon)
      as [store [Hset Hget]].
    exists store. split; [exact Hset |]. unfold get_retrieval_chunks.
    destruct (get store session_id later later') as [session store']. simpl in Hget.
    now rewrite Hget.
  - destruct (assign_then_get self session_id fresh now created now' now'' later later'
                (fun data => mkSession (created_at data) (updated_at data)
                               (transcript data) (summary data) (retrieval_chunks data)
                               items (chat_history data)) Hid Hsoon)
      as [store [Hset Hget]].
    exists store. split; [exact Hset |]. unfold get_mcqs.
    destruct (get store session_id later later') as [session store']. simpl in Hget.
    now rewrite Hget.
Qed.

Definition day_summary : StructuredSummary :=
  mkSummary [lit "An overview."] [] [lit "Gradient descent"] [] [].

Lemma set_then_get_witness :
  lit "s1" <> []
  /\ (14400000002 - 2 <= _ttl day_store)%Z
  /\ exists store,
       set_summary day_store (lit "s1") (lit "fresh") 0 0 1 2 day_summary = Some store
       /\ fst (get_summary store (lit "s1") 14400000002 14400000003) = Some day_summary.
Proof.
  assert (Hid : lit "s1" <> []) by discriminate.
  assert (Hsoon : (14400000002 - 2 <= _ttl day_store)%Z) by (vm_compute; discriminate).
  split; [exact Hid | split; [exact Hsoon |]].
  exact (proj1 (proj2 (set_then_get day_store (lit "s1") (lit "fresh") 0 0 1 2
                         14400000002 14400000003 [] day_summary [] [] Hid Hsoon))).
Defined.

(** X16. A setter touches one session only: after any of the five
    setters has run for one identifier, the record of every other
    identifier is what the clean-up at the start of the call left of it,
    gone when its time stamp lies more than the TTL before that moment
    and otherwise unchanged, time stamp included. *)
Theorem setters_leave_others (self store : SessionStore) (session_id fresh other : str)
  (now created now' now'' : Z)
  (text role content : str) (digest : StructuredSummary) (chunks : list str)
  (items : list MCQItem)
  (Hid : session_id <> [])
  (Hother : other <> session_id)
  (Hset : set_transcript self session_id fresh now created now' now'' text = Some store
          \/ set_summary self session_id fresh now created now' now'' digest = Some store
          \/ set_retrieval_chunks self session_id fresh now created now' now'' chunks = Some store
          \/ set_mcqs self session_id fresh now created now' now'' items = Some store
          \/ append_chat self session_id fresh now created now' now'' role content = Some store) :
  _sessions store !! other
  = match _sessions self !! other with
    | Some data => if Z.ltb (_ttl self) (now - updated_at data) then None else Some data
    | None => None
    end.
Proof.
  rewrite <- cleanup_lookup.
  destruct Hset as [H | [H | [H | [H | H]]]];
    exact (assign_others self store session_id fresh other now created now' now'' _ Hid Hother H).
Qed.

(** Two sessions made at time 0; the first one gets its summary after
    100 minutes. *)
Definition two_sessions : SessionStore :=
  snd (ensure day_store (lit "s2") 0 0 0).
Definition after_summary : SessionStore :=
  match set_summary two_sessions (lit "s1") (lit "fresh")
          6000000000 6000000000 6000000000 6000000000 day_summary with
  | Some store => store
  | None => two_sessions
  end.

Lemma setters_leave_others_witness :
  lit "s1" <> []
  /\ lit "s2" <> lit "s1"
  /\ set_summary two_sessions (lit "s1") (lit "fresh")
       6000000000 6000000000 6000000000 6000000000 day_summary = Some after_summary
  /\ _sessions after_summary !! lit "s2" = Some day_session.
Proof.
  assert (Hid : lit "s1" <> []) by discriminate.
  assert (Hother : lit "s2" <> lit "s1") by discriminate.
  assert (Hset : set_summary two_sessions (lit "s1") (lit "fresh")
                   6000000000 6000000000 6000000000 6000000000 day_summary = Some after_summary)
    by (vm_compute; reflexivity).
  split; [exact Hid | split; [exact Hother | split; [exact Hset |]]].
  rewrite (setters_leave_others two_sessions after_summary (lit "s1") (lit "fresh")
             (lit "s2") 6000000000 6000000000 6000000000 6000000000 [] [] [] day_summary [] []
             Hid Hother (or_intror (or_introl Hset))).
  vm_compute. reflexivity.
Defined.

(** X17. The two messages of an exchange are kept in order: when the
    session is alive and does not expire between the two calls,
    [append_chat] for the question and then for the answer leaves the
    earlier history followed by the two messages, and every other field
    of the session as it was. *)
Theorem append_chat_order (self : SessionStore) (session_id fresh : str)
  (data : session_data) (t0 t1 t2 t3 t4 t5 c c' : Z) (asked answer : str)
  (Hid : session_id <> [])
  (Hstored : _sessions self !! session_id = Some data)
  (Hfresh : (t0 - updated_at data <= _ttl self)%Z)
  (Hsoon : (t3 - t2 <= _ttl self)%Z) :
  exists store1 store2 after,
    append_chat self session_id fresh t0 c t1 t2 (lit "user") asked = Some store1
    /\ append_chat store1 session_id fresh t3 c' t4 t5 (lit "assistant") answer = Some store2
    /\ _sessions store2 !! session_id = Some after
    /\ chat_history after
       = chat_history data ++ [(lit "user", asked); (lit "assistant", answer)]
    /\ transcript after = transcript data /\ summary after = summary data
    /\ retrieval_chunks after = retrieval_chunks data /\ mcqs after = mcqs data
    /\ created_at after = created_at data /\ updated_at after = t5.
Proof.
  unfold append_chat.
  set (f1 := fun d => mkSession (created_at d) (updated_at d) (transcript d) (summary d)
                        (retrieval_chunks d) (mcqs d)
                        (chat_history d ++ [(lit "user", asked)])).
  set (f2 := fun d => mkSession (created_at d) (updated_at d) (transcript d) (summary d)
                        (retrieval_chunks d) (mcqs d)
                        (chat_history d ++ [(lit "assistant", answer)])).
  destruct (assign_spec self session_id fresh t0 c t1 t2 f1 Hid)
    as [store1 [Hset1 [Httl1 Hmap1]]].
  destruct (assign_spec store1 session_id fresh t3 c' t4 t5 f2 Hid)
    as [store2 [Hset2 [Httl2 Hmap2]]].
  exists store1, store2. eexists.
  split; [exact Hset1 |]. split; [exact Hset2 |].
  split; [rewrite Hmap2; apply lookup_insert_eq |].
  assert (He1 : ensured self session_id t0 c t1 = touch data t1).
  { unfold ensured. now rewrite (cleanup_lookup_fresh self session_id data t0 Hstored Hfresh). }
  assert (He2 : ensured store1 session_id t3 c' t4 = touch (touch (f1 (touch data t1)) t2) t4).
  { unfold ensured.
    rewrite (cleanup_lookup_fresh store1 session_id (touch (f1 (touch data t1)) t2) t3).
    - reflexivity.
    - rewrite Hmap1, He1. apply lookup_insert_eq.
    - rewrite Httl1. simpl. exact Hsoon. }
  rewrite He2. subst f1 f2. cbn. rewrite <- app_assoc. cbn.
  repeat split; reflexivity.
Qed.

Lemma append_chat_order_witness :
  lit "s1" <> []
  /\ _sessions day_store !! lit "s1" = Some day_session
  /\ (10 - updated_at day_session <= _ttl day_store)%Z
  /\ (20 - 12 <= _ttl day_store)%Z
  /\ exists store1 store2 after,
       append_chat day_store (lit "s1") (lit "fresh") 10 10 11 12 (lit "user")
         (lit "What is a gradient?") = Some store1
       /\ append_chat store1 (lit "s1") (lit "fresh") 20 20 21 22 (lit "assistant")
            (lit "A vector of partial derivatives.") = Some store2
       /\ _sessions store2 !! lit "s1" = Some after
       /\ chat_history after
          = [(lit "user", lit "What is a gradient?");
             (lit "assistant", lit "A vector of partial derivatives.")].
Proof.
  assert (Hid : lit "s1" <> []) by discriminate.
  assert (Hstored : _sessions day_store !! lit "s1" = Some day_session)
    by (vm_compute; reflexivity).
  assert (Hfresh : (10 - updated_at day_session <= _ttl day_store)%Z)
    by (vm_compute; discriminate).
  assert (Hsoon : (20 - 12 <= _ttl day_store)%Z) by (vm_compute; discriminate).
  split; [exact Hid | split; [exact Hstored | split; [exact Hfresh | split; [exact Hsoon |]]]].
  destruct (append_chat_order day_store (lit "s1") (lit "fresh") day_session
              10 11 12 20 21 22 10 20 (lit "What is a gradient?")
              (lit "A vector of partial derivatives.") Hid Hstored Hfresh Hsoon)
    as [store1 [store2 [after [H1 [H2 [H3 [H4 _]]]]]]].
  exists store1, store2, after.
  split; [exact H1 | split; [exact H2 | split; [exact H3 | exact H4]]].
Defined.

End SessionOperations.

(* ===================================================================== *)
(** * What the adapters make of the model's answers
      (llm_utils.py, gemini_service.py, ollama_service.py) *)
(* ===================================================================== *)

Section ModelAnswers.
Import py schemas adapters.

Variable W : Type.
Variable backend : str -> float -> W -> option str * W.
Variable json_loads : str -> option json.
Variable py_str : json -> str.
Variable int_max_str_digits : Z.
Variable build_mcq_prompt : StructuredSummary -> list str -> str.

(** ** _generate *)

Lemma generate_off (prompt : str) (temperature : float) (st : W * list request) :
  _generate backend (Ollama false) prompt temperature st = (Exc "RuntimeError", st).
Proof. reflexivity. Qed.

Lemma generate_on (who : adapter) (prompt : str) (temperature : float)
  (w : W) (sent : list request) :
  who <> Ollama false ->
  snd (_generate backend who prompt temperature (w, sent))
  = (snd (backend prompt temperature w), sent ++ [(prompt, temperature)])
  /\ fst (_generate backend who prompt temperature (w, sent)) <> Diverges
  /\ forall text,
       fst (_generate backend who prompt temperature (w, sent)) = Ok text ->
       exists response,
         fst (backend prompt temperature w) = Some response
         /\ text = strip response
         /\ (who = Gemini -> response <> [])
         /\ (who = Ollama true -> text <> []).
Proof.
  intros Hon. unfold _generate.
  assert (Hcase : who = Gemini \/ who = Ollama true)
    by (destruct who as [| []]; auto; contradiction).
  destruct (backend prompt temperature w) as [[response |] w1]; cbn [fst snd].
  - destruct Hcase as [-> | ->].
    + destruct (pipeline_utils.nonempty response) eqn:Hne; cbn [fst snd].
      * repeat split; try discriminate.
        intros text H. injection H as <-. exists response.
        split; [reflexivity | split; [reflexivity |]].
        split; [intros _; now apply nonempty_true | discriminate].
      * repeat split; discriminate.
    + destruct (pipeline_utils.nonempty (strip response)) eqn:Hne; cbn [fst snd].
      * repeat split; try discriminate.
        intros text H. injection H as <-. exists response.
        split; [reflexivity | split; [reflexivity |]].
        split; [discriminate | intros _; now apply nonempty_true].
      * repeat split; discriminate.
  - destruct Hcase as [-> | ->]; repeat split; discriminate.
Qed.



(** ** normalize_mcq_item *)

(** A question as the schema wants it, with nothing left blank. *)
Definition well_formed (mcq : MCQItem) : Prop :=
  length (options mcq) = 4%nat
  /\ Forall (fun option => option <> [] /\ stripped option) (options mcq)
  /\ 0 <= correct_index mcq <= 3
  /\ question mcq <> [] /\ explanation mcq <> [].

Lemma pad_options_spec (fuel : nat) (given : list str) :
  (4 <= length given + fuel)%nat ->
  Forall (fun option => option <> [] /\ stripped option) given ->
  (4 <= length (pad_options fuel given))%nat
  /\ (length given <= 4 -> length (pad_options fuel given) = 4)%nat
  /\ Forall (fun option => option <> [] /\ stripped option) (pad_options fuel given)
  /\ exists added, pad_options fuel given = given ++ added.
Proof.
  revert given. induction fuel as [| fuel IH]; intros given Hlen Hok; cbn [pad_options].
  - split; [lia |]. split; [lia |]. split; [exact Hok |]. exists []. now rewrite app_nil_r.
  - destruct (len given <? 4) eqn:Hlt.
    + apply Z.ltb_lt in Hlt. unfold len in Hlt.
      destruct (IH (given ++ [nth (length given) FALLBACK_POOL []])) as [H1 [H2 [H3 [added H4]]]].
      * rewrite length_app. simpl. lia.
      * apply Forall_app. split; [exact Hok |]. constructor; [| constructor].
        assert (Hcases : (length given = 0 \/ length given = 1 \/ length given = 2
                          \/ length given = 3)%nat) by lia.
        destruct Hcases as [-> | [-> | [-> | ->]]];
          (split; [discriminate |]);
          (split; intros c t H; [injection H as <- _; reflexivity |]);
          apply (f_equal (@rev ascii)) in H; rewrite rev_app_distr in H;
          vm_compute in H; injection H as <- _; reflexivity.
      * rewrite length_app in H2. cbn [length] in H2.
        split; [exact H1 |]. split; [intros _; apply H2; lia |].
        split; [exact H3 |]. rewrite H4, <- app_assoc. eexists. reflexivity.
    + apply Z.ltb_ge in Hlt. unfold len in Hlt.
      split; [lia |]. split; [lia |]. split; [exact Hok |]. exists []. now rewrite app_nil_r.
Qed.

Lemma text_or_nonempty (item : list (str * json)) (key default : string) :
  default <> EmptyString -> text_or py_str item key default <> [].
Proof.
  intros Hd. unfold text_or.
  destruct (pipeline_utils.nonempty _) eqn:Hne; [now apply nonempty_true |].
  destruct default; [contradiction | discriminate].
Qed.

(** What the padding loop adds: the entries of the fallback pool from
    the position the options given leave off. *)
Lemma pad_options_exact (fuel : nat) (given : list str) :
  (length given <= 4)%nat ->
  (4 <= length given + fuel)%nat ->
  pad_options fuel given = given ++ skipn (length given) FALLBACK_POOL.
Proof.
  revert given. induction fuel as [| fuel IH]; intros given Hle Hfuel; cbn [pad_options].
  - replace (length given) with 4%nat by lia. cbn [skipn FALLBACK_POOL map].
    now rewrite app_nil_r.
  - destruct (len given <? 4) eqn:Hlt.
    + apply Z.ltb_lt in Hlt. unfold len in Hlt.
      rewrite IH by (rewrite length_app; simpl; lia).
      rewrite length_app, <- app_assoc. cbn [length app]. f_equal.
      assert (Hcases : (length given = 0 \/ length given = 1 \/ length given = 2
                        \/ length given = 3)%nat) by lia.
      destruct Hcases as [-> | [-> | [-> | ->]]]; reflexivity.
    + apply Z.ltb_ge in Hlt. unfold len in Hlt.
      replace (length given) with 4%nat by lia. cbn [skipn FALLBACK_POOL map].
      now rewrite app_nil_r.
Qed.

(** [int(raw_correct)] and the branch on strings before it return or
    raise one of three exceptions. *)
Lemma correct_of_cases (raw_correct : json) :
  match correct_of int_max_str_digits raw_correct with
  | Ok _ => True
  | Exc e => (e = "TypeError" \/ e = "ValueError" \/ e = "OverflowError")%string
  | Diverges => False
  end.
Proof.
  assert (Hd : forall codes,
            match (if isdigit codes then int_of_digits int_max_str_digits codes else Ok 0) with
            | Ok _ => True
            | Exc e => (e = "TypeError" \/ e = "ValueError" \/ e = "OverflowError")%string
            | Diverges => False
            end).
  { intros codes. destruct (isdigit codes); [| exact I]. unfold int_of_digits.
    destruct (negb _); [auto |]. destruct (_ && _); [auto | exact I]. }
  unfold correct_of.
  destruct raw_correct as [| b | z | x | s | l | d]; try exact I; auto.
  - unfold int_of_float. destruct (Prim2SF x); try exact I; auto.
  - destruct (upper (strip s)) as [| n1 [| n2 codes]]; try apply Hd.
    + destruct n1 as [| p]; [apply Hd |].
      do 7 (destruct p as [p | p |]; try apply Hd); exact I.
    + destruct n1 as [| p]; [apply Hd |].
      do 7 (destruct p as [p | p |]; try apply Hd).
Qed.

(** The options the model gave that count: stripped, not blank, four at
    most. *)
Definition kept_options (given : list json) : list str :=
  firstn 4 (List.filter pipeline_utils.nonempty
              (map (fun opt => strip (str_of py_str opt)) given)).

Lemma normalize_mcq_item_cases (item : list (str * json)) :
  let given_options :=
    match dict_get item (lit "options") with Some v => v | None => JList [] end in
  let raw_correct :=
    match dict_get item (lit "correct_index") with Some v => v | None => JInt 0 end in
  match normalize_mcq_item py_str int_max_str_digits item with
  | Ok mcq =>
      well_formed mcq
      /\ exists given index,
           iterate given_options = Some given
           /\ correct_of int_max_str_digits raw_correct = Ok index
           /\ options mcq = kept_options given ++ skipn (length (kept_options given)) FALLBACK_POOL
           /\ correct_index mcq = Z.max 0 (Z.min index 3)
           /\ question mcq = text_or py_str item "question" "Question unavailable"
           /\ explanation mcq = text_or py_str item "explanation" "No explanation provided."
  | Exc e =>
      (iterate given_options = None /\ e = "TypeError"%string)
      \/ (iterate given_options <> None
          /\ correct_of int_max_str_digits raw_correct = Exc e
          /\ (e = "TypeError" \/ e = "ValueError" \/ e = "OverflowError")%string)
  | Diverges => False
  end.
Proof.
  cbv zeta. unfold normalize_mcq_item.
  destruct (iterate _) as [given |] eqn:Hiter; [| now left].
  change (slice_to 4 (List.filter pipeline_utils.nonempty
                        (map (fun opt => strip (str_of py_str opt)) given)))
    with (kept_options given).
  assert (Hkept : Forall (fun option => option <> [] /\ stripped option) (kept_options given)).
  { apply Forall_forall. intros x Hin. apply in_firstn in Hin.
    apply filter_In in Hin as [Hin Hne]. split; [now apply nonempty_true |].
    apply in_map_iff in Hin as [opt [<- _]]. apply strip_stripped. }
  assert (Hlen : (length (kept_options given) <= 4)%nat) by apply firstn_le_length.
  destruct (pad_options_spec 4 (kept_options given) ltac:(lia) Hkept) as [_ [H4 [Hall _]]].
  specialize (H4 Hlen).
  pose proof (pad_options_exact 4 (kept_options given) Hlen ltac:(lia)) as Hadd.
  pose proof (correct_of_cases
                (match dict_get item (lit "correct_index") with
                 | Some v => v
                 | None => JInt 0
                 end)) as Hraw.
  destruct (correct_of int_max_str_digits _) as [raw | e |]; [| | contradiction].
  - unfold local_ai_service.MCQItem_new.
    replace (len (pad_options 4 (kept_options given)) =? 4) with true
      by (symmetry; apply Z.eqb_eq; unfold len; lia).
    replace (0 <=? Z.max 0 (Z.min raw 3)) with true by (symmetry; apply Z.leb_le; lia).
    replace (Z.max 0 (Z.min raw 3) <=? 3) with true by (symmetry; apply Z.leb_le; lia).
    cbn [andb]. split.
    + unfold well_formed. cbn [options correct_index question explanation].
      split; [exact H4 |]. split; [exact Hall |]. split; [lia |].
      split; apply text_or_nonempty; discriminate.
    + exists given, raw. cbn [options correct_index question explanation].
      split; [reflexivity |]. split; [reflexivity |]. split; [exact Hadd |].
      split; [reflexivity |]. split; reflexivity.
  - right. split; [discriminate |]. split; [reflexivity | exact Hraw].
Qed.

(** X18. [normalize_mcq_item] returns or raises.  Whenever it returns,
    the question is well formed: exactly four options, none of them empty
    and none with outer whitespace, an index from 0 to 3, a question and
    an explanation that are not empty; the options are the first four
    options of the model that are not blank, stripped, followed by the
    entries of the fallback pool from that position on; the index is
    [int(raw_correct)] clamped to 0..3.  The schema never refuses what it
    builds: the only failures are the [TypeError] of options that cannot
    be iterated and the [TypeError], [ValueError] or [OverflowError] of
    converting [correct_index]. *)
Theorem normalize_mcq_item_shape (item : list (str * json)) :
  let given_options :=
    match dict_get item (lit "options") with Some v => v | None => JList [] end in
  let raw_correct :=
    match dict_get item (lit "correct_index") with Some v => v | None => JInt 0 end in
  let run := normalize_mcq_item py_str int_max_str_digits item in
  run <> Diverges
  /\ (forall mcq, run = Ok mcq ->
        well_formed mcq
        /\ exists given index,
             iterate given_options = Some given
             /\ correct_of int_max_str_digits raw_correct = Ok index
             /\ options mcq = kept_options given ++ skipn (length (kept_options given)) FALLBACK_POOL
             /\ correct_index mcq = Z.max 0 (Z.min index 3)
             /\ question mcq = text_or py_str item "question" "Question unavailable"
             /\ explanation mcq
                = text_or py_str item "explanation" "No explanation provided.")
  /\ (forall e, run = Exc e ->
        (iterate given_options = None /\ e = "TypeError"%string)
        \/ (iterate given_options <> None
            /\ correct_of int_max_str_digits raw_correct = Exc e
            /\ (e = "TypeError" \/ e = "ValueError" \/ e = "OverflowError")%string)).
Proof.
  cbv zeta. pose proof (normalize_mcq_item_cases item) as H. cbv zeta in H.
  destruct (normalize_mcq_item py_str int_max_str_digits item) as [mcq | e |].
  - split; [discriminate |]. split; [| discriminate].
    intros mcq' Heq. injection Heq as <-. exact H.
  - split; [discriminate |]. split; [discriminate |].
    intros e' Heq. injection Heq as <-. exact H.
  - contradiction.
Qed.

Lemma normalize_items_ok (mcq_items : list json) :
  normalize_items py_str int_max_str_digits mcq_items <> Diverges
  /\ forall normalized,
       normalize_items py_str int_max_str_digits mcq_items = Ok normalized ->
       Forall well_formed normalized.
Proof.
  induction mcq_items as [| item mcq_items [IHd IH]]; cbn [normalize_items].
  - split; [discriminate |]. intros normalized H. injection H as <-. constructor.
  - destruct item as [| b | z | x | s | l | d]; try (split; assumption).
    pose proof (normalize_mcq_item_cases d) as Hitem.
    destruct (normalize_mcq_item py_str int_max_str_digits d) as [mcq | e |];
      [| split; discriminate | contradiction].
    destruct (normalize_items py_str int_max_str_digits mcq_items) as [rest | e |].
    + split; [discriminate |]. intros normalized H. injection H as <-.
      constructor; [apply Hitem | now apply IH].
    + split; discriminate.
    + contradiction.
Qed.

(** ** Two requests at most *)

(** The request, and the one retry when the answer does not decode. *)
Definition asked_twice (who : adapter) (prompt : str) (temperature : float)
  (suffix : str) (retry_temperature : float) : M W json :=
  bindM (_generate backend who prompt temperature) (fun response_text =>
    match extract_json_payload json_loads response_text with
    | Some data => ret data
    | None =>
        bindM (_generate backend who (prompt ++ suffix) retry_temperature)
              (fun retry_text =>
                 match extract_json_payload json_loads retry_text with
                 | Some data => ret data
                 | None => raise "JSONDecodeError"
                 end)
    end).

Lemma asked_twice_off (prompt : str) (temperature : float) (suffix : str)
  (retry_temperature : float) (st : W * list request) :
  asked_twice (Ollama false) prompt temperature suffix retry_temperature st
  = (Exc "RuntimeError", st).
Proof. reflexivity. Qed.

Lemma asked_twice_on (who : adapter) (prompt : str) (temperature : float)
  (suffix : str) (retry_temperature : float) (w : W) (sent : list request) :
  who <> Ollama false ->
  let run := asked_twice who prompt temperature suffix retry_temperature (w, sent) in
  fst run <> Diverges
  /\ (snd (snd run) = sent ++ [(prompt, temperature)]
      \/ (snd (snd run)
          = sent ++ [(prompt, temperature); (prompt ++ suffix, retry_temperature)]
          /\ exists text,
               fst (_generate backend who prompt temperature (w, sent)) = Ok text
               /\ extract_json_payload json_loads text = None))
  /\ (forall v, fst run = Ok v ->
        (exists response,
            fst (backend prompt temperature w) = Some response
            /\ extract_json_payload json_loads (strip response) = Some v
            /\ snd (snd run) = sent ++ [(prompt, temperature)])
        \/ (exists response retry_response,
               fst (backend prompt temperature w) = Some response
               /\ extract_json_payload json_loads (strip response) = None
               /\ fst (backend (prompt ++ suffix) retry_temperature
                         (snd (backend prompt temperature w)))
                  = Some retry_response
               /\ extract_json_payload json_loads (strip retry_response) = Some v
               /\ snd (snd run)
                  = sent ++ [(prompt, temperature);
                             (prompt ++ suffix, retry_temperature)])).
Proof.
  intros Hon. cbv zeta. unfold asked_twice, bindM.
  destruct (generate_on who prompt temperature w sent Hon) as [Hsnd [Hdiv Hok]].
  destruct (_generate backend who prompt temperature (w, sent)) as [[text | e |] st1]
    eqn:Hfirst; cbn [fst snd] in *; [| | contradiction].
  2:{ subst st1. cbn [snd]. split; [discriminate |]. split; [now left | discriminate]. }
  subst st1.
  destruct (extract_json_payload json_loads text) as [v |] eqn:Hdecode.
  { unfold ret. cbn [fst snd].
    split; [discriminate |]. split; [now left |].
    intros v' H. injection H as <-.
    destruct (Hok text eq_refl) as [response [Hanswer [-> _]]].
    left. exists response. split; [exact Hanswer |]. split; [exact Hdecode | reflexivity]. }
  destruct (generate_on who (prompt ++ suffix) retry_temperature
              (snd (backend prompt temperature w)) (sent ++ [(prompt, temperature)]) Hon)
    as [Hsnd2 [Hdiv2 Hok2]].
  destruct (_generate backend who (prompt ++ suffix) retry_temperature _)
    as [[text2 | e2 |] st2] eqn:Hsecond; cbn [fst snd] in *; [| | contradiction].
  2:{ subst st2. cbn [snd]. rewrite <- app_assoc.
      split; [discriminate |]. split; [| discriminate].
      right. split; [reflexivity | now exists text]. }
  subst st2.
  destruct (extract_json_payload json_loads text2) as [v |] eqn:Hdecode2;
    unfold ret, raise; cbn [fst snd]; rewrite <- app_assoc;
    (split; [discriminate |]);
    (split; [right; split; [reflexivity | now exists text] |]).
  - intros v' H. injection H as <-.
    destruct (Hok text eq_refl) as [response [Hanswer [-> _]]].
    destruct (Hok2 text2 eq_refl) as [retry_response [Hretry [-> _]]].
    right. exists response, retry_response.
    split; [exact Hanswer |]. split; [exact Hdecode |].
    split; [exact Hretry |]. split; [exact Hdecode2 | reflexivity].
  - discriminate.
Qed.

(** X19. A call of [_generate_json], of either adapter, does not
    loop and sends at most two requests: with the Ollama switch off it
    raises and sends nothing; otherwise it sends the prompt at the given
    temperature and, only when the answer to it does not decode, the
    prompt with the JSON-only suffix at [max(0.1, temperature - 0.1)].
    What it returns is the payload decoded from a stripped answer of the
    backend: from its answer to the prompt when that decodes, and one
    request was sent; otherwise from its answer to the retry, given in
    the state the first request left. *)
Theorem generate_json_requests (who : adapter) (prompt : str) (temperature : float)
  (w : W) (sent : list request) :
  let run := _generate_json backend json_loads who prompt temperature (w, sent) in
  let retry := (prompt ++ JSON_ONLY, float_max 0.1 (temperature - 0.1)%float) in
  fst run <> Diverges
  /\ (who = Ollama false -> run = (Exc "RuntimeError", (w, sent)))
  /\ (who <> Ollama false ->
      snd (snd run) = sent ++ [(prompt, temperature)]
      \/ (snd (snd run) = sent ++ [(prompt, temperature); retry]
          /\ exists text, fst (_generate backend who prompt temperature (w, sent)) = Ok text
                          /\ extract_json_payload json_loads text = None))
  /\ (forall v, fst run = Ok v ->
        (exists response,
            fst (backend prompt temperature w) = Some response
            /\ extract_json_payload json_loads (strip response) = Some v
            /\ snd (snd run) = sent ++ [(prompt, temperature)])
        \/ (exists response retry_response,
               fst (backend prompt temperature w) = Some response
               /\ extract_json_payload json_loads (strip response) = None
               /\ fst (backend (prompt ++ JSON_ONLY)
                         (float_max 0.1 (temperature - 0.1)%float)
                         (snd (backend prompt temperature w)))
                  = Some retry_response
               /\ extract_json_payload json_loads (strip retry_response) = Some v
               /\ snd (snd run) = sent ++ [(prompt, temperature); retry])).
Proof.
  cbv zeta.
  change (_generate_json backend json_loads who prompt temperature)
    with (asked_twice who prompt temperature JSON_ONLY
            (float_max 0.1 (temperature - 0.1)%float)).
  destruct who as [| [|]].
  - destruct (asked_twice_on Gemini prompt temperature JSON_ONLY
                (float_max 0.1 (temperature - 0.1)%float) w sent ltac:(discriminate))
      as [H1 [H2 H3]].
    split; [exact H1 |]. split; [discriminate |]. split; [intros _; exact H2 | exact H3].
  - destruct (asked_twice_on (Ollama true) prompt temperature JSON_ONLY
                (float_max 0.1 (temperature - 0.1)%float) w sent ltac:(discriminate))
      as [H1 [H2 H3]].
    split; [exact H1 |]. split; [discriminate |]. split; [intros _; exact H2 | exact H3].
  - rewrite asked_twice_off. cbn [fst snd].
    split; [discriminate |]. split; [reflexivity |].
    split; [intros H; now contradiction H | discriminate].
Qed.

(** [generate_mcqs] is the two requests followed by the checks on the
    decoded answer, which send nothing. *)
Definition checked (data : json) : M W (list MCQItem) :=
  let mcq_items :=
    match data with
    | JDict d => Some (match dict_get d (lit "mcqs") with
                       | Some v => v
                       | None => JList []
                       end)
    | JList l => Some (JList l)
    | _ => None
    end in
  match mcq_items with
  | Some (JList (first :: others)) =>
      match normalize_items py_str int_max_str_digits (first :: others) with
      | Ok normalized =>
          if len normalized <? 5 then raise "RuntimeError"
          else ret (firstn 5 normalized)
      | Exc e => raise e
      | Diverges => fun st => (Diverges, st)
      end
  | _ => raise "RuntimeError"
  end.

Lemma generate_mcqs_eq (who : adapter) (summary : StructuredSummary)
  (context_chunks : option (list str)) (st : W * list request) :
  generate_mcqs backend json_loads py_str int_max_str_digits build_mcq_prompt
    who summary context_chunks st
  = bindM (asked_twice who
             (build_mcq_prompt summary
                (match context_chunks with Some l => l | None => [] end))
             0.3 MCQ_JSON_ONLY 0.1)
          checked st.
Proof.
  unfold generate_mcqs, asked_twice, bindM.
  destruct (_generate backend who _ _ st) as [[text | e |] st1]; reflexivity.
Qed.

Lemma checked_spec (data : json) (st : W * list request) :
  snd (checked data st) = st
  /\ fst (checked data st) <> Diverges
  /\ forall mcqs, fst (checked data st) = Ok mcqs ->
                  length mcqs = 5%nat /\ Forall well_formed mcqs.
Proof.
  unfold checked.
  destruct (match data with
            | JDict d => _
            | JList l => Some (JList l)
            | _ => None
            end) as [[| | | | | [| first others] |] |];
    try (unfold raise; cbn [fst snd]; repeat split; discriminate).
  destruct (normalize_items_ok (first :: others)) as [Hd Hok].
  destruct (normalize_items py_str int_max_str_digits (first :: others))
    as [normalized | e |]; [| unfold raise; cbn [fst snd]; repeat split; discriminate
                            | contradiction].
  specialize (Hok normalized eq_refl).
  destruct (len normalized <? 5) eqn:Hlt;
    [unfold raise; cbn [fst snd]; repeat split; discriminate |].
  apply Z.ltb_ge in Hlt. unfold len in Hlt.
  unfold ret. cbn [fst snd]. split; [reflexivity |]. split; [discriminate |].
  intros mcqs H. injection H as <-. split.
  - rewrite length_firstn. lia.
  - rewrite <- (firstn_skipn 5 normalized) in Hok. now apply Forall_app in Hok.
Qed.

(** X20. [generate_mcqs] of either adapter does not loop and sends
    the MCQ prompt at temperature 0.3 and at most one retry, with the
    JSON-only suffix at 0.1 (nothing with the Ollama switch off); and
    whenever it returns, it returns exactly five questions, each of them
    well formed. *)
Theorem adapter_generate_mcqs_five (who : adapter) (summary : StructuredSummary)
  (context_chunks : option (list str)) (w : W) (sent : list request) :
  let prompt :=
    build_mcq_prompt summary (match context_chunks with Some l => l | None => [] end) in
  let run :=
    generate_mcqs backend json_loads py_str int_max_str_digits build_mcq_prompt
      who summary context_chunks (w, sent) in
  fst run <> Diverges
  /\ (who = Ollama false -> run = (Exc "RuntimeError", (w, sent)))
  /\ (who <> Ollama false ->
      snd (snd run) = sent ++ [(prompt, 0.3%float)]
      \/ snd (snd run)
         = sent ++ [(prompt, 0.3%float); (prompt ++ MCQ_JSON_ONLY, 0.1%float)])
  /\ (forall mcqs, fst run = Ok mcqs ->
        length mcqs = 5%nat /\ Forall well_formed mcqs).
Proof.
  cbv zeta. rewrite generate_mcqs_eq.
  set (prompt := build_mcq_prompt summary _).
  assert (Hon : who <> Ollama false ->
            let run := bindM (asked_twice who prompt 0.3 MCQ_JSON_ONLY 0.1) checked (w, sent) in
            fst run <> Diverges
            /\ (snd (snd run) = sent ++ [(prompt, 0.3%float)]
                \/ snd (snd run)
                   = sent ++ [(prompt, 0.3%float); (prompt ++ MCQ_JSON_ONLY, 0.1%float)])
            /\ (forall mcqs, fst run = Ok mcqs ->
                  length mcqs = 5%nat /\ Forall well_formed mcqs)).
  { intros Hwho. cbv zeta. unfold bindM.
    destruct (asked_twice_on who prompt 0.3 MCQ_JSON_ONLY 0.1 w sent Hwho)
      as [H1 [H2 _]].
    destruct (asked_twice who prompt 0.3 MCQ_JSON_ONLY 0.1 (w, sent))
      as [[data | e |] st1]; cbn [fst snd] in *; [| | contradiction].
    - destruct (checked_spec data st1) as [Hst [Hd Hok]].
      split; [exact Hd |]. rewrite Hst. split; [| exact Hok].
      destruct H2 as [H2 | [H2 _]]; auto.
    - split; [discriminate |]. split; [| discriminate].
      destruct H2 as [H2 | [H2 _]]; auto. }
  destruct who as [| [|]].
  - destruct (Hon ltac:(discriminate)) as [H1 [H2 H3]].
    split; [exact H1 |]. split; [discriminate |]. split; [intros _; exact H2 | exact H3].
  - destruct (Hon ltac:(discriminate)) as [H1 [H2 H3]].
    split; [exact H1 |]. split; [discriminate |]. split; [intros _; exact H2 | exact H3].
  - unfold bindM. rewrite asked_twice_off. cbn [fst snd].
    split; [discriminate |]. split; [reflexivity |].
    split; [intros H; now contradiction H | discriminate].
Qed.

(** X21. The adapters differ on an answer that is only whitespace:
    [GeminiService._generate] tests the answer before stripping it and
    returns the empty text, [OllamaService._generate] tests it after and
    raises.  Whatever either returns is the stripped answer. *)
Theorem generate_blank_answer (prompt : str) (temperature : float) (w : W)
  (sent : list request) (response : str)
  (Hanswer : fst (backend prompt temperature w) = Some response)
  (Hgiven : response <> [])
  (Hblank : strip response = []) :
  fst (_generate backend Gemini prompt temperature (w, sent)) = Ok []
  /\ fst (_generate backend (Ollama true) prompt temperature (w, sent))
     = Exc "RuntimeError"
  /\ (forall who text,
        fst (_generate backend who prompt temperature (w, sent)) = Ok text ->
        text = strip response).
Proof.
  unfold _generate. destruct (backend prompt temperature w) as [answer w1].
  cbn [fst] in Hanswer. subst answer. rewrite Hblank.
  apply nonempty_true in Hgiven. rewrite Hgiven. cbn [pipeline_utils.nonempty fst].
  split; [reflexivity |]. split; [reflexivity |].
  intros [| [|]] text; cbn [fst]; try discriminate.
  intros H. now injection H as <-.
Qed.

End ModelAnswers.

(** A model that answers every prompt with one space, and one answer of
    a model for a question: an option with blanks around it, an empty
    one, a number, and the letter of the correct option. *)
Definition blank_backend (prompt : py.str) (temperature : float) (w : unit)
  : option py.str * unit :=
  (Some (py.lit " "), w).

Definition text_of (v : adapters.json) : py.str :=
  match v with
  | adapters.JStr s => s
  | adapters.JInt z => py.str_of_Z z
  | _ => py.lit "?"
  end.

Definition answered_item : list (py.str * adapters.json) :=
  [(py.lit "question", adapters.JStr (py.lit " What is a gradient? "));
   (py.lit "options",
    adapters.JList [adapters.JStr (py.lit " a slope "); adapters.JStr (py.lit "  ");
                    adapters.JInt 42]);
   (py.lit "correct_index", adapters.JStr (py.lit " b "))].

Definition answered_mcq : schemas.MCQItem :=
  schemas.mkMCQ (py.lit "What is a gradient?")
    [py.lit "a slope"; py.lit "42"; py.lit "Cannot be inferred";
     py.lit "Requires more context"]
    1 (py.lit "No explanation provided.").

Lemma normalize_mcq_item_shape_witness :
  adapters.normalize_mcq_item text_of 4300 answered_item = adapters.Ok answered_mcq
  /\ well_formed answered_mcq.
Proof.
  assert (H : adapters.normalize_mcq_item text_of 4300 answered_item
              = adapters.Ok answered_mcq) by (vm_compute; reflexivity).
  split; [exact H |].
  exact (proj1 (proj1 (proj2 (normalize_mcq_item_shape text_of 4300 answered_item))
                  answered_mcq H)).
Defined.

Lemma generate_blank_answer_witness :
  fst (blank_backend (py.lit "prompt") 0.2%float tt) = Some (py.lit " ")
  /\ py.lit " " <> []
  /\ py.strip (py.lit " ") = []
  /\ fst (adapters._generate blank_backend adapters.Gemini (py.lit "prompt") 0.2%float
            (tt, [])) = adapters.Ok []
  /\ fst (adapters._generate blank_backend (adapters.Ollama true) (py.lit "prompt")
            0.2%float (tt, [])) = adapters.Exc "RuntimeError".
Proof.
  assert (Hanswer : fst (blank_backend (py.lit "prompt") 0.2%float tt)
                    = Some (py.lit " ")) by reflexivity.
  assert (Hgiven : py.lit " " <> []) by discriminate.
  assert (Hblank : py.strip (py.lit " ") = []) by reflexivity.
  split; [exact Hanswer | split; [exact Hgiven | split; [exact Hblank |]]].
  destruct (generate_blank_answer unit blank_backend (py.lit "prompt") 0.2%float tt []
              (py.lit " ") Hanswer Hgiven Hblank) as [H1 [H2 _]].
  split; [exact H1 | exact H2].
Defined.

(* ===================================================================== *)
(** * The ranking of the offline chat (local_ai_service.py) *)
(* ===================================================================== *)

Section Ranking.
Import py schemas pipeline_utils local_ai_service.
Variable A : Type.
Variable key : A -> Z.

(** No later element has a higher key. *)
Definition descending (l : list A) : Prop :=
  StronglySorted (fun a b => key b <= key a) l.

Lemma insert_desc_perm (x : A) (l : list A) :
  Permutation (insert_desc key Z.geb x l) (x :: l).
Proof.
  induction l as [| y l IH]; cbn [insert_desc]; [reflexivity |].
  destruct (Z.geb (key y) (key x)); [| reflexivity].
  rewrite IH. apply perm_swap.
Qed.

Lemma insert_desc_descending (x : A) (l : list A) :
  descending l -> descending (insert_desc key Z.geb x l).
Proof.
  unfold descending. induction l as [| y l IH]; intros Hs; cbn [insert_desc].
  - repeat constructor.
  - inversion Hs as [| ? ? Hl Hy]; subst.
    destruct (Z.geb (key y) (key x)) eqn:Hge.
    + rewrite Z.geb_leb in Hge. apply Z.leb_le in Hge.
      constructor; [now apply IH |].
      apply Forall_forall. intros z Hz.
      apply (Permutation_in _ (insert_desc_perm x l)) in Hz.
      destruct Hz as [<- | Hz]; [exact Hge |].
      rewrite Forall_forall in Hy. now apply Hy.
    + rewrite Z.geb_leb in Hge. apply Z.leb_gt in Hge.
      constructor; [exact Hs |].
      constructor; [lia |].
      rewrite Forall_forall in *. intros z Hz. specialize (Hy z Hz). lia.
Qed.

Lemma sort_desc_sorted (l : list A) :
  Permutation (sort_desc key Z.geb l) l /\ descending (sort_desc key Z.geb l).
Proof.
  unfold sort_desc.
  assert (H : forall acc, descending acc ->
                Permutation (fold_left (fun acc x => insert_desc key Z.geb x acc) l acc)
                            (l ++ acc)
                /\ descending (fold_left (fun acc x => insert_desc key Z.geb x acc) l acc)).
  { induction l as [| x l IH]; intros acc Hacc; cbn [fold_left app]; [now split |].
    destruct (IH (insert_desc key Z.geb x acc) (insert_desc_descending x acc Hacc))
      as [Hp Hd].
    split; [| exact Hd].
    rewrite Hp, insert_desc_perm. symmetry. apply Permutation_middle. }
  destruct (H [] ltac:(constructor)) as [Hp Hd].
  split; [now rewrite app_nil_r in Hp | exact Hd].
Qed.

Lemma descending_cut (n : nat) (l : list A) (a b : A) :
  descending l -> In a (firstn n l) -> In b (skipn n l) -> key b <= key a.
Proof.
  unfold descending. revert n. induction l as [| x l IH]; intros n Hs Ha Hb.
  - destruct n; destruct Ha.
  - destruct n as [| n]; [destruct Ha |].
    inversion Hs as [| ? ? Hl Hx]; subst. cbn [firstn skipn] in Ha, Hb.
    destruct Ha as [<- | Ha].
    + rewrite Forall_forall in Hx. apply Hx.
      rewrite <- (firstn_skipn n l). apply in_or_app. now right.
    + now apply (IH n).
Qed.

Lemma descending_firstn (n : nat) (l : list A) :
  descending l -> descending (firstn n l).
Proof.
  unfold descending. revert n. induction l as [| x l IH]; intros n Hs.
  - destruct n; constructor.
  - destruct n as [| n]; [constructor |].
    inversion Hs as [| ? ? Hl Hx]; subst. cbn [firstn].
    constructor; [now apply IH |].
    rewrite Forall_forall in *. intros z Hz. apply Hx.
    rewrite <- (firstn_skipn n l). apply in_or_app. now left.
Qed.

End Ranking.

Section TopPoints.
Import py schemas pipeline_utils local_ai_service.

Lemma descending_map {A B : Type} (key : A -> Z) (score : B -> Z) (f : A -> B)
  (l : list A) :
  (forall a, In a l -> key a = score (f a)) ->
  descending A key l -> descending B score (map f l).
Proof.
  unfold descending. induction l as [| x l IH]; intros Hkey Hs; cbn [map];
    [constructor |].
  inversion Hs as [| ? ? Hl Hx]; subst.
  constructor.
  - apply IH; [| exact Hl]. intros a Ha. apply Hkey. now right.
  - rewrite Forall_forall in *. intros b Hb. apply in_map_iff in Hb as [a [<- Ha]].
    rewrite <- (Hkey a (or_intror Ha)), <- (Hkey x (or_introl eq_refl)). now apply Hx.
Qed.

Lemma ranked_points_eq (question_tokens : list str) (pool : list str) :
  ranked_points question_tokens pool
  = map (fun point => (point_score question_tokens point, point))
        (List.filter (fun point => point_score question_tokens point >? 0) pool).
Proof.
  unfold ranked_points. induction pool as [| point pool IH]; [reflexivity |].
  cbn [flat_map List.filter]. rewrite IH.
  now destruct (point_score question_tokens point >? 0).
Qed.

(** X22. The points the offline [chat] quotes are the best three: they
    are the first items of a rearrangement of the items of the summary
    that share a token with the question, they come in the order of
    their scores, highest first, no item left out scores higher than an
    item quoted, and an item is left out only when three are quoted. *)
Theorem best_points_top (question : str) (pool : list str) :
  let score := point_score (distinct [] (content_tokens question)) in
  exists others,
    Permutation (best_points question pool ++ others)
                (List.filter (fun point => score point >? 0) pool)
    /\ descending str score (best_points question pool)
    /\ (others <> [] -> length (best_points question pool) = 3%nat)
    /\ forall point other, In point (best_points question pool) -> In other others ->
         score other <= score point.
Proof.
  cbv zeta. unfold best_points.
  set (score := point_score (distinct [] (content_tokens question))).
  set (ranked := ranked_points (distinct [] (content_tokens question)) pool).
  set (sorted := sort_desc fst Z.geb ranked).
  destruct (sort_desc_sorted _ fst ranked) as [Hperm Hdesc]. fold sorted in Hperm, Hdesc.
  assert (Hranked : ranked = map (fun point => (score point, point))
                                 (List.filter (fun point => score point >? 0) pool))
    by apply ranked_points_eq.
  assert (Hscore : forall entry, In entry sorted -> fst entry = score (snd entry)).
  { intros entry Hin. apply (Permutation_in _ Hperm) in Hin.
    rewrite Hranked in Hin. apply in_map_iff in Hin as [point [<- _]]. reflexivity. }
  set (points := map snd sorted).
  assert (Hpoints : Permutation points (List.filter (fun point => score point >? 0) pool)).
  { subst points. rewrite Hperm, Hranked, map_map. cbn [snd]. now rewrite map_id. }
  assert (Hsorted : descending str score points)
    by (apply (descending_map fst score snd); assumption).
  replace (map snd (firstn 3 sorted)) with (firstn 3 points)
    by (subst points; apply firstn_map).
  exists (skipn 3 points).
  split; [now rewrite firstn_skipn |].
  split; [now apply descending_firstn |]. split.
  - intros Hrest. rewrite length_firstn.
    destruct (le_lt_dec 3 (length points)) as [Hge | Hlt]; [lia |].
    exfalso. apply Hrest. apply skipn_all2. lia.
  - intros point other Hp Ho. exact (descending_cut _ score 3 points point other Hsorted Hp Ho).
Qed.

End TopPoints.

(* ===================================================================== *)
(** * The requests a summary costs (gemini_service.py, ollama_service.py) *)
(* ===================================================================== *)

Section RequestBudget.
Import py schemas adapters.

Variable W : Type.
Variable backend : str -> float -> W -> option str * W.
Variable json_loads : str -> option json.
Variable py_str : json -> str.
Variable build_summary_prompt : str -> str.
Variable build_summary_chunk_prompt : str -> Z -> Z -> str.
Variable build_summary_reduce_prompt : list json -> str.
Variable build_summary_synthesis_prompt : json -> str -> str.
Variable build_summary_validation_prompt : json -> json -> str.

(** The method adds at most [n] requests to those sent before. *)
Definition sends_at_most {A : Type} (n : nat) (m : M W A) : Prop :=
  forall st, exists added,
    snd (snd (m st)) = snd st ++ added /\ (length added <= n)%nat.

Lemma sends_weaken {A : Type} (n n' : nat) (m : M W A) :
  (n <= n')%nat -> sends_at_most n m -> sends_at_most n' m.
Proof.
  intros Hle H st. destruct (H st) as [added [Heq Hlen]].
  exists added. split; [exact Heq | lia].
Qed.

Lemma sends_ret {A : Type} (a : A) : sends_at_most 0 (ret (W := W) a).
Proof. intros st. exists []. split; [simpl; now rewrite app_nil_r | simpl; lia]. Qed.

Lemma sends_raise {A : Type} (e : string) : sends_at_most 0 (raise (W := W) (A := A) e).
Proof. intros st. exists []. split; [simpl; now rewrite app_nil_r | simpl; lia]. Qed.

Lemma sends_bind {A B : Type} (n k : nat) (m : M W A) (f : A -> M W B) :
  sends_at_most n m -> (forall a, sends_at_most k (f a)) ->
  sends_at_most (n + k) (bindM m f).
Proof.
  intros Hm Hf st. unfold bindM. destruct (Hm st) as [added [Heq Hlen]].
  destruct (m st) as [[a | e |] st1]; cbn [fst snd] in *.
  - destruct (Hf a st1) as [added2 [Heq2 Hlen2]].
    exists (added ++ added2). rewrite Heq2, Heq, app_assoc, length_app.
    split; [reflexivity | lia].
  - exists added. split; [exact Heq | lia].
  - exists added. split; [exact Heq | lia].
Qed.

Lemma sends_catch {A : Type} (n k : nat) (m handler : M W A) :
  sends_at_most n m -> sends_at_most k handler -> sends_at_most (n + k) (catch m handler).
Proof.
  intros Hm Hh st. unfold catch. destruct (Hm st) as [added [Heq Hlen]].
  destruct (m st) as [[a | e |] st1]; cbn [fst snd] in *.
  - exists added. split; [exact Heq | lia].
  - destruct (Hh st1) as [added2 [Heq2 Hlen2]].
    exists (added ++ added2). rewrite Heq2, Heq, app_assoc, length_app.
    split; [reflexivity | lia].
  - exists added. split; [exact Heq | lia].
Qed.

Lemma sends_generate (who : adapter) (prompt : str) (temperature : float) :
  sends_at_most 1 (_generate backend who prompt temperature).
Proof.
  intros [w sent]. unfold _generate.
  destruct who as [| [|]].
  - destruct (backend prompt temperature w) as [[response |] w1];
      [destruct (pipeline_utils.nonempty response) |];
      exists [(prompt, temperature)]; split; reflexivity || (simpl; lia).
  - destruct (backend prompt temperature w) as [[response |] w1];
      [destruct (pipeline_utils.nonempty (strip response)) |];
      exists [(prompt, temperature)]; split; reflexivity || (simpl; lia).
  - exists []. split; [simpl; now rewrite app_nil_r | simpl; lia].
Qed.

Lemma sends_generate_json (who : adapter) (prompt : str) (temperature : float) :
  sends_at_most 2 (_generate_json backend json_loads who prompt temperature).
Proof.
  unfold _generate_json. apply (sends_bind 1 1); [apply sends_generate |].
  intros response_text.
  destruct (extract_json_payload json_loads response_text).
  - apply (sends_weaken 0); [lia | apply sends_ret].
  - apply (sends_bind 1 0); [apply sends_generate |].
    intros retry_text. destruct (extract_json_payload json_loads retry_text);
      [apply sends_ret | apply sends_raise].
Qed.

Lemma sends_chunk_pass (who : adapter) (chunks : list str) :
  forall (index total_chunks : Z) (chunk_notes : list json),
    sends_at_most (2 * length chunks)
      (chunk_pass backend json_loads build_summary_chunk_prompt
         who chunks index total_chunks chunk_notes).
Proof.
  induction chunks as [| chunk chunks IH]; intros index total_chunks chunk_notes;
    cbn [chunk_pass].
  - apply sends_ret.
  - replace (2 * length (chunk :: chunks))%nat with (2 + 2 * length chunks)%nat
      by (cbn [length]; lia).
    apply sends_bind; [apply sends_generate_json |].
    intros chunk_data. apply IH.
Qed.

Lemma sends_validated (fuel : nat) (data : json) (cleaned : str) :
  sends_at_most 0 (validated (W := W) py_str fuel data cleaned).
Proof.
  unfold validated. destruct data; try apply sends_raise.
  destruct (pipeline_utils.validate_structured_summary _ _ _); [apply sends_ret |].
  intros st. exists []. split; [simpl; now rewrite app_nil_r | simpl; lia].
Qed.

(** However long the text, it is cut into at most two chunks. *)
Lemma split_into_chunks_length (text : str) (max_chars overlap_chars max_chunks : Z) :
  (length (pipeline_utils.split_into_chunks text max_chars overlap_chars max_chunks)
   <= 2)%nat.
Proof.
  rewrite split_into_chunks_eq. cbv zeta.
  destruct (negb _); [simpl; lia |].
  destruct (_ <=? _).
  - destruct (0 <? max_chunks); simpl; lia.
  - etransitivity; [apply filter_length_le |].
    destruct (1 >=? max_chunks); simpl; lia.
Qed.


Lemma sends_single_shot (who : adapter) (cleaned : str) :
  sends_at_most 2 (single_shot backend json_loads build_summary_prompt who cleaned).
Proof. apply sends_generate_json. Qed.

Lemma sends_multi_pass (transcript : str) :
  sends_at_most 10
    (GeminiService__multi_pass_summary backend json_loads build_summary_prompt
       build_summary_chunk_prompt build_summary_reduce_prompt
       build_summary_synthesis_prompt build_summary_validation_prompt transcript).
Proof.
  unfold GeminiService__multi_pass_summary.
  set (cleaned := pipeline_utils.clean_transcript_text transcript 120000).
  pose proof (split_into_chunks_length cleaned 2500 240 10) as Hlen.
  set (chunks := pipeline_utils.split_into_chunks cleaned 2500 240 10) in *.
  destruct (negb (pipeline_utils.nonempty chunks)).
  - apply (sends_weaken (2 + 0)); [lia |].
    apply sends_bind; [apply sends_single_shot | intros data; apply sends_ret].
  - apply (sends_weaken (2 * length chunks + 6)); [lia |].
    apply sends_bind; [apply sends_chunk_pass |].
    intros chunk_notes. destruct (negb (pipeline_utils.nonempty chunk_notes)).
    + apply (sends_weaken (2 + 0)); [lia |].
      apply sends_bind; [apply sends_single_shot | intros data; apply sends_ret].
    + apply (sends_bind 2 4); [apply sends_generate_json |]. intros reduced_data.
      apply (sends_bind 2 2); [apply sends_generate_json |]. intros synthesis.
      apply (sends_bind 2 0); [apply sends_generate_json |]. intros validation.
      apply sends_ret.
Qed.

(** X23. A summary has a budget of requests that does not depend on
    the length of the transcript: [GeminiService.summarize] sends at
    most 12 requests to the model and [OllamaService.summarize] at most
    10, whatever the model answers and whether or not the method returns;
    with its switch off the Ollama adapter raises at once and sends
    nothing. *)
Theorem summarize_request_budget (fuel : nat) (transcript : str) (enabled : bool)
  (st : W * list request) :
  sends_at_most 12
    (GeminiService_summarize backend json_loads py_str build_summary_prompt
       build_summary_chunk_prompt build_summary_reduce_prompt
       build_summary_synthesis_prompt build_summary_validation_prompt fuel transcript)
  /\ sends_at_most 10
       (OllamaService_summarize backend json_loads py_str build_summary_prompt
          build_summary_chunk_prompt build_summary_reduce_prompt
          build_summary_synthesis_prompt build_summary_validation_prompt
          enabled fuel transcript)
  /\ OllamaService_summarize backend json_loads py_str build_summary_prompt
       build_summary_chunk_prompt build_summary_reduce_prompt
       build_summary_synthesis_prompt build_summary_validation_prompt
       false fuel transcript st
     = (Exc "RuntimeError", st).
Proof.
  split; [| split].
  - unfold GeminiService_summarize.
    apply (sends_bind 12 0).
    + apply (sends_catch 10 2); [apply sends_multi_pass |].
      apply (sends_bind 2 0); [apply sends_single_shot | intros data; apply sends_ret].
    + intros data. apply (sends_bind 0 0); [apply sends_validated |].
      intros summary. destruct (_ || _); [apply sends_ret | apply sends_raise].
  - unfold OllamaService_summarize.
    set (cleaned := pipeline_utils.clean_transcript_text transcript 120000).
    pose proof (split_into_chunks_length cleaned 2400 200 8) as Hlen.
    set (chunks := pipeline_utils.split_into_chunks cleaned 2400 200 8) in *.
    destruct (negb (pipeline_utils.nonempty chunks)).
    + apply (sends_weaken (2 + 0)); [lia |].
      apply sends_bind; [apply sends_single_shot | intros data; apply sends_validated].
    + apply (sends_weaken (2 * length chunks + 6 + 0)); [lia |].
      apply sends_bind; [| intros data; apply sends_validated].
      unfold OllamaService_summarize_data.
      apply sends_bind; [apply sends_chunk_pass |]. intros chunk_notes.
      apply (sends_bind 2 4); [apply sends_generate_json |]. intros reduced_data.
      apply (sends_bind 2 2); [apply sends_generate_json |]. intros candidate_data.
      apply (sends_bind 2 0); [apply sends_generate_json |]. intros validated_data.
      apply sends_ret.
  - unfold OllamaService_summarize.
    destruct (pipeline_utils.split_into_chunks _ 2400 200 8) as [| chunk chunks];
      reflexivity.
Qed.

End RequestBudget.

(* ===================================================================== *)
(** * Reading a session that is not there (session.py) *)
(* ===================================================================== *)

Section SessionReads.
Import stdpp.base stdpp.gmap stdpp.fin_maps.
Import py schemas session.

(** The identifier names no record, or one that has expired. *)
Definition absent (self : SessionStore) (session_id : str) (now : Z) : Prop :=
  match _sessions self !! session_id with
  | Some data => (now - updated_at data > _ttl self)%Z
  | None => True
  end.

(** X24. Reading never creates a session: for an identifier that names
    no record, or one whose time stamp lies more than the TTL back,
    [get] and [get_summary] return [None], [get_retrieval_chunks] and
    [get_mcqs] the empty list, and the store is left as the clean-up
    made it, with no record under the identifier. *)
Theorem getters_absent (self : SessionStore) (session_id : str) (now now' : Z)
  (Habsent : absent self session_id now) :
  get self session_id now now' = (None, _cleanup_expired_locked self now)
  /\ get_summary self session_id now now' = (None, _cleanup_expired_locked self now)
  /\ get_retrieval_chunks self session_id now now' = ([], _cleanup_expired_locked self now)
  /\ get_mcqs self session_id now now' = ([], _cleanup_expired_locked self now)
  /\ _sessions (_cleanup_expired_locked self now) !! session_id = None.
Proof.
  assert (Hgone : _sessions (_cleanup_expired_locked self now) !! session_id = None).
  { rewrite cleanup_lookup. unfold absent in Habsent.
    destruct (_sessions self !! session_id) as [data |]; [| reflexivity].
    replace (Z.ltb (_ttl self) (now - updated_at data)) with true; [reflexivity |].
    symmetry. apply Z.ltb_lt. lia. }
  assert (Hget : get self session_id now now' = (None, _cleanup_expired_locked self now))
    by (unfold get; now rewrite Hgone).
  unfold get_summary, get_retrieval_chunks, get_mcqs. rewrite Hget.
  repeat split; assumption.
Qed.

Lemma getters_absent_witness :
  absent day_store (lit "s9") 5
  /\ get_summary day_store (lit "s9") 5 6 = (None, _cleanup_expired_locked day_store 5)
  /\ _sessions (_cleanup_expired_locked day_store 5) !! lit "s9" = None.
Proof.
  assert (H : absent day_store (lit "s9") 5) by (vm_compute; exact I).
  split; [exact H |].
  destruct (getters_absent day_store (lit "s9") 5 6 H) as [_ [H2 [_ [_ H5]]]].
  split; [exact H2 | exact H5].
Defined.

End SessionReads.
